(** * Decision, guardrail and pacing engine of twitter-automation-ai

    A shallow embedding of the Python sources

      - [src/utils/text_utils.py]
      - [src/features/publisher/reply_generator.py]
      - [src/features/publisher/style_utils.py]
      - [src/features/publisher/reply_handler.py]
      - [src/core/llm_service/generator.py]
      - [src/main.py]

    together with the properties the specification states about them.

    Conventions.  A Python [str] is a sequence of Unicode code points and is
    modelled as [list N]; [len] is [length], [s[:n]] is [take n s].  Python
    integers are [Z].  A Python [set] is a [gset], a [dict] a [gmap].
    External collaborators (the LLM service, the scraper, the publisher, the
    clock) are oracles over an abstract world state. *)

From Stdlib Require Import ZArith NArith List Bool String Ascii Lia DecimalString.
From Stdlib Require Import Floats Uint63 QArith Qminmax Qround Lqa.
From stdpp Require Import base decidable countable gmap list sorting.

Import ListNotations.
Local Open Scope Z_scope.
#[local] Set Warnings "-register-all,-inexact-float,-clear-no-such-hyp".

(** ** Python strings *)

Abbreviation char := N (only parsing).
Abbreviation str := (list N) (only parsing).

(** [py "abc"] is the Python literal ["abc"] (ASCII text only). *)
Definition py (s : string) : str :=
  List.map N_of_ascii (list_ascii_of_string s).

Module Str.

(** [str.isspace] for one code point: the characters [str.strip()] and
    [str.split()] treat as white space. *)
Definition is_space (c : char) : bool :=
  ((9 <=? c) && (c <=? 13) ||
   (28 <=? c) && (c <=? 32) ||
   (c =? 133) || (c =? 160) || (c =? 5760) ||
   (8192 <=? c) && (c <=? 8202) ||
   (c =? 8232) || (c =? 8233) || (c =? 8239) || (c =? 8287) ||
   (c =? 12288))%N.

(** [s.lstrip()] *)
Fixpoint lstrip (s : str) : str :=
  match s with
  | c :: r => if is_space c then lstrip r else s
  | [] => []
  end.

(** [s.rstrip()] *)
Fixpoint rstrip (s : str) : str :=
  match s with
  | [] => []
  | c :: r =>
      match rstrip r with
      | [] => if is_space c then [] else [c]
      | r' => c :: r'
      end
  end.

(** [s.strip()] *)
Definition strip (s : str) : str := rstrip (lstrip s).

(** [s.startswith(p)] *)
Fixpoint startswith (p s : str) : bool :=
  match p, s with
  | [], _ => true
  | _ :: _, [] => false
  | a :: p', b :: s' => (a =? b)%N && startswith p' s'
  end.

(** [needle in hay] *)
Fixpoint contains (needle hay : str) : bool :=
  startswith needle hay ||
  match hay with
  | [] => false
  | _ :: hay' => contains needle hay'
  end.

(** [sep.join(parts)] *)
Fixpoint join (sep : str) (parts : list str) : str :=
  match parts with
  | [] => []
  | [p] => p
  | p :: rest => p ++ sep ++ join sep rest
  end.

(** [a < b] on strings: lexicographic on code points. *)
Fixpoint ltb (a b : str) : bool :=
  match a, b with
  | _, [] => false
  | [], _ :: _ => true
  | x :: a', y :: b' => (x <? y)%N || ((x =? y)%N && ltb a' b')
  end.

Definition is_ascii (c : char) : bool := (c <? 128)%N.

(** Lower-casing of one ASCII code point. *)
Definition ascii_lower (c : char) : char :=
  if ((65 <=? c) && (c <=? 90))%N then (c + 32)%N else c.

End Str.

(** The case mapping of code points outside ASCII comes from the Unicode
    database of the Python runtime, which is no part of the repository.  It
    is a parameter: [lower_nonascii before c after] is what [str.lower]
    produces for the non-ASCII code point [c] standing between [before] and
    [after] (one code point may lower to several, and the mapping of a
    capital sigma depends on its context). *)
Class UnicodeData := lower_nonascii : str -> char -> str -> str.

Section Lower.
Context `{UnicodeData}.

Fixpoint lower_from (before s : str) : str :=
  match s with
  | [] => []
  | c :: rest =>
      (if Str.is_ascii c then [Str.ascii_lower c]
       else lower_nonascii before c rest)
      ++ lower_from (before ++ [c]) rest
  end.

(** [s.lower()] *)
Definition lower (s : str) : str := lower_from [] s.
End Lower.

(** A runtime that leaves every non-ASCII code point alone; enough to run the
    model on ASCII inputs. *)
Definition ascii_runtime : UnicodeData := fun _ c _ => [c].

(** ** [utils/text_utils.py] *)

(** One character of [_TOKEN_PATTERN = re.compile(r"[A-Za-z0-9']+")]. *)
Definition is_token_char (c : char) : bool :=
  ((65 <=? c) && (c <=? 90) || (97 <=? c) && (c <=? 122) ||
   (48 <=? c) && (c <=? 57) || (c =? 39))%N.

Definition emit (cur : str) : list str :=
  match cur with [] => [] | _ => [cur] end.

(** [_TOKEN_PATTERN.finditer(text)]: the maximal runs of token characters,
    left to right; [cur] is the run being extended. *)
Fixpoint finditer (cur s : str) : list str :=
  match s with
  | [] => emit cur
  | c :: rest =>
      if is_token_char c then finditer (cur ++ [c]) rest
      else emit cur ++ finditer [] rest
  end.

Definition _STOPWORDS : gset str :=
  list_to_set (List.map py
    ["a"; "an"; "and"; "are"; "as"; "at"; "be"; "but"; "by"; "for"; "from";
     "has"; "have"; "he"; "her"; "hers"; "him"; "his"; "how"; "i"; "if";
     "in"; "is"; "it"; "its"; "it's"; "just"; "me"; "my"; "of"; "on"; "or";
     "our"; "ours"; "she"; "so"; "than"; "that"; "the"; "their"; "them";
     "there"; "these"; "they"; "this"; "those"; "to"; "too"; "up"; "was";
     "we"; "were"; "what"; "when"; "where"; "which"; "who"; "will"; "with";
     "you"; "your"; "you're"; "amp"; "rt"; "http"; "https"; "www"]%string).

(** A [Counter] keeps its keys in first-insertion order. *)
Fixpoint counter_incr (k : str) (c : list (str * Z)) : list (str * Z) :=
  match c with
  | [] => [(k, 1)]
  | (k', n) :: r =>
      if decide (k' = k) then (k', n + 1) :: r else (k', n) :: counter_incr k r
  end.

(** [counter[t]] (0 for a missing key). *)
Fixpoint counter_get (t : str) (c : list (str * Z)) : Z :=
  match c with
  | [] => 0
  | (k, n) :: r => if decide (k = t) then n else counter_get t r
  end.

(** The sort key [(counter[t], -len(t), t)] and the order of Python tuples. *)
Definition key_ltb (a b : Z * Z * str) : bool :=
  let '(c1, l1, t1) := a in
  let '(c2, l2, t2) := b in
  (c1 <? c2) || ((c1 =? c2) && ((l1 <? l2) || ((l1 =? l2) && Str.ltb t1 t2))).

(** [sorted(l, key=key, reverse=True)]: descending and stable. *)
Fixpoint insert_desc {A K} (ltb : K -> K -> bool) (key : A -> K)
    (x : A) (l : list A) : list A :=
  match l with
  | [] => [x]
  | y :: r =>
      if ltb (key x) (key y) then y :: insert_desc ltb key x r else x :: l
  end.

Definition sorted_reverse {A K} (ltb : K -> K -> bool) (key : A -> K)
    (l : list A) : list A :=
  List.fold_right (insert_desc ltb key) [] l.

(** [l[:n]] for a Python integer [n] (a negative [n] counts from the end). *)
Definition slice_to {A} (n : Z) (l : list A) : list A :=
  if n <? 0 then take (Z.to_nat (Z.of_nat (length l) + n)) l
  else take (Z.to_nat n) l.

Section TextUtils.
Context `{UnicodeData}.

Definition _tokenize (text : str) : list str :=
  List.map lower (finditer [] text).

Definition tokenize_for_overlap (text : str) : gset str :=
  list_to_set
    (List.filter
       (fun token => bool_decide (token ∉ _STOPWORDS)
                     && (2 <? length token)%nat)
       (_tokenize text)).

(** The tally loop of [extract_keywords_from_texts]. *)
Definition tally_token (counter : list (str * Z)) (token : str)
    : list (str * Z) :=
  if (length token <=? 2)%nat then counter
  else if bool_decide (token ∈ _STOPWORDS) then counter
  else counter_incr token counter.

Definition tally (texts : list str) : list (str * Z) :=
  List.fold_left
    (fun counter text => List.fold_left tally_token (_tokenize text) counter)
    texts [].

Definition keyword_key (counter : list (str * Z)) (t : str) : Z * Z * str :=
  (counter_get t counter, - Z.of_nat (length t), t).

(** The list [filtered] that [extract_keywords_from_texts] sorts: the keys
    that reach [min_frequency], or all keys when none does. *)
Definition keyword_pool (counter : list (str * Z)) (min_frequency : Z)
    : list str :=
  let filtered :=
    List.map fst
      (List.filter (fun '(_, count) => min_frequency <=? count) counter) in
  match filtered with [] => List.map fst counter | _ => filtered end.

Definition extract_keywords_from_texts
    (texts : list str) (max_keywords min_frequency : Z) : list str :=
  let counter := tally texts in
  match counter with
  | [] => []
  | _ =>
      let filtered := keyword_pool counter min_frequency in
      let top_tokens :=
        sorted_reverse key_ltb (keyword_key counter) filtered in
      slice_to max_keywords top_tokens
  end.
End TextUtils.


Section Humor.
Context `{UnicodeData}.

(** [s.strip("#")] *)
Fixpoint rstrip_char (x : char) (s : str) : str :=
  match s with
  | [] => []
  | c :: r =>
      match rstrip_char x r with
      | [] => if (c =? x)%N then [] else [c]
      | r' => c :: r'
      end
  end.

Fixpoint lstrip_char (x : char) (s : str) : str :=
  match s with
  | c :: r => if (c =? x)%N then lstrip_char x r else s
  | [] => []
  end.

Definition strip_char (x : char) (s : str) : str :=
  rstrip_char x (lstrip_char x s).

(** The emoji of [_HUMOR_MARKERS] as the source file spells them. *)
Definition _HUMOR_MARKERS : list str :=
  [py "lol"; py "lmao"; py "haha"; py "haha"; py "hehe";
   [240; 376; 732; 8218]%N; [240; 376; 164; 163]%N; [240; 376; 164; 163]%N;
   [240; 376; 732; 185]%N; py "meme"].

Definition is_probably_humorous (text : str) : bool :=
  let tokens := tokenize_for_overlap text in
  if decide (tokens = ∅) then false
  else
    let humor_tokens : gset str :=
      tokens ∩ list_to_set (List.map (strip_char 35%N) _HUMOR_MARKERS) in
    bool_decide (humor_tokens ≠ ∅).
End Humor.

(** ** Data models

    [data_models.py] is not among the sources; the records list the fields
    the code reads. *)

Record ScrapedTweet := {
  tweet_id : option str;
  text_content : option str;
  user_handle : option str;
  embedded_media_urls : list str;
  like_count : option Z;
  retweet_count : option Z;
  reply_count : option Z;
  view_count : option Z;
  created_at : option Z
}.

(** A call either returns or raises; [Raised e] carries the exception's
    name. *)
Inductive Raises (A : Type) : Type :=
| Returns (a : A)
| Raised (e : str).
Arguments Returns {A} a.
Arguments Raised {A} e.

(** The values a structured (JSON) response or a settings file may hold. *)
Inductive JValue : Type :=
| JNull
| JBool (b : bool)
| JNum (n : Z)
| JStr (s : str)
| JList (items : list JValue)
| JDict (entries : gmap str JValue).

(** [bool(v)] *)
Definition truthy (v : JValue) : bool :=
  match v with
  | JNull => false
  | JBool b => b
  | JNum n => negb (n =? 0)
  | JStr s => match s with [] => false | _ => true end
  | JList l => match l with [] => false | _ => true end
  | JDict d => negb (bool_decide (d = ∅))
  end.

(** The first component of what [generate_structured] returns: [None], a
    mapping (always given as [DataDict]), or a value that is no mapping. *)
Inductive PyData : Type :=
| DataNone
| DataDict (d : gmap str JValue)
| DataOther (v : JValue).

(** [o or ""] *)
Definition or_empty (o : option str) : str :=
  match o with Some s => s | None => [] end.

(** [not s] for a string *)
Definition is_empty (s : str) : bool :=
  match s with [] => true | _ => false end.

(** ** [features/publisher/reply_generator.py] *)

Definition MAX_REPLY_CHARS : nat := 270.

Definition DEFAULT_OFF_TOPIC_TERMS : list str :=
  List.map py
    ["claude"; "anthropic"; "openai"; "chatgpt"; "opencv"; "repo";
     "pull request"; "merge request"; "commit"; "stack trace"; "stacktrace";
     "exception"; "bugfix"; "script"; "terminal"; "command line"]%string.

(** The part of the tweet context the guard and the scheduler read; the
    tone, media note and descriptor only feed the prompt text. *)
Record TweetContext := {
  ctx_text : str;
  ctx_keywords : list str;
  ctx_media_urls : list str;
  ctx_humor_flag : bool
}.

(** What varies in the prompt [_build_instruction] assembles.  The prompt is
    kept as the tuple of the values it is formatted from. *)
Record Instruction := {
  ins_handle : str;
  ins_text : str;
  ins_focus_keywords : list str;
  ins_style_summary : option str;
  ins_persona_handle : option str;
  ins_banned_terms : list str;
  ins_feedback : option str
}.

Record Metadata := {
  relevance_reason : str;
  referenced_topics : JValue;
  attempts : Z;
  flagged_terms : list str
}.

(** The outcome of one pass through the body of the retry loop. *)
Inductive Verdict : Type :=
| Accept (reply_text : str) (metadata : Metadata)
| Reject (last_error : str).

(** The language-model service: [generate_structured] answers an
    instruction with [(data, err)] or raises, and moves the world on. *)
Class LLMService (World : Type) :=
  generate_structured :
    Instruction -> World -> Raises (PyData * option str) * World.

Section ReplyGenerator.
Context `{UnicodeData}.

Definition _normalize_urls (urls : list str) : list str :=
  List.filter (fun url => negb (is_empty url)) urls.

Definition _prepare_tweet_context (tweet : ScrapedTweet) : TweetContext :=
  let text := Str.strip (or_empty (text_content tweet)) in
  {| ctx_text := text;
     ctx_keywords := extract_keywords_from_texts [text] 6 1;
     ctx_media_urls := _normalize_urls (embedded_media_urls tweet);
     ctx_humor_flag := is_probably_humorous text |}.

Definition should_apply_style_profile
    (tweet : ScrapedTweet) (style_keywords : list str) : bool :=
  match style_keywords with
  | [] => false
  | _ =>
      let context := _prepare_tweet_context tweet in
      if ctx_humor_flag context then false
      else
        let tweet_tokens := tokenize_for_overlap (ctx_text context) in
        let overlap : gset str :=
          tweet_tokens ∩ list_to_set (List.map lower style_keywords) in
        bool_decide (overlap ≠ ∅)
  end.

Definition _find_off_topic_terms
    (reply_text tweet_text : str) (allowed_terms : list str) : list str :=
  let reply_lower := lower reply_text in
  let allowed : gset str :=
    list_to_set (List.map lower allowed_terms)
    ∪ tokenize_for_overlap tweet_text in
  List.filter
    (fun term => Str.contains term reply_lower
                 && bool_decide (term ∉ allowed))
    DEFAULT_OFF_TOPIC_TERMS.

Definition _build_instruction
    (tweet : ScrapedTweet) (tweet_context : TweetContext)
    (style_summary persona_handle : option str)
    (banned_terms : list str) (feedback : option str) : Instruction :=
  {| ins_handle :=
       match user_handle tweet with
       | Some (c :: h) => c :: h
       | _ => py "user"
       end;
     ins_text := ctx_text tweet_context;
     ins_focus_keywords := ctx_keywords tweet_context;
     ins_style_summary := style_summary;
     ins_persona_handle := persona_handle;
     ins_banned_terms := banned_terms;
     ins_feedback := feedback |}.

Fixpoint merge_unique_from (seen : gset str) (sequence : list str)
    : list str :=
  match sequence with
  | [] => []
  | item :: rest =>
      let lowered := lower item in
      if decide (lowered ∈ seen) then merge_unique_from seen rest
      else item :: merge_unique_from ({[lowered]} ∪ seen) rest
  end.

Definition _merge_unique (sequence : list str) : list str :=
  merge_unique_from ∅ sequence.

(** [(data.get(key) or "").strip()]: a truthy value that is no string has
    no [strip]. *)
Definition get_stripped (d : gmap str JValue) (key : str) : Raises str :=
  match d !! key with
  | None => Returns []
  | Some v =>
      if truthy v then
        match v with
        | JStr s => Returns (Str.strip s)
        | _ => Raised (py "AttributeError")
        end
      else Returns []
  end.

(** [if reply_text: reply_text = reply_text[:MAX_REPLY_CHARS].rstrip()] *)
Definition clip_reply (reply_text : str) : str :=
  if is_empty reply_text then reply_text
  else Str.rstrip (take MAX_REPLY_CHARS reply_text).

(** The body of the retry loop after the call: the value of [last_error]
    it leaves, or the accepted reply. *)
Definition guard_response
    (tweet_context : TweetContext) (attempt : Z)
    (data : PyData) (err : option str) : Raises Verdict :=
  let no_response :=
    Returns (Reject
      match err with
      | Some (c :: e) => c :: e
      | _ => py "No structured response produced."
      end) in
  match data with
  | DataNone | DataOther _ => no_response
  | DataDict d =>
      if decide (d = ∅) then no_response
      else
        match get_stripped d (py "reply_text") with
        | Raised e => Raised e
        | Returns reply_text =>
            let reply_text := clip_reply reply_text in
            let is_relevant :=
              match d !! py "is_relevant" with
              | Some v => truthy v
              | None => false
              end in
            match get_stripped d (py "relevance_reason") with
            | Raised e => Raised e
            | Returns relevance_reason =>
                let referenced_topics :=
                  match d !! py "referenced_topics" with
                  | Some v => if truthy v then v else JList []
                  | None => JList []
                  end in
                let flagged_terms :=
                  if is_empty reply_text then []
                  else _find_off_topic_terms reply_text
                         (ctx_text tweet_context)
                         (ctx_keywords tweet_context) in
                let too_long :=
                  negb (is_empty reply_text)
                  && (MAX_REPLY_CHARS <? length reply_text)%nat in
                let missing_reply := is_empty reply_text in
                Returns
                  (if missing_reply then
                     Reject (py "No reply text returned.")
                   else if too_long then
                     Reject (py "Reply exceeded character limit.")
                   else if negb is_relevant then
                     Reject
                       (if is_empty relevance_reason
                        then py "Model flagged reply as not relevant."
                        else relevance_reason)
                   else
                     match flagged_terms with
                     | _ :: _ =>
                         Reject
                           (py "Reply referenced off-topic terms: "
                            ++ Str.join (py ", ") flagged_terms ++ py ".")
                     | [] =>
                         Accept reply_text
                           {| relevance_reason := relevance_reason;
                              referenced_topics := referenced_topics;
                              attempts := attempt + 1;
                              flagged_terms := [] |}
                     end)
            end
        end
  end.

Context {World : Type} `{!LLMService World}.

(** The retry loop [while attempt < max_attempts]; [remaining] is
    [max_attempts - attempt], and [calls] logs the instructions handed to
    [generate_structured] so far. *)
Fixpoint guarded_loop
    (tweet : ScrapedTweet) (tweet_context : TweetContext)
    (style_summary persona_handle : option str) (banned_terms : list str)
    (remaining : nat) (attempt : Z) (last_error : option str)
    (calls : list Instruction) (w : World)
    : Raises (option str * Metadata) * list Instruction * World :=
  match remaining with
  | O =>
      (Returns
         (None,
          {| relevance_reason :=
               match last_error with
               | Some (c :: e) => c :: e
               | _ => py "Unknown guard failure."
               end;
             referenced_topics := JList [];
             attempts := attempt;
             flagged_terms := [] |}),
       calls, w)
  | S remaining' =>
      let feedback := if 0 <? attempt then last_error else None in
      let instruction :=
        _build_instruction tweet tweet_context style_summary persona_handle
          banned_terms feedback in
      let '(response, w') := generate_structured instruction w in
      let calls' := calls ++ [instruction] in
      match response with
      | Raised e => (Raised e, calls', w')
      | Returns (data, err) =>
          match guard_response tweet_context attempt data err with
          | Raised e => (Raised e, calls', w')
          | Returns (Accept reply_text metadata) =>
              (Returns (Some reply_text, metadata), calls', w')
          | Returns (Reject reason) =>
              guarded_loop tweet tweet_context style_summary persona_handle
                banned_terms remaining' (attempt + 1) (Some reason)
                calls' w'
          end
      end
  end.

(** [generate_guarded_reply]; the third component of the result is the
    world after the call, the second the log of the [generate_structured]
    calls it made. *)
Definition generate_guarded_reply
    (tweet : ScrapedTweet)
    (style_summary persona_handle : option str)
    (banned_terms : option (list str)) (retry_limit : Z) (w : World)
    : Raises (option str * Metadata) * list Instruction * World :=
  let tweet_context := _prepare_tweet_context tweet in
  let banned_terms :=
    _merge_unique
      (DEFAULT_OFF_TOPIC_TERMS
       ++ match banned_terms with Some l => l | None => [] end) in
  let max_attempts := Z.max 1 retry_limit in
  guarded_loop tweet tweet_context style_summary persona_handle
    banned_terms (Z.to_nat max_attempts) 0 None [] w.
End ReplyGenerator.

(** The service double of [tests/test_reply_generator.py]: it hands out the
    queued responses in turn and answers [(None, "no-response")] once they
    run out. *)
#[local] Instance StubLLMService : LLMService (list (PyData * option str)) :=
  fun _ responses =>
    match responses with
    | [] => (Returns (DataNone, Some (py "no-response")), [])
    | r :: rest => (Returns r, rest)
    end.

Definition mk_tweet (id text handle : string) : ScrapedTweet :=
  {| tweet_id := Some (py id);
     text_content := Some (py text);
     user_handle := Some (py handle);
     embedded_media_urls := [];
     like_count := None; retweet_count := None; reply_count := None;
     view_count := None; created_at := None |}.

Definition mk_response (reply : string) (relevant : bool) (reason : string)
    (topics : list string) : PyData * option str :=
  (DataDict
     (list_to_map
        [(py "reply_text", JStr (py reply));
         (py "is_relevant", JBool relevant);
         (py "relevance_reason", JStr (py reason));
         (py "referenced_topics",
          JList (List.map (fun t => JStr (py t)) topics))]),
   None).

(** ** Notions the keyword claims are stated with *)

Section KeywordNotions.
Context `{UnicodeData}.

(** The tokens the tally counts: longer than two characters and no
    stopword. *)
Definition is_counted (token : str) : bool :=
  negb (length token <=? 2)%nat && negb (bool_decide (token ∈ _STOPWORDS)).

Definition counted_tokens (texts : list str) : list str :=
  List.filter is_counted (List.concat (List.map _tokenize texts)).

(** The frequency of a token: how often it stands among the counted
    tokens. *)
Definition frequency (texts : list str) (t : str) : Z :=
  Z.of_nat
    (length (List.filter (fun token => bool_decide (token = t))
               (counted_tokens texts))).

(** The tokens that compete for a place: those that reach [min_frequency],
    or every counted token when none does. *)
Definition candidate (texts : list str) (min_frequency : Z) (t : str) : Prop :=
  In t (counted_tokens texts)
  /\ (min_frequency <= frequency texts t
      \/ forall u, In u (counted_tokens texts) ->
                   frequency texts u < min_frequency).
End KeywordNotions.

(** The order the code ranks by: higher frequency first; among equal
    frequencies the shorter token first; among equal lengths the
    lexicographically greater token first. *)
Definition ranks_before (freq : str -> Z) (a b : str) : Prop :=
  freq b < freq a
  \/ (freq a = freq b
      /\ ((length a < length b)%nat
          \/ (length a = length b /\ Str.ltb b a = true))).

(** The order as the specification words it: higher frequency first, then
    the longer token, then lexicographic order. *)
Definition spec_ranks_before (freq : str -> Z) (a b : str) : Prop :=
  freq b < freq a
  \/ (freq a = freq b
      /\ ((length b < length a)%nat
          \/ (length a = length b /\ Str.ltb a b = true))).

Definition pull_request_context : TweetContext :=
  @_prepare_tweet_context ascii_runtime
    (mk_tweet "7" "Please review my pull request" "dev").

(** ** [features/publisher/style_utils.py] *)

(** [text.split()]: the maximal runs of characters that are no white
    space; [cur] is the run being extended. *)
Fixpoint split_whitespace (cur s : str) : list str :=
  match s with
  | [] => emit cur
  | c :: rest =>
      if Str.is_space c then emit cur ++ split_whitespace [] rest
      else split_whitespace (cur ++ [c]) rest
  end.

(** [text.split(sep)[0]]: what stands before the first [sep]. *)
Fixpoint before_first (sep s : str) : str :=
  match s with
  | [] => []
  | c :: rest =>
      if Str.startswith sep s then [] else c :: before_first sep rest
  end.

(** [text.split(sep)]: [None] when [sep] does not occur (the split has one
    part), else the last part.  [sep] is not empty. *)
Fixpoint after_last (sep s : str) : option str :=
  match s with
  | [] => None
  | c :: rest =>
      match after_last sep rest with
      | Some tail => Some tail
      | None =>
          if Str.startswith sep s then Some (drop (length sep) s) else None
      end
  end.

(** [f"{idx}"] *)
Definition decimal (n : nat) : str :=
  py (NilEmpty.string_of_uint (Nat.to_uint n)).

(** The rendering [created_at.astimezone(utc).strftime("%Y-%m-%d %H:%M UTC")]
    of a time stamp belongs to the calendar of the Python runtime; the
    model takes it as a parameter.  Time stamps are microseconds since the
    epoch. *)
Class Calendar := timestamp_label : Z -> str.

(** A calendar for running the model on posts whose time stamp does not
    matter. *)
Definition blank_calendar : Calendar := fun _ => py "1970-01-01 00:00 UTC".

(** One entry of the style memory (the engagement counters default to 0). *)
Record MemoryEntry := {
  entry_tweet_id : option str;
  entry_created_at : option Z;
  entry_likes : Z;
  entry_retweets : Z;
  entry_replies : Z;
  entry_views : Z;
  entry_text : str;
  entry_media_urls : list str
}.

(** The style memory, without the fields that need the wall clock
    ([generated_at]) or the tone classifier and a float ([style_summary]). *)
Record StyleMemory := {
  primary_handle : option str;
  entries : list MemoryEntry;
  media_entry_count : Z;
  keyword_signature : list str
}.

(** [datetime] values compare by time; [None] stands for the
    [epoch_guard] ([datetime.min]), which is below every time stamp. *)
Definition created_ltb (a b : option Z) : bool :=
  match a, b with
  | _, None => false
  | None, Some _ => true
  | Some x, Some y => x <? y
  end.

Section StyleUtils.
Context `{UnicodeData} `{Calendar}.

Definition _normalize_handle (value : option str) : option str :=
  match value with
  | None | Some [] => None
  | Some value =>
      let text := lstrip_char 64%N (Str.strip value) in
      if is_empty text then None
      else
        let text := strip_char 47%N (before_first (py "?") text) in
        let text :=
          if Str.startswith (py "https://") (lower text) then
            match after_last (py "x.com/") text with
            | Some last => last
            | None => text
            end
          else text in
        match lower text with
        | [] => None
        | lowered => Some lowered
        end
  end.

Definition filter_to_self_posts
    (tweets : list ScrapedTweet) (candidate_handles : list str)
    (minimum : nat) : list ScrapedTweet :=
  let allowed : gset str :=
    list_to_set
      (omap (fun h => _normalize_handle (Some h)) candidate_handles) in
  if decide (allowed = ∅) then tweets
  else
    let filtered :=
      List.filter
        (fun tweet =>
           match _normalize_handle (user_handle tweet) with
           | Some h => bool_decide (h ∈ allowed)
           | None => false
           end)
        tweets in
    if (minimum <=? length filtered)%nat then filtered else tweets.

(** The de-duplication loop of [build_style_snapshot]. *)
Fixpoint dedupe_by_id (seen_ids : gset str) (tweets : list ScrapedTweet)
    : list ScrapedTweet :=
  match tweets with
  | [] => []
  | tweet :: rest =>
      match tweet_id tweet with
      | Some (c :: id) =>
          if decide ((c :: id) ∈ seen_ids) then dedupe_by_id seen_ids rest
          else tweet :: dedupe_by_id ({[c :: id]} ∪ seen_ids) rest
      | _ => dedupe_by_id seen_ids rest
      end
  end.

Definition snippet_of (tweet : ScrapedTweet) : str :=
  take 220 (Str.join (py " ")
              (split_whitespace [] (or_empty (text_content tweet)))).

(** One line of the context block: [f"{idx}. {timestamp_label} | {snippet}"]. *)
Definition context_line (idx : nat) (tweet : ScrapedTweet) : str :=
  let timestamp_label :=
    match created_at tweet with
    | Some t => timestamp_label t
    | None => py "Unknown time"
    end in
  decimal idx ++ py ". " ++ timestamp_label ++ py " | " ++ snippet_of tweet.

Definition memory_entry (tweet : ScrapedTweet) : MemoryEntry :=
  {| entry_tweet_id := tweet_id tweet;
     entry_created_at := created_at tweet;
     entry_likes := default 0 (like_count tweet);
     entry_retweets := default 0 (retweet_count tweet);
     entry_replies := default 0 (reply_count tweet);
     entry_views := default 0 (view_count tweet);
     entry_text := snippet_of tweet;
     entry_media_urls := _normalize_urls (embedded_media_urls tweet) |}.

(** [enumerate(selected, start=idx)] mapped to the context lines. *)
Fixpoint context_lines (idx : nat) (selected : list ScrapedTweet)
    : list str :=
  match selected with
  | [] => []
  | tweet :: rest => context_line idx tweet :: context_lines (S idx) rest
  end.

(** The context block of the selected posts: the header, the lines, and the
    cut at 800 characters with the ellipsis U+2026. *)
Definition style_context_block (selected : list ScrapedTweet) : str :=
  let style_context_text :=
    py "Recent personal posting snapshot:" ++ [10%N]
    ++ Str.join [10%N] (context_lines 1 selected) in
  if (800 <? length style_context_text)%nat then
    Str.rstrip (take 800 style_context_text) ++ [8230%N]
  else style_context_text.

Definition build_style_snapshot
    (tweets : list ScrapedTweet) (candidate_handles : list str)
    (max_items : Z) : str * option StyleMemory :=
  match tweets with
  | [] => ([], None)
  | _ =>
      let relevant_tweets := filter_to_self_posts tweets candidate_handles 3 in
      match dedupe_by_id ∅ relevant_tweets with
      | [] => ([], None)
      | deduped =>
          let deduped := sorted_reverse created_ltb created_at deduped in
          let selected := slice_to max_items deduped in
          let memory_entries := List.map memory_entry selected in
          let media_entries :=
            length (List.filter
                      (fun e => negb (bool_decide (entry_media_urls e = [])))
                      memory_entries) in
          let texts :=
            List.filter (fun t => negb (is_empty t))
              (List.map entry_text memory_entries) in
          (style_context_block selected,
           Some
             {| primary_handle :=
                  head (List.filter (fun h => negb (is_empty h))
                          candidate_handles);
                entries := memory_entries;
                media_entry_count := Z.of_nat media_entries;
                keyword_signature := extract_keywords_from_texts texts 8 1 |})
      end
  end.
End StyleUtils.

(** Four posts of 220 characters each, without a time stamp. *)
Definition long_post (id : string) : ScrapedTweet :=
  {| tweet_id := Some (py id);
     text_content := Some (List.repeat 97%N 220);
     user_handle := Some (py "me");
     embedded_media_urls := [];
     like_count := None; retweet_count := None; reply_count := None;
     view_count := None; created_at := None |}.

Definition four_long_posts : list ScrapedTweet :=
  [long_post "1"; long_post "2"; long_post "3"; long_post "4"].

(** ** [main.py]: the action decision

    Python floats are IEEE 754 binary64 numbers, as are Rocq's primitive
    floats; [a >= b] is [PrimFloat.leb b a]. *)

(** The fields of [ActionConfig] ([data_models.py]) the code reads. *)
Record ActionConfig := {
  enable_engagement_decision : option bool;
  use_sentiment_in_decision : option bool;
  decision_quote_min : option float;
  decision_retweet_min : option float;
  decision_repost_min : option float;
  competitor_post_interaction_type : str;
  home_timeline_replies_per_hour : option Z;
  home_timeline_max_hours : option Z;
  min_delay_between_actions_seconds : Z;
  max_delay_between_actions_seconds : Z
}.

Record AccountConfig := {
  account_id : str;
  self_handles : list str;
  target_keywords : list str;
  action_config : option ActionConfig
}.

(** [settings['twitter_automation']['engagement_decision']]: a missing key
    is [None]. *)
Record EngagementDecisionCfg := {
  cfg_enabled : option bool;
  cfg_use_sentiment : option bool;
  cfg_quote_min : option float;
  cfg_retweet_min : option float;
  cfg_repost_min : option float
}.

(** A structured analysis that carries a recommendation:
    [float(structured.get('relevance', 0.0) or 0.0)],
    [str(structured.get('sentiment', 'neutral') or 'neutral')] and
    [str(structured.get('recommended_action'))]. *)
Record StructuredAnalysis := {
  sa_relevance : float;
  sa_sentiment : str;
  sa_recommended_action : str
}.

(** The analyzer ([features/analyzer], not among the sources).
    [analyze_tweet_structured] answers [None] when it has no mapping with a
    ['recommended_action']. *)
Class TweetAnalyzer (World : Type) := {
  analyze_tweet_structured :
    ScrapedTweet -> list str -> World ->
    Raises (option StructuredAnalysis) * World;
  score_relevance :
    ScrapedTweet -> list str -> World -> Raises float * World;
  classify_sentiment : ScrapedTweet -> World -> Raises str * World
}.

Definition quote_tweet : str := py "quote_tweet".
Definition retweet : str := py "retweet".
Definition repost : str := py "repost".
Definition like : str := py "like".

(** [sentiment in ('positive', 'neutral')] *)
Definition favorable (sentiment : str) : bool :=
  bool_decide (sentiment = py "positive")
  || bool_decide (sentiment = py "neutral").

(** The "simple heuristic mapping" that ends [_decide_competitor_action]. *)
Definition threshold_action
    (rel quote_min retweet_min repost_min : float) (sentiment : str) : str :=
  if PrimFloat.leb quote_min rel && favorable sentiment then quote_tweet
  else if PrimFloat.leb retweet_min rel && favorable sentiment then retweet
  else if PrimFloat.leb repost_min rel then repost
  else like.

Section DecisionEngine.
Context `{UnicodeData} {World : Type} `{!TweetAnalyzer World}.

Definition decision_enabled
    (cfg : EngagementDecisionCfg) (account : AccountConfig) : bool :=
  match action_config account with
  | Some {| enable_engagement_decision := Some b |} => b
  | _ => default false (cfg_enabled cfg)
  end.

Definition use_sentiment
    (cfg : EngagementDecisionCfg) (account : AccountConfig) : bool :=
  match action_config account with
  | Some {| use_sentiment_in_decision := Some b |} => b
  | _ => default true (cfg_use_sentiment cfg)
  end.

(** A threshold: the account's override, else the global setting, else the
    default. *)
Definition threshold
    (account : AccountConfig) (override : ActionConfig -> option float)
    (global : option float) (fallback : float) : float :=
  match action_config account with
  | Some ac =>
      match override ac with
      | Some v => v
      | None => default fallback global
      end
  | None => default fallback global
  end.

(** The sentiment the fallback uses: ['neutral'] unless sentiment is in use
    and the classifier answers. *)
Definition fallback_sentiment
    (use : bool) (tweet : ScrapedTweet) (w : World) : str * World :=
  if use then
    match classify_sentiment tweet w with
    | (Returns sentiment, w') => (sentiment, w')
    | (Raised _, w') => (py "neutral", w')
    end
  else (py "neutral", w).

Definition _decide_competitor_action
    (engagement_decision_cfg : EngagementDecisionCfg)
    (tweet : ScrapedTweet) (account : AccountConfig) (w : World)
    : Raises str * World :=
  let acc_ac := action_config account in
  let quote_min :=
    threshold account decision_quote_min
      (cfg_quote_min engagement_decision_cfg) 0.75%float in
  let retweet_min :=
    threshold account decision_retweet_min
      (cfg_retweet_min engagement_decision_cfg) 0.5%float in
  let repost_min :=
    threshold account decision_repost_min
      (cfg_repost_min engagement_decision_cfg) 0.35%float in
  if negb (decision_enabled engagement_decision_cfg account) then
    (Returns
       match acc_ac with
       | Some ac => competitor_post_interaction_type ac
       | None => repost
       end,
     w)
  else
    match analyze_tweet_structured tweet (target_keywords account) w with
    | (Raised e, w) => (Raised e, w)
    | (Returns structured, w) =>
        let guarded :=
          match structured with
          | Some sa =>
              let rec := lower (sa_recommended_action sa) in
              if PrimFloat.ltb (sa_relevance sa) repost_min then Some like
              else if bool_decide (rec ∈ [quote_tweet; retweet; repost; like])
              then Some rec
              else None
          | None => None
          end in
        match guarded with
        | Some action => (Returns action, w)
        | None =>
            match score_relevance tweet (target_keywords account) w with
            | (Raised e, w) => (Raised e, w)
            | (Returns rel, w) =>
                let '(sentiment, w) :=
                  fallback_sentiment
                    (use_sentiment engagement_decision_cfg account) tweet w in
                (Returns
                   (threshold_action rel quote_min retweet_min repost_min
                      sentiment),
                 w)
            end
        end
    end.
End DecisionEngine.

(** An analyzer without a structured answer that scores every post 0.6 and
    classifies it as negative. *)
#[local] Instance negative_analyzer : TweetAnalyzer unit := {|
  analyze_tweet_structured := fun _ _ w => (Returns None, w);
  score_relevance := fun _ _ w => (Returns 0.6%float, w);
  classify_sentiment := fun _ w => (Returns (py "negative"), w)
|}.

Definition deciding_account : AccountConfig :=
  {| account_id := py "acct";
     self_handles := [];
     target_keywords := [py "robotics"];
     action_config := None |}.

Definition deciding_cfg : EngagementDecisionCfg :=
  {| cfg_enabled := Some true;
     cfg_use_sentiment := None;
     cfg_quote_min := None;
     cfg_retweet_min := None;
     cfg_repost_min := None |}.

(** ** [core/llm_service/generator.py] *)

(** [TextGenerator]: which clients were instantiated, and the settings.
    [llm_settings] is the one dict that holds the entries of the services
    under their names, beside [default_max_tokens] and the other settings;
    its values are whatever the settings file holds. *)
Record TextGenerator := {
  gemini_client : bool;
  openai_client : bool;
  azure_openai_client : bool;
  llm_settings : gmap str JValue;
  service_preference_order : list str
}.

(** What one backend is called with: the model or deployment, the
    remaining parameters, and the material the messages are built from. *)
Record BackendCall := {
  call_model : option JValue;
  call_final_params : gmap str JValue;
  call_system_prompt : option str;
  call_prompt : str;
  call_messages : option (list (str * str));
  call_inline_media : JValue
}.

(** The backends.  A Gemini client answers with the text of its message;
    an OpenAI or Azure client answers with the [content] of each of its
    [choices] ([None] for a choice without content). *)
Class Backends (World : Type) := {
  gemini_ainvoke : BackendCall -> World -> Raises str * World;
  azure_create : BackendCall -> World -> Raises (list (option str)) * World;
  openai_create : BackendCall -> World -> Raises (list (option str)) * World
}.

(** [response.choices[0].message.content.strip()] *)
Definition first_choice_stripped (choices : list (option str)) : Raises str :=
  match choices with
  | [] => Raised (py "IndexError")
  | None :: _ => Raised (py "AttributeError")
  | Some content :: _ => Returns (Str.strip content)
  end.

(** [l.pop(l.index(x))] followed by keeping the rest: [l] without the first
    [x]. *)
Fixpoint remove_first (x : str) (l : list str) : list str :=
  match l with
  | [] => []
  | y :: r => if decide (y = x) then r else y :: remove_first x r
  end.

(** The order the services are tried in. *)
Definition services_to_try
    (self : TextGenerator) (service_preference : option str) : list str :=
  let services := service_preference_order self in
  match service_preference with
  | Some (c :: p) =>
      if bool_decide ((c :: p) ∈ services)
      then (c :: p) :: remove_first (c :: p) services
      else (c :: p) :: services
  | _ => services
  end.

(** [self.llm_settings.get(service_name, {})] *)
Definition service_config_of (self : TextGenerator) (service_name : str)
    : JValue :=
  default (JDict ∅) (llm_settings self !! service_name).

(** [service_config.get(key)], once [service_config] is known to be a
    dict. *)
Definition config_get (self : TextGenerator) (service_name key : str)
    : option JValue :=
  match service_config_of self service_name with
  | JDict service_config => service_config !! key
  | _ => None
  end.

(** [final_params] and [inline_media_payload] as the loop prepares them for
    every service, before its [try].  A settings entry that is no dict has
    no [get] ([AttributeError]); [default_params] that are no dict cannot be
    unpacked with [**] ([TypeError]). *)
Definition prepare_params
    (self : TextGenerator) (service_name : str)
    (call_params : gmap str JValue) : Raises (gmap str JValue * JValue) :=
  match service_config_of self service_name with
  | JDict service_config =>
      match default (JDict ∅) (service_config !! py "default_params") with
      | JDict default_params =>
          let final_params := call_params ∪ default_params in
          let final_params :=
            match final_params !! py "model_name",
                  final_params !! py "model" with
            | Some name, None =>
                <[py "model" := name]>
                  (delete (py "model_name") final_params)
            | _, _ => final_params
            end in
          let final_params :=
            match final_params !! py "max_tokens" with
            | None =>
                <[py "max_tokens" :=
                    default (JNum 250)
                      (llm_settings self !! py "default_max_tokens")]>
                  final_params
            | Some _ => final_params
            end in
          let inline_media_payload :=
            match final_params !! py "inline_media" with
            | Some v => if truthy v then v else JList []
            | None => JList []
            end in
          Returns (delete (py "inline_media") final_params,
                   inline_media_payload)
      | _ => Raised (py "TypeError")
      end
  | _ => Raised (py "AttributeError")
  end.

(** [final_params.pop('model', fallback)] *)
Definition pop_model (final_params : gmap str JValue)
    (fallback : option JValue) : option JValue * gmap str JValue :=
  match final_params !! py "model" with
  | Some v => (Some v, delete (py "model") final_params)
  | None => (fallback, final_params)
  end.

(** [not deployment_name] *)
Definition missing (v : option JValue) : bool :=
  match v with Some v => negb (truthy v) | None => true end.

(** The deployment an Azure call would use. *)
Definition azure_deployment
    (self : TextGenerator) (call_params : gmap str JValue) : option JValue :=
  match prepare_params self (py "azure") call_params with
  | Returns (final_params, _) =>
      fst (pop_model final_params
             (config_get self (py "azure") (py "deployment_name")))
  | Raised _ => None
  end.

(** An invocation that produced no text. *)
Definition failed (entry : str * Raises str) : Prop :=
  exists e, snd entry = Raised e.

(** A service the loop can invoke: one of the three known names, its client
    instantiated, and for Azure a deployment named. *)
Definition usable
    (self : TextGenerator) (call_params : gmap str JValue)
    (service_name : str) : bool :=
  if decide (service_name = py "gemini") then gemini_client self
  else if decide (service_name = py "azure") then
    azure_openai_client self && negb (missing (azure_deployment self call_params))
  else if decide (service_name = py "openai") then openai_client self
  else false.

Section Generator.
Context {World : Type} `{!Backends World}.

(** The body of the [try] for one service, with the [final_params] and
    the [inline_media_payload] prepared before it.  [Returns (Some text)] is
    a [return] from inside it, [Returns None] means the body fell through
    (or ran [continue]), [Raised e] that it raised.  The second component is
    the invocation made, if any, with what came of it. *)
Definition try_service
    (self : TextGenerator) (service_name : str)
    (prepared : gmap str JValue * JValue)
    (prompt : str) (system_prompt : option str)
    (messages : option (list (str * str))) (w : World)
    : Raises (option str) * list (str * Raises str) * World :=
  let '(final_params, inline_media_payload) := prepared in
  let call model params system :=
    {| call_model := model; call_final_params := params;
       call_system_prompt := system; call_prompt := prompt;
       call_messages := messages;
       call_inline_media := inline_media_payload |} in
  if bool_decide (service_name = py "gemini") && gemini_client self then
    (* [model_to_use] is popped and only logged *)
    let '(model_to_use, final_params) :=
      pop_model final_params
        (Some (default (JStr (py "gemini-2.5-pro"))
                 (config_get self service_name (py "model")))) in
    let final_params :=
      match final_params !! py "max_tokens",
            final_params !! py "max_output_tokens" with
      | Some v, None =>
          <[py "max_output_tokens" := v]>
            (delete (py "max_tokens") final_params)
      | _, _ => final_params
      end in
    let system :=
      match system_prompt with
      | Some (c :: s) => Some (Str.strip (c :: s))
      | _ => None
      end in
    let '(response, w) :=
      gemini_ainvoke
        ({| call_model := None; call_final_params := final_params;
            call_system_prompt := system; call_prompt := Str.strip prompt;
            call_messages := None;
            call_inline_media := inline_media_payload |})
        w in
    match response with
    | Returns content =>
        (Returns (Some content), [(service_name, Returns content)], w)
    | Raised e => (Raised e, [(service_name, Raised e)], w)
    end
  else if bool_decide (service_name = py "azure")
          && azure_openai_client self then
    let '(deployment, final_params) :=
      pop_model final_params
        (config_get self service_name (py "deployment_name")) in
    if missing deployment then (Returns None, [], w)
    else
      let system :=
        match messages with Some _ => None | None => system_prompt end in
      let '(response, w) :=
        azure_create (call deployment final_params system) w in
      match response with
      | Returns choices =>
          match first_choice_stripped choices with
          | Returns text =>
              (Returns (Some text), [(service_name, Returns text)], w)
          | Raised e => (Raised e, [(service_name, Raised e)], w)
          end
      | Raised e => (Raised e, [(service_name, Raised e)], w)
      end
  else if bool_decide (service_name = py "openai")
          && openai_client self then
    let '(model_to_use, final_params) :=
      pop_model final_params
        (Some (default (JStr (py "gpt-3.5-turbo"))
                 (config_get self service_name (py "model")))) in
    let system :=
      match messages with Some _ => None | None => system_prompt end in
    let '(response, w) :=
      openai_create (call model_to_use final_params system) w in
    match response with
    | Returns choices =>
        match first_choice_stripped choices with
        | Returns text =>
            (Returns (Some text), [(service_name, Returns text)], w)
        | Raised e => (Raised e, [(service_name, Raised e)], w)
        end
    | Raised e => (Raised e, [(service_name, Raised e)], w)
    end
  else (Returns None, [], w).

(** The loop over [services_to_try].  What the preparation of the
    parameters raises is raised to the caller; what the body of the [try]
    raises is caught by its [except Exception] clause, and the loop goes on.
    The log lists, in order, the services invoked and what came of each. *)
Fixpoint try_services
    (self : TextGenerator) (services : list str)
    (prompt : str) (system_prompt : option str)
    (messages : option (list (str * str)))
    (call_params : gmap str JValue) (w : World)
    : Raises (option str) * list (str * Raises str) * World :=
  match services with
  | [] => (Returns None, [], w)
  | service_name :: rest =>
      match prepare_params self service_name call_params with
      | Raised e => (Raised e, [], w)
      | Returns prepared =>
          let '(outcome, invoked, w) :=
            try_service self service_name prepared prompt system_prompt
              messages w in
          match outcome with
          | Returns (Some text) => (Returns (Some text), invoked, w)
          | Returns None | Raised _ =>
              let '(result, log, w) :=
                try_services self rest prompt system_prompt messages
                  call_params w in
              (result, invoked ++ log, w)
          end
      end
  end.

Definition generate_text
    (self : TextGenerator) (prompt : str)
    (service_preference system_prompt : option str)
    (messages : option (list (str * str)))
    (call_params : gmap str JValue) (w : World)
    : Raises (option str) * list (str * Raises str) * World :=
  try_services self (services_to_try self service_preference)
    prompt system_prompt messages call_params w.
End Generator.

(** Three backends that fail in three ways: Gemini raises, Azure answers
    without choices, OpenAI answers a choice without content. *)
#[local] Instance failing_backends : Backends unit := {|
  gemini_ainvoke := fun _ w => (Raised (py "TimeoutError"), w);
  azure_create := fun _ w => (Returns [], w);
  openai_create := fun _ w => (Returns [None], w)
|}.

(** Gemini raises, the two others answer. *)
#[local] Instance gemini_down : Backends unit := {|
  gemini_ainvoke := fun _ w => (Raised (py "TimeoutError"), w);
  azure_create := fun _ w => (Returns [Some (py " from azure ")], w);
  openai_create := fun _ w => (Returns [Some (py "from openai")], w)
|}.

Definition all_clients : TextGenerator :=
  {| gemini_client := true; openai_client := true;
     azure_openai_client := true;
     llm_settings :=
       {[ py "azure" :=
            JDict {[ py "deployment_name" := JStr (py "gpt-4o") ]} ]};
     service_preference_order := [py "azure"; py "openai"; py "gemini"] |}.

(** ** [main.py]: the rate-limited home-timeline session

    Times are seconds since the epoch and durations are seconds, both as
    exact rationals: the rounding of Python's floats is not modelled.  The
    one rounding of a duration that is modelled is that of
    [timedelta(seconds=...)], which keeps whole microseconds. *)

Definition qle (a b : Q) : bool := Qle_bool a b.
Definition qlt (a b : Q) : bool := negb (Qle_bool b a).

(** What the session does to the world around it.  [clock] is the wall
    clock; [tick] is the time that passes up to a reading of the clock;
    [sleep d] is [asyncio.sleep(d)]; [uniform a b] is [random.uniform(a, b)];
    [build_style_context] stands for [_build_style_context] and the prompt
    material derived from it, whose failures the session absorbs. *)
Record StyleContext := {
  sc_style_summary : option str;
  sc_style_keywords : list str;
  sc_primary_handle : option str
}.

Class Platform (World : Type) := {
  clock : World -> Q;
  tick : World -> World;
  sleep : Q -> World -> World;
  uniform : Q -> Q -> World -> Q * World;
  build_style_context : World -> StyleContext * World;
  scrape_home_timeline : Z -> World -> Raises (list ScrapedTweet) * World;
  reply_to_tweet : ScrapedTweet -> str -> World -> Raises bool * World
}.

(** What the pacing argument needs of the platform: the clock does not run
    backwards while it is read or while a reply is posted, a sleep lasts at
    least as long as asked, and [uniform a b] is not below [a]. *)
Record PlatformLaws {World : Type} `{!Platform World} : Prop := {
  tick_clock : forall w, (clock w <= clock (tick w))%Q;
  sleep_clock : forall d w, (clock w + d <= clock (sleep d w))%Q;
  reply_clock :
    forall tweet text w, (clock w <= clock (snd (reply_to_tweet tweet text w)))%Q;
  uniform_lower :
    forall a b w, (a <= b)%Q -> (a <= fst (uniform a b w))%Q
}.
Arguments PlatformLaws World {_}.

(** One call of [publisher.reply_to_tweet], as the session saw it. *)
Inductive Event : Type :=
| Published (key : str) (success : bool) (attempt_completed_at : Q)
| PublishRaised (key : str).

Definition event_key (e : Event) : str :=
  match e with Published key _ _ | PublishRaised key => key end.

(** Modelled from the spec: the Dedup Store behind [FileHandler]
    ([load_processed_action_keys], [save_processed_action_key]), which is
    not among the sources.  The spec (section 3 and section 6) describes an
    append-only set of opaque keys with [load() -> set<string>] and
    [save(key, timestamp)]. *)
Definition save_processed_action_key
    (key : str) (timestamp : Q) (file : list (str * Q)) : list (str * Q) :=
  file ++ [(key, timestamp)].

(** Modelled from the spec: see [save_processed_action_key]. *)
Definition load_processed_action_keys (file : list (str * Q)) : gset str :=
  list_to_set (List.map fst file).

(** The orchestrator object and the file behind its [file_handler]. *)
Record Orchestrator := {
  processed_action_keys : gset str;
  dedup_file : list (str * Q)
}.

(** [TwitterOrchestrator.__init__], as far as the dedup store goes. *)
Definition orchestrator_init (file : list (str * Q)) : Orchestrator :=
  {| processed_action_keys := load_processed_action_keys file;
     dedup_file := file |}.

(** The local variables of [_run_home_timeline_replies] that change. *)
Record Pace := {
  replies_sent_total : Z;
  replies_this_hour : Z;
  current_hour_start : Q;
  next_reply_earliest : Q
}.

(** The state of a session; [events] logs the publisher calls, the latest
    first. *)
Record Session := {
  pace : Pace;
  orchestrator : Orchestrator;
  events : list Event
}.

(** The values [_run_home_timeline_replies] fixes before its loop. *)
Record Plan := {
  replies_per_hour : Z;
  max_hours : Z;
  total_cap : Z;
  session_end : Q;
  spacing_min_seconds : Q;
  spacing_max_seconds : Q;
  style : StyleContext;
  style_owner_handle : str
}.

(** [x or fallback] for an optional integer *)
Definition or_int (x : option Z) (fallback : Z) : Z :=
  match x with
  | Some v => if v =? 0 then fallback else v
  | None => fallback
  end.

Definition spacing_min (replies_per_hour min_delay : Z) : Q :=
  let per_reply_target_seconds := (3600 / inject_Z replies_per_hour)%Q in
  Qmax (inject_Z min_delay) per_reply_target_seconds.

Definition spacing_max (spacing_min_seconds : Q) (max_delay : Z) : Q :=
  let spacing_max_candidate := inject_Z max_delay in
  let spacing_max_seconds :=
    if qlt spacing_max_candidate spacing_min_seconds
    then (spacing_min_seconds + Qmax 30 (spacing_min_seconds * 0.15))%Q
    else spacing_max_candidate in
  if qlt (spacing_max_seconds - spacing_min_seconds)%Q 1
  then (spacing_min_seconds + Qmax 5 (spacing_min_seconds * 0.05))%Q
  else spacing_max_seconds.

(** [round(x)]: the nearest integer, a tie going to the even one. *)
Definition round_half_even (x : Q) : Z :=
  let below := Qfloor x in
  let rest := (x - inject_Z below)%Q in
  if qlt rest (1 # 2) then below
  else if qlt (1 # 2) rest then below + 1
  else if Z.even below then below
  else below + 1.

(** [timedelta(seconds=d)]: a [timedelta] is a whole number of
    microseconds, the one nearest to [d]. *)
Definition timedelta_seconds (d : Q) : Q :=
  (inject_Z (round_half_even (d * 1000000)) / 1000000)%Q.

(** The [float] an [int] is converted to in [int * float]: the nearest
    double, a tie going to the even one; an [int] beyond the doubles raises
    [OverflowError]. *)
Definition float_of_int (n : Z) : Raises float :=
  let f := SF2Prim (binary_normalize prec emax n 0 false) in
  if PrimFloat.is_infinity f then Raised (py "OverflowError")
  else Returns f.

(** [count or 0] *)
Definition or_zero (count : option Z) : Z := default 0 count.

(** The popularity score. *)
Definition _score_home_timeline_tweet (tweet : ScrapedTweet)
    : Raises float :=
  match float_of_int (or_zero (like_count tweet)) with
  | Raised e => Raised e
  | Returns likes =>
      match float_of_int (or_zero (retweet_count tweet)) with
      | Raised e => Raised e
      | Returns retweets =>
          match float_of_int (or_zero (reply_count tweet)) with
          | Raised e => Raised e
          | Returns replies =>
              match float_of_int (or_zero (view_count tweet)) with
              | Raised e => Raised e
              | Returns views =>
                  Returns (likes * 2.5 + retweets * 3.0 + replies * 1.2
                           + views * 0.001)%float
              end
          end
      end
  end.

(** The keys [sorted] computes before it sorts: one for each post, in
    their order; the first key that cannot be computed raises. *)
Fixpoint keyed_by_score (tweets : list ScrapedTweet)
    : Raises (list (float * ScrapedTweet)) :=
  match tweets with
  | [] => Returns []
  | tweet :: rest =>
      match _score_home_timeline_tweet tweet with
      | Raised e => Raised e
      | Returns key =>
          match keyed_by_score rest with
          | Raised e => Raised e
          | Returns keyed => Returns ((key, tweet) :: keyed)
          end
      end
  end.

Section Scheduler.
Context `{UnicodeData} {World : Type} `{!Platform World, !LLMService World}.

(** [datetime.now(timezone.utc)] *)
Definition now (w : World) : Q * World :=
  let w := tick w in (clock w, w).

(** [value.strip().lstrip('@').lower()] *)
Definition bare_handle (value : str) : str :=
  lower (lstrip_char 64%N (Str.strip value)).

Definition _is_own_tweet
    (user_handle : option str) (account : AccountConfig)
    (logged_in_handle : option str) : bool :=
  let handle := bare_handle (or_empty user_handle) in
  let candidates : gset str :=
    list_to_set
      (List.map bare_handle
         (List.filter (fun h => negb (is_empty (Str.strip h)))
            (self_handles account)))
    ∪ match logged_in_handle with
      | Some (c :: h) => {[ bare_handle (c :: h) ]}
      | _ => ∅
      end
    ∪ (if is_empty (Str.strip (account_id account)) then ∅
       else {[ bare_handle (account_id account) ]}) in
  bool_decide (handle ∈ candidates) && negb (is_empty handle).

Definition action_key (account : AccountConfig) (id : str) : str :=
  py "home_reply_" ++ account_id account ++ py "_" ++ id.

Definition set_pace (s : Session) (p : Pace) : Session :=
  {| pace := p; orchestrator := orchestrator s; events := events s |}.

Definition log_event (s : Session) (e : Event) : Session :=
  {| pace := pace s; orchestrator := orchestrator s;
     events := e :: events s |}.

(** The two statements that record a key: the file first, then the set. *)
Definition record_key (s : Session) (key : str) (timestamp : Q) : Session :=
  {| pace := pace s;
     orchestrator :=
       {| processed_action_keys :=
            {[ key ]} ∪ processed_action_keys (orchestrator s);
          dedup_file :=
            save_processed_action_key key timestamp
              (dedup_file (orchestrator s)) |};
     events := events s |}.

(** The [for candidate in scored_candidates] loop.  The result is
    [made_reply_this_batch], or the exception of the publisher. *)
Fixpoint scan_batch
    (plan : Plan) (account : AccountConfig) (logged_in_handle : option str)
    (candidates : list ScrapedTweet) (s : Session) (w : World)
    : Raises bool * Session * World :=
  match candidates with
  | [] => (Returns false, s, w)
  | candidate :: rest =>
      let continue := scan_batch plan account logged_in_handle rest in
      if (replies_per_hour plan <=? replies_this_hour (pace s))
         || (total_cap plan <=? replies_sent_total (pace s))
      then (Returns false, s, w)
      else
        match tweet_id candidate with
        | None | Some [] => continue s w
        | Some id =>
            if negb (is_empty (or_empty (user_handle candidate)))
               && _is_own_tweet (user_handle candidate) account
                    logged_in_handle
            then continue s w
            else
              let key := action_key account id in
              if decide (key ∈ processed_action_keys (orchestrator s))
              then continue s w
              else
                let use_style_profile :=
                  should_apply_style_profile candidate
                    (sc_style_keywords (style plan)) in
                let summary_for_reply :=
                  if use_style_profile then sc_style_summary (style plan)
                  else None in
                let '(generated, _, w) :=
                  generate_guarded_reply candidate summary_for_reply
                    (Some (style_owner_handle plan)) None 2 w in
                match generated with
                | Raised _ | Returns (None, _) | Returns (Some [], _) =>
                    continue s w
                | Returns (Some generated_reply_text, _) =>
                    let generated_reply_text :=
                      Str.rstrip (take 270 generated_reply_text) in
                    if is_empty generated_reply_text then continue s w
                    else
                      let '(now_for_pacing, w) := now w in
                      let w :=
                        if qlt now_for_pacing (next_reply_earliest (pace s))
                        then
                          let wait_seconds :=
                            (next_reply_earliest (pace s) - now_for_pacing)%Q in
                          if qlt 0 wait_seconds then sleep wait_seconds w
                          else w
                        else w in
                      match reply_to_tweet candidate generated_reply_text w with
                      | (Raised e, w) =>
                          (Raised e, log_event s (PublishRaised key), w)
                      | (Returns success, w) =>
                          let '(attempt_completed_at, w) := now w in
                          let '(next_delay, w) :=
                            uniform (spacing_min_seconds plan)
                              (spacing_max_seconds plan) w in
                          let s :=
                            log_event s
                              (Published key success attempt_completed_at) in
                          let paced total hour :=
                            {| replies_sent_total := total;
                               replies_this_hour := hour;
                               current_hour_start :=
                                 current_hour_start (pace s);
                               next_reply_earliest :=
                                 (attempt_completed_at
                                  + timedelta_seconds next_delay)%Q |} in
                          if success then
                            let s :=
                              set_pace s
                                (paced (replies_sent_total (pace s) + 1)
                                   (replies_this_hour (pace s) + 1)) in
                            let '(timestamp, w) := now w in
                            (Returns true, record_key s key timestamp, w)
                          else
                            continue
                              (set_pace s
                                 (paced (replies_sent_total (pace s))
                                    (replies_this_hour (pace s))))
                              w
                      end
                end
        end
  end.

(** The [while replies_sent_total < total_cap] loop; [None] when the fuel
    runs out. *)
Fixpoint session_loop
    (plan : Plan) (account : AccountConfig) (logged_in_handle : option str)
    (fuel : nat) (s : Session) (w : World)
    : option (Raises unit * Session * World) :=
  if total_cap plan <=? replies_sent_total (pace s)
  then Some (Returns tt, s, w)
  else
    match fuel with
    | O => None
    | S fuel =>
        let again := session_loop plan account logged_in_handle fuel in
        let '(now_, w) := now w in
        if qle (session_end plan) now_ then Some (Returns tt, s, w)
        else
          let p := pace s in
          let p :=
            if qle 3600 (now_ - current_hour_start p)%Q then
              {| replies_sent_total := replies_sent_total p;
                 replies_this_hour := 0;
                 current_hour_start := now_;
                 next_reply_earliest := next_reply_earliest p |}
            else p in
          let s := set_pace s p in
          let new_window start earliest :=
            set_pace s
              {| replies_sent_total := replies_sent_total p;
                 replies_this_hour := 0;
                 current_hour_start := start;
                 next_reply_earliest := earliest |} in
          if replies_per_hour plan <=? replies_this_hour p then
            let next_hour_time := (current_hour_start p + 3600)%Q in
            let sleep_seconds := (next_hour_time - now_)%Q in
            let remaining_session := (session_end plan - now_)%Q in
            if qle remaining_session 0 then Some (Returns tt, s, w)
            else
              let sleep_seconds :=
                Qmax 0 (Qmin sleep_seconds remaining_session) in
              if qle sleep_seconds 0 then
                let '(start, w) := now w in
                again (new_window start (next_reply_earliest p)) w
              else
                let w := sleep sleep_seconds w in
                let '(woke, w) := now w in
                let earliest := Qmax (next_reply_earliest p) woke in
                let '(start, w) := now w in
                again (new_window start earliest) w
          else
            let batch_limit := Z.max 40 (replies_per_hour plan * 4) in
            match scrape_home_timeline batch_limit w with
            | (Raised e, w) => Some (Raised e, s, w)
            | (Returns [], w) => Some (Returns tt, s, w)
            | (Returns tweets, w) =>
                match keyed_by_score tweets with
                | Raised e => Some (Raised e, s, w)
                | Returns keyed =>
                    let scored_candidates :=
                      List.map snd
                        (sorted_reverse PrimFloat.ltb fst keyed) in
                    match scan_batch plan account logged_in_handle
                            scored_candidates s w with
                    | (Raised e, s, w) => Some (Raised e, s, w)
                    | (Returns made_reply_this_batch, s, w) =>
                        if made_reply_this_batch then again s w
                        else Some (Returns tt, s, w)
                    end
                end
            end
    end.

(** The plan the session fixes before its loop, and the session. *)
Definition plan_session
    (account : AccountConfig) (action_config : ActionConfig)
    (logged_in_handle : option str) (session_start : Q)
    (style_context : StyleContext) : Plan :=
  let replies_per_hour :=
    Z.max 1 (or_int (home_timeline_replies_per_hour action_config) 10) in
  let max_hours :=
    Z.max 1 (or_int (home_timeline_max_hours action_config) 3) in
  let min_delay :=
    Z.max 10 (min_delay_between_actions_seconds action_config) in
  let max_delay :=
    Z.max min_delay (max_delay_between_actions_seconds action_config) in
  let spacing_min_seconds := spacing_min replies_per_hour min_delay in
  {| replies_per_hour := replies_per_hour;
     max_hours := max_hours;
     total_cap := replies_per_hour * max_hours;
     session_end := (session_start + inject_Z max_hours * 3600)%Q;
     spacing_min_seconds := spacing_min_seconds;
     spacing_max_seconds := spacing_max spacing_min_seconds max_delay;
     style := style_context;
     style_owner_handle :=
       lstrip_char 64%N
         match sc_primary_handle style_context, logged_in_handle with
         | Some (c :: h), _ => c :: h
         | _, Some (c :: h) => c :: h
         | _, _ => account_id account
         end |}.

Definition _run_home_timeline_replies
    (account : AccountConfig) (action_config : ActionConfig)
    (logged_in_handle : option str) (self : Orchestrator) (w : World)
    : option (Raises unit * Session * World) :=
  let '(session_start, w) := now w in
  let '(style_context, w) := build_style_context w in
  let plan :=
    plan_session account action_config logged_in_handle session_start
      style_context in
  let '(next_reply_earliest, w) := now w in
  session_loop plan account logged_in_handle
    (Z.to_nat (2 * total_cap plan + 1))
    {| pace :=
         {| replies_sent_total := 0;
            replies_this_hour := 0;
            current_hour_start := session_start;
            next_reply_earliest := next_reply_earliest |};
       orchestrator := self;
       events := [] |}
    w.
End Scheduler.

Arguments now : simpl never.
Arguments generate_guarded_reply : simpl never.

(** ** Notions the session claims are stated with *)

Definition is_success (e : Event) : bool :=
  match e with Published _ true _ => true | _ => false end.

(** The completion times of the publisher calls that returned, the latest
    first. *)
Definition event_times (events : list Event) : list Q :=
  omap (fun e => match e with
                 | Published _ _ t => Some t
                 | PublishRaised _ => None
                 end) events.

(** A successful reply completed within the hour that starts at [t]. *)
Definition in_window (t : Q) (e : Event) : bool :=
  match e with
  | Published _ true c => qle t c && qlt c (t + 3600)%Q
  | _ => false
  end.

Definition replies_in_window (events : list Event) (t : Q) : nat :=
  length (List.filter (in_window t) events).

(** A successful reply completed within the [span] seconds that start at
    [t]. *)
Definition in_span (span t : Q) (e : Event) : bool :=
  match e with
  | Published _ true c => qle t c && qlt c (t + span)%Q
  | _ => false
  end.

Definition replies_in_span (span : Q) (events : list Event) (t : Q) : nat :=
  length (List.filter (in_span span t) events).

Definition successful_replies (events : list Event) : nat :=
  length (List.filter is_success events).

(** Times listed latest first, each at least [d] after the one before. *)
Fixpoint spaced (d : Q) (times : list Q) : Prop :=
  match times with
  | later :: ((earlier :: _) as rest) =>
      (earlier + d <= later)%Q /\ spaced d rest
  | _ => True
  end.

(** No publisher call for a key comes after a successful call for that
    key ([events] lists the latest call first). *)
Fixpoint acted_once (events : list Event) : Prop :=
  match events with
  | [] => True
  | e :: earlier =>
      (forall e', In e' earlier -> is_success e' = true ->
                  event_key e' <> event_key e)
      /\ acted_once earlier
  end.

(** ** A platform without latency

    The world is the clock, kept as a fraction in lowest terms.  Building
    the style context takes ten seconds and nothing else takes time but
    sleeping; [uniform a b] answers [a];
    every scrape sees the same eight posts; the model always answers the
    same acceptable reply and every reply is posted successfully. *)

Definition instant_feed : list ScrapedTweet :=
  List.map (fun id => mk_tweet id "Robotics demo day" "alice")
    ["101"; "102"; "103"; "104"; "105"; "106"; "107"; "108"]%string.

#[local] Instance instant_platform : Platform Q := {|
  clock := fun w => w;
  tick := fun w => w;
  sleep := fun d w => Qred (w + d);
  uniform := fun a _ w => (a, w);
  build_style_context := fun w =>
    ({| sc_style_summary := None; sc_style_keywords := [];
        sc_primary_handle := None |}, (w + 10)%Q);
  scrape_home_timeline := fun _ w => (Returns instant_feed, w);
  reply_to_tweet := fun _ _ w => (Returns true, w)
|}.

#[local] Instance instant_llm : LLMService Q :=
  fun _ w =>
    (Returns (mk_response "Nice work on the robotics!" true "on topic" []),
     w).

(** Seven replies an hour, for two hours. *)
Definition seven_an_hour : ActionConfig :=
  {| enable_engagement_decision := None;
     use_sentiment_in_decision := None;
     decision_quote_min := None;
     decision_retweet_min := None;
     decision_repost_min := None;
     competitor_post_interaction_type := repost;
     home_timeline_replies_per_hour := Some 7;
     home_timeline_max_hours := Some 2;
     min_delay_between_actions_seconds := 10;
     max_delay_between_actions_seconds := 20 |}.

(** A session at seven replies an hour on the platform without latency,
    starting at time 0. *)
Definition seven_an_hour_session : option (Raises unit * Session * Q) :=
  @_run_home_timeline_replies ascii_runtime Q instant_platform instant_llm
    deciding_account seven_an_hour None (orchestrator_init []) 0%Q.

(** ** A small platform to run sessions on

    The world is the clock.  Reading the clock takes a second, a scrape
    five, a model call three and posting a reply two; [uniform a b] answers
    [a]; every scrape sees the same two posts; the model always answers the
    same acceptable reply and every reply is posted successfully. *)

Definition demo_feed : list ScrapedTweet :=
  [mk_tweet "101" "Robotics demo day" "alice";
   mk_tweet "102" "New robot arm" "bob"].

#[local] Instance demo_platform : Platform Q := {|
  clock := fun w => w;
  tick := fun w => (w + 1)%Q;
  sleep := fun d w => (w + d)%Q;
  uniform := fun a _ w => (a, w);
  build_style_context := fun w =>
    ({| sc_style_summary := None; sc_style_keywords := [];
        sc_primary_handle := None |}, w);
  scrape_home_timeline := fun _ w => (Returns demo_feed, (w + 5)%Q);
  reply_to_tweet := fun _ _ w => (Returns true, (w + 2)%Q)
|}.

#[local] Instance demo_llm : LLMService Q :=
  fun _ w =>
    (Returns (mk_response "Nice work on the robotics!" true "on topic" []),
     (w + 3)%Q).

Definition demo_action_config : ActionConfig :=
  {| enable_engagement_decision := None;
     use_sentiment_in_decision := None;
     decision_quote_min := None;
     decision_retweet_min := None;
     decision_repost_min := None;
     competitor_post_interaction_type := repost;
     home_timeline_replies_per_hour := Some 2;
     home_timeline_max_hours := Some 1;
     min_delay_between_actions_seconds := 10;
     max_delay_between_actions_seconds := 20 |}.

(** A first session on an empty dedup store, starting at time 0. *)
Definition demo_session : option (Raises unit * Session * Q) :=
  @_run_home_timeline_replies ascii_runtime Q demo_platform demo_llm
    deciding_account demo_action_config None (orchestrator_init []) 0%Q.

Definition demo_key : str := py "home_reply_acct_101".

(** A second session after a restart: the orchestrator is built anew from
    the file the first session left, and starts at time 10000. *)
Definition demo_second_session : option (Raises unit * Session * Q) :=
  match demo_session with
  | Some (_, s, _) =>
      @_run_home_timeline_replies ascii_runtime Q demo_platform demo_llm
        deciding_account demo_action_config None
        (orchestrator_init (dedup_file (orchestrator s))) 10000%Q
  | None => None
  end.

(** ** Notions the proofs are stated with *)

Section SortOrder.
Context {A K : Type} (ltb : K -> K -> bool) (key : A -> K).

(** [above x y]: the key of [x] is strictly greater than that of [y]. *)
Definition above (x y : A) : Prop := ltb (key y) (key x) = true.

Definition strict_total_order : Prop :=
  (forall a b c, ltb a b = true -> ltb b c = true -> ltb a c = true)
  /\ (forall a b, ltb a b = true \/ a = b \/ ltb b a = true).
End SortOrder.

(** What one scan of a batch does to the session: it logs publisher calls
    only for keys that were not recorded when it started, at most the
    latest of which succeeded; on success the key is recorded in the set and
    in the file and both reply counters go up by one; otherwise the set,
    the file and the counters are as before. *)
Definition scan_post (plan : Plan) (s s' : Session) (res : Raises bool)
    : Prop :=
  let o := orchestrator s in
  let o' := orchestrator s' in
  exists new,
    events s' = new ++ events s
    /\ (forall e, In e new -> event_key e ∉ processed_action_keys o)
    /\ Forall (fun e => is_success e = false) (tail new)
    /\ current_hour_start (pace s') = current_hour_start (pace s)
    /\ match res with
       | Returns true =>
           (exists k t, head new = Some (Published k true t)
                        /\ k ∈ processed_action_keys o'
                        /\ k ∈ load_processed_action_keys (dedup_file o'))
           /\ processed_action_keys o ⊆ processed_action_keys o'
           /\ (exists more, dedup_file o' = dedup_file o ++ more)
           /\ replies_sent_total (pace s') = replies_sent_total (pace s) + 1
           /\ replies_this_hour (pace s') = replies_this_hour (pace s) + 1
           /\ replies_sent_total (pace s) < total_cap plan
           /\ replies_this_hour (pace s) < replies_per_hour plan
       | _ =>
           Forall (fun e => is_success e = false) new
           /\ o' = o
           /\ replies_sent_total (pace s') = replies_sent_total (pace s)
           /\ replies_this_hour (pace s') = replies_this_hour (pace s)
       end.

(** How a session state [s'] that comes after [s] relates to it. *)
Definition session_rel (plan : Plan) (s s' : Session) : Prop :=
  let o := orchestrator s in
  let o' := orchestrator s' in
  exists new,
    events s' = new ++ events s
    /\ (forall e, In e new -> event_key e ∉ processed_action_keys o)
    /\ processed_action_keys o ⊆ processed_action_keys o'
    /\ (exists more, dedup_file o' = dedup_file o ++ more)
    /\ replies_sent_total (pace s')
       = replies_sent_total (pace s) + Z.of_nat (successful_replies new)
    /\ (replies_sent_total (pace s) <= total_cap plan ->
        replies_sent_total (pace s') <= total_cap plan)
    /\ (forall e, In e new -> is_success e = true ->
          event_key e ∈ processed_action_keys o'
          /\ event_key e ∈ load_processed_action_keys (dedup_file o'))
    /\ acted_once new.

(** The loop passes that are still possible: two for every reply that may
    still be sent (a cooldown and a batch), and one more when the hour is
    already used up. *)
Definition passes_left (plan : Plan) (s : Session) : Z :=
  2 * (total_cap plan - replies_sent_total (pace s))
  + (if replies_per_hour plan <=? replies_this_hour (pace s) then 1 else 0).

(** The logged completion times are [d] apart, and the next reply may not
    start before [d] has passed since the latest of them. *)
Definition paced (d : Q) (s : Session) : Prop :=
  spaced d (event_times (events s))
  /\ match event_times (events s) with
     | latest :: _ => (latest + d <= next_reply_earliest (pace s))%Q
     | [] => True
     end.

(** A time within the [span] seconds that start at [t]. *)
Definition within (span t c : Q) : bool := qle t c && qlt c (t + span)%Q.

(** The pause the session keeps after an attempt is [timedelta] of a delay
    that is [spacing_min_seconds] or more: at least [min_delay] seconds,
    and no more than half a microsecond short of [3600 / replies_per_hour]
    seconds. *)
Definition least_pause (replies_per_hour min_delay : Z) : Q :=
  Qmax (inject_Z min_delay)
    (3600 / inject_Z replies_per_hour - (1 # 2000000))%Q.

(** ** More of [utils/text_utils.py] *)

(** A character a token is made of once it is lower-cased: a lower-case
    letter, a digit or the apostrophe. *)
Definition is_lower_token_char (c : char) : bool :=
  ((97 <=? c) && (c <=? 122) || (48 <=? c) && (c <=? 57) || (c =? 39))%N.

(** The humor markers that are words. *)
Definition humor_words : list str :=
  [py "lol"; py "lmao"; py "haha"; py "hehe"; py "meme"].

Definition _TECH_MARKERS : list str :=
  List.map py
    ["api"; "code"; "model"; "deploy"; "release"; "ai"; "ml"; "data";
     "research"; "update"; "version"; "script"]%string.

Definition _SENTIMENT_MARKERS : list (str * Z) :=
  [(py "amazing", 1); (py "awesome", 1); (py "love", 1); (py "hate", -1);
   (py "terrible", -1); (py "awful", -1); (py "great", 1); (py "good", 1);
   (py "bad", -1); (py "thrilled", 1); (py "furious", -1)].

(** [s.count(sub)]: the occurrences of [sub] in [s] that do not overlap,
    counted from the left; [skip] is what is left of the occurrence just
    counted. *)
Fixpoint count_skipping (sub : str) (skip : nat) (s : str) : Z :=
  match s with
  | [] => 0
  | _ :: rest =>
      match skip with
      | S skip' => count_skipping sub skip' rest
      | O =>
          if Str.startswith sub s
          then 1 + count_skipping sub (length sub - 1) rest
          else count_skipping sub 0 rest
      end
  end.

Definition str_count (sub s : str) : Z :=
  match sub with
  | [] => Z.of_nat (length s) + 1
  | _ => count_skipping sub 0 s
  end.

(** [s.endswith(suffix)] *)
Definition endswith (suffix s : str) : bool :=
  Str.startswith (rev suffix) (rev s).

(** The four tallies of [infer_tone_from_samples]. *)
Record ToneScores := {
  humor_score : Z;
  tech_score : Z;
  exclamation_score : Z;
  sentiment_score : Z
}.

(** [sum(1 for marker in markers if marker in lowered)] *)
Definition markers_in (markers : list str) (lowered : str) : Z :=
  Z.of_nat (length (List.filter (fun marker => Str.contains marker lowered)
                      markers)).

Section Tone.
Context `{UnicodeData}.

(** The body of the loop over the texts.  [_HUMOR_MARKERS] is a set: the
    markers written twice count once. *)
Definition score_text (scores : ToneScores) (text : str) : ToneScores :=
  if is_empty text then scores
  else
    let lowered := lower text in
    {| humor_score :=
         humor_score scores + markers_in (remove_dups _HUMOR_MARKERS) lowered;
       tech_score := tech_score scores + markers_in _TECH_MARKERS lowered;
       exclamation_score :=
         exclamation_score scores + str_count (py "!") lowered;
       sentiment_score :=
         List.fold_left
           (fun score '(marker, weight) =>
              score + str_count marker lowered * weight)
           _SENTIMENT_MARKERS (sentiment_score scores) |}.

Definition tone_scores (texts : list str) : ToneScores :=
  List.fold_left score_text texts
    {| humor_score := 0; tech_score := 0; exclamation_score := 0;
       sentiment_score := 0 |}.

Definition infer_tone_from_samples (texts : list str) : str :=
  let scores := tone_scores texts in
  if Z.max 1 (tech_score scores / 2) <=? humor_score scores
  then py "playful"
  else if (0 <? tech_score scores)
          && (humor_score scores <=? tech_score scores)
  then py "technical"
  else if (2 <? exclamation_score scores) || (2 <? sentiment_score scores)
  then py "enthusiastic"
  else if sentiment_score scores <? -1 then py "cautious"
  else py "conversational".

(** The three tallies of [describe_media_urls]: images, videos, gifs. *)
Definition media_counts (urls : list str) : nat * nat * nat :=
  List.fold_left
    (fun '(image_types, video_types, gif_types) url =>
       let lowered := lower url in
       if endswith (py ".gif") lowered
       then (image_types, video_types, S gif_types)
       else if endswith (py ".mp4") lowered || endswith (py "m3u8") lowered
       then (image_types, S video_types, gif_types)
       else (S image_types, video_types, gif_types))
    urls (O, O, O).

Definition media_segments (counts : nat * nat * nat) : list str :=
  let '(image_types, video_types, gif_types) := counts in
  (match image_types with
   | O => []
   | _ => [decimal image_types ++ py " image(s)"]
   end)
  ++ (match video_types with
      | O => []
      | _ => [decimal video_types ++ py " video(s)"]
      end)
  ++ (match gif_types with
      | O => []
      | _ => [decimal gif_types ++ py " gif(s)"]
      end).

Definition describe_media_urls (urls : list str) : str :=
  match urls with
  | [] => py "No media attached."
  | _ =>
      let segments := media_segments (media_counts urls) in
      let summary :=
        match segments with
        | [] => decimal (length urls) ++ py " media item(s)"
        | _ => Str.join (py ", ") segments
        end in
      py "Media detected: " ++ summary ++ py "."
  end.
End Tone.

(** ** Notions the guarded-reply facts are stated with *)

(** A string that does not start with white space. *)
Definition starts_clean (s : str) : Prop :=
  match s with
  | [] => True
  | c :: _ => Str.is_space c = false
  end.

(** A value [(v or "").strip()] cannot be taken of: truthy, and no
    string. *)
Definition unstrippable (v : JValue) : Prop :=
  truthy v = true /\ forall s, v <> JStr s.


(** The reason the metadata of a failed run reports: that of the last
    attempt. *)
Definition final_reason (last_error : option str) (reasons : list str)
    : str :=
  match last reasons with
  | Some reason => reason
  | None =>
      match last_error with
      | Some (c :: e) => c :: e
      | _ => py "Unknown guard failure."
      end
  end.

(** ** Notions the style-snapshot facts are stated with *)

(** Every white-space character of the string is a blank, and what follows
    a blank is no white space. *)
Fixpoint single_spaced (s : str) : Prop :=
  match s with
  | [] => True
  | c :: rest =>
      (Str.is_space c = true -> c = 32%N /\ starts_clean rest)
      /\ single_spaced rest
  end.

(** A post whose author's handle normalises to that of one of the
    candidate handles. *)
Definition self_authored `{UnicodeData}
    (candidate_handles : list str) (tweet : ScrapedTweet) : Prop :=
  exists handle candidate,
    _normalize_handle (user_handle tweet) = Some handle
    /\ In candidate candidate_handles
    /\ _normalize_handle (Some candidate) = Some handle.

(** [a] is not older than [b] (a post without a time stamp is older than
    any with one). *)
Definition not_older (a b : MemoryEntry) : Prop :=
  created_ltb (entry_created_at a) (entry_created_at b) = false.

(** ** Notions the router facts are stated with *)

(** Backends that note down every call made of them: the world carries the
    list of the calls, each with the name of the service called. *)
Section Recording.
Context {World : Type} `{!Backends World}.

Definition recorded {A}
    (service : str) (backend : BackendCall -> World -> Raises A * World)
    (call : BackendCall) (state : World * list (str * BackendCall))
    : Raises A * (World * list (str * BackendCall)) :=
  let '(response, w) := backend call (fst state) in
  (response, (w, snd state ++ [(service, call)])).

Definition recording_backends : Backends (World * list (str * BackendCall)) :=
  {| gemini_ainvoke := recorded (py "gemini") gemini_ainvoke;
     azure_create := recorded (py "azure") azure_create;
     openai_create := recorded (py "openai") openai_create |}.
End Recording.

(** What every call of a backend looks like: the keys [inline_media] and
    [model] are not among the keyword parameters; Gemini gets a
    [max_output_tokens] and is handed stripped texts; Azure and OpenAI get
    a [max_tokens] and a model, which for Azure is a deployment name that
    is not empty. *)
Definition well_formed_call (entry : str * BackendCall) : Prop :=
  let '(service, call) := entry in
  let params := call_final_params call in
  params !! py "inline_media" = None
  /\ params !! py "model" = None
  /\ if decide (service = py "gemini") then
       is_Some (params !! py "max_output_tokens")
       /\ Str.strip (call_prompt call) = call_prompt call
       /\ forall system,
            call_system_prompt call = Some system ->
            Str.strip system = system
     else
       is_Some (params !! py "max_tokens")
       /\ exists model,
            call_model call = Some model
            /\ (service = py "azure" -> truthy model = true).

(** ** More of [main.py] *)

(** The keys [_normalize_account_config] fills in, each with the legacy
    key it is filled in from. *)
Definition legacy_overrides : list (str * str) :=
  [(py "target_keywords", py "target_keywords_override");
   (py "competitor_profiles", py "competitor_profiles_override");
   (py "news_sites", py "news_sites_override");
   (py "research_paper_sites", py "research_paper_sites_override");
   (py "action_config", py "action_config_override")].

(** [if key not in normalized and legacy in normalized:
       normalized[key] = normalized.get(legacy)] *)
Definition adopt_override {V} (normalized : gmap str V)
    (pair : str * str) : gmap str V :=
  let '(key, legacy) := pair in
  match normalized !! key, normalized !! legacy with
  | None, Some value => <[key := value]> normalized
  | _, _ => normalized
  end.

(** [_normalize_account_config], the helper of [_process_account]. *)
Definition _normalize_account_config {V} (d : gmap str V) : gmap str V :=
  List.fold_left adopt_override legacy_overrides d.

(** The four actions the decision logic knows. *)
Definition known_actions : list str := [quote_tweet; retweet; repost; like].

(** An analyzer that recommends "Retweet" with a relevance of 0.9. *)
#[local] Instance recommending_analyzer : TweetAnalyzer unit := {|
  analyze_tweet_structured := fun _ _ w =>
    (Returns (Some {| sa_relevance := 0.9%float;
                      sa_sentiment := py "positive";
                      sa_recommended_action := py "Retweet" |}), w);
  score_relevance := fun _ _ w => (Returns 0.6%float, w);
  classify_sentiment := fun _ w => (Returns (py "neutral"), w)
|}.

(** ** The replies a session hands to the publisher *)

Section PostedReplies.
Context `{UnicodeData} {World : Type} `{!Platform World, !LLMService World}.

(** [posted] reads off the world the replies handed to the publisher so
    far, each with the post it answers: a call of [reply_to_tweet] adds
    one, whatever comes of it, and nothing else changes them. *)
Record KeepsRecord (posted : World -> list (ScrapedTweet * str)) : Prop := {
  tick_posted : forall w, posted (tick w) = posted w;
  sleep_posted : forall d w, posted (sleep d w) = posted w;
  uniform_posted : forall a b w, posted (snd (uniform a b w)) = posted w;
  style_posted : forall w, posted (snd (build_style_context w)) = posted w;
  scrape_posted :
    forall n w, posted (snd (scrape_home_timeline n w)) = posted w;
  model_posted :
    forall instruction w,
      posted (snd (generate_structured instruction w)) = posted w;
  reply_posted :
    forall tweet text w,
      posted (snd (reply_to_tweet tweet text w)) = posted w ++ [(tweet, text)]
}.

(** The action key of a reply handed to the publisher. *)
Definition posted_key (account : AccountConfig)
    (reply : ScrapedTweet * str) : str :=
  action_key account (or_empty (tweet_id (fst reply))).

(** A reply as the session may post it: to a post that has an id and is
    not the account's own, with a text of 1 to 270 characters that
    [generate_guarded_reply] accepted for that post. *)
Definition guarded_reply_to (account : AccountConfig)
    (logged_in_handle : option str) (reply : ScrapedTweet * str) : Prop :=
  let '(tweet, text) := reply in
  or_empty (tweet_id tweet) <> []
  /\ _is_own_tweet (user_handle tweet) account logged_in_handle = false
  /\ text <> [] /\ (length text <= 270)%nat
  /\ exists style_summary persona_handle metadata calls (w0 w1 : World),
       generate_guarded_reply tweet style_summary persona_handle None 2 w0
       = (Returns (Some text, metadata), calls, w1).

(** What a stretch of a session adds to the replies posted and to the
    events logged (the latest first): guarded replies only, one event for
    each. *)
Definition posts_logged (account : AccountConfig)
    (logged_in_handle : option str)
    (before after : list Event * list (ScrapedTweet * str)) : Prop :=
  exists replies new,
    snd after = snd before ++ replies
    /\ fst after = new ++ fst before
    /\ Forall (guarded_reply_to account logged_in_handle) replies
    /\ List.map (posted_key account) replies = rev (List.map event_key new).
End PostedReplies.

(** A platform and a model service that keep the record of the replies in
    the world, beside the world of a platform and a model service that are
    given. *)
Section RecordingPlatform.
Context {World : Type} `{!Platform World, !LLMService World}.

Definition recording_platform
    : Platform (World * list (ScrapedTweet * str)) :=
  {| clock := fun state => clock (fst state);
     tick := fun state => (tick (fst state), snd state);
     sleep := fun d state => (sleep d (fst state), snd state);
     uniform := fun a b state =>
       let '(x, w) := uniform a b (fst state) in (x, (w, snd state));
     build_style_context := fun state =>
       let '(context, w) := build_style_context (fst state) in
       (context, (w, snd state));
     scrape_home_timeline := fun n state =>
       let '(tweets, w) := scrape_home_timeline n (fst state) in
       (tweets, (w, snd state));
     reply_to_tweet := fun tweet text state =>
       let '(success, w) := reply_to_tweet tweet text (fst state) in
       (success, (w, snd state ++ [(tweet, text)])) |}.

Definition recording_llm : LLMService (World * list (ScrapedTweet * str)) :=
  fun instruction state =>
    let '(response, w) := generate_structured instruction (fst state) in
    (response, (w, snd state)).
End RecordingPlatform.

(** ** [main.py]: liking tweets (action 4 of [_process_account])

    The settings the block reads: those of [current_action_config], and
    [relevance_filter_likes], which is what the two reads of the relevance
    filter come to ([enable_rel_like] and [thr_like]: the account's
    override, else the entry of [analysis_config], else [True] and [0.3]),
    or the exception they end in. *)
Record LikingConfig := {
  enable_liking_tweets : bool;
  like_tweets_from_keywords : list str;
  max_likes_per_run : Z;
  avoid_replying_to_own_tweets : bool;
  liking_min_delay : Z;
  liking_max_delay : Z;
  relevance_filter_likes : Raises (bool * float)
}.

(** The scraper's keyword search and [engagement.like_tweet]. *)
Class Engagement (World : Type) := {
  scrape_tweets_by_keyword :
    str -> Z -> World -> Raises (list ScrapedTweet) * World;
  like_tweet : ScrapedTweet -> World -> Raises bool * World
}.

(** The orchestrator, the counter [likes_done_this_run], and the calls of
    [like_tweet] that returned, the earliest first, each with its
    result. *)
Record LikeState := {
  like_orchestrator : Orchestrator;
  likes_done_this_run : Z;
  like_calls : list (ScrapedTweet * bool)
}.

(** [f"{tweet.tweet_id}"] *)
Definition id_text (id : option str) : str :=
  match id with Some id => id | None => py "None" end.

(** [f"like_{account.account_id}_{tweet_to_like.tweet_id}"] *)
Definition like_key (account : AccountConfig) (tweet : ScrapedTweet) : str :=
  py "like_" ++ account_id account ++ py "_" ++ id_text (tweet_id tweet).

Section Liking.
Context `{UnicodeData} {World : Type}
  `{!Platform World, !TweetAnalyzer World, !Engagement World}.

(** The relevance filter of the likes pipeline with its
    [except Exception: pass]: whether the tweet is skipped. *)
Definition skipped_as_irrelevant
    (cfg : LikingConfig) (account : AccountConfig) (tweet : ScrapedTweet)
    (w : World) : bool * World :=
  match relevance_filter_likes cfg with
  | Returns (true, thr_like) =>
      match score_relevance tweet (target_keywords account) w with
      | (Returns rel_like, w) => (PrimFloat.ltb rel_like thr_like, w)
      | (Raised _, w) => (false, w)
      end
  | _ => (false, w)
  end.

(** The loop [for tweet_to_like in tweets_to_potentially_like]. *)
Fixpoint like_tweets_of_keyword
    (cfg : LikingConfig) (account : AccountConfig)
    (logged_in_handle : option str) (tweets : list ScrapedTweet)
    (st : LikeState) (w : World) : Raises unit * LikeState * World :=
  match tweets with
  | [] => (Returns tt, st, w)
  | tweet_to_like :: rest =>
      let continue :=
        like_tweets_of_keyword cfg account logged_in_handle rest in
      if max_likes_per_run cfg <=? likes_done_this_run st
      then (Returns tt, st, w)
      else
        let key := like_key account tweet_to_like in
        if decide (key ∈ processed_action_keys (like_orchestrator st))
        then continue st w
        else if avoid_replying_to_own_tweets cfg
                && negb (is_empty (or_empty (user_handle tweet_to_like)))
                && _is_own_tweet (user_handle tweet_to_like) account
                     logged_in_handle
        then continue st w
        else
          let '(skip, w) := skipped_as_irrelevant cfg account tweet_to_like w in
          if skip then continue st w
          else
            match like_tweet tweet_to_like w with
            | (Raised e, w) => (Raised e, st, w)
            | (Returns like_success, w) =>
                let calls := like_calls st ++ [(tweet_to_like, like_success)] in
                if like_success then
                  let '(timestamp, w) := now w in
                  let st :=
                    {| like_orchestrator :=
                         {| processed_action_keys :=
                              {[ key ]}
                              ∪ processed_action_keys (like_orchestrator st);
                            dedup_file :=
                              save_processed_action_key key timestamp
                                (dedup_file (like_orchestrator st)) |};
                       likes_done_this_run := likes_done_this_run st + 1;
                       like_calls := calls |} in
                  let '(delay, w) :=
                    uniform (inject_Z (liking_min_delay cfg) / 2)
                      (inject_Z (liking_max_delay cfg) / 2) w in
                  continue st (sleep delay w)
                else
                  continue
                    {| like_orchestrator := like_orchestrator st;
                       likes_done_this_run := likes_done_this_run st;
                       like_calls := calls |}
                    w
            end
  end.

(** The loop [for keyword in keywords_to_like]. *)
Fixpoint like_by_keywords
    (cfg : LikingConfig) (account : AccountConfig)
    (logged_in_handle : option str) (keywords : list str)
    (st : LikeState) (w : World) : Raises unit * LikeState * World :=
  match keywords with
  | [] => (Returns tt, st, w)
  | keyword :: rest =>
      if max_likes_per_run cfg <=? likes_done_this_run st
      then (Returns tt, st, w)
      else
        match scrape_tweets_by_keyword keyword (max_likes_per_run cfg * 2) w
        with
        | (Raised e, w) => (Raised e, st, w)
        | (Returns tweets_to_potentially_like, w) =>
            match like_tweets_of_keyword cfg account logged_in_handle
                    tweets_to_potentially_like st w with
            | (Raised e, st, w) => (Raised e, st, w)
            | (Returns _, st, w) =>
                like_by_keywords cfg account logged_in_handle rest st w
            end
        end
  end.

(** Action 4: [if current_action_config.enable_liking_tweets: ...]. *)
Definition like_tweets
    (cfg : LikingConfig) (account : AccountConfig)
    (logged_in_handle : option str) (self : Orchestrator) (w : World)
    : Raises unit * LikeState * World :=
  let st :=
    {| like_orchestrator := self; likes_done_this_run := 0;
       like_calls := [] |} in
  if enable_liking_tweets cfg then
    let keywords_to_like :=
      match like_tweets_from_keywords cfg with
      | [] => target_keywords account
      | keywords => keywords
      end in
    like_by_keywords cfg account logged_in_handle keywords_to_like st w
  else (Returns tt, st, w).
End Liking.

(** ** Notions the facts on liking are stated with *)

(** The keys of the calls that succeeded. *)
Definition liked_keys (account : AccountConfig)
    (calls : list (ScrapedTweet * bool)) : list str :=
  List.map (fun call => like_key account (fst call))
    (List.filter snd calls).

(** Calls of [like_tweet], the earliest first, none of them for a key that
    is in [seen] or that an earlier one of the calls has liked
    successfully; with [avoid_own], none of them for a post of the
    account's own. *)
Fixpoint fresh_calls `{UnicodeData} (account : AccountConfig)
    (logged_in_handle : option str) (avoid_own : bool)
    (seen : gset str) (calls : list (ScrapedTweet * bool)) : Prop :=
  match calls with
  | [] => True
  | (tweet, success) :: later =>
      (like_key account tweet ∉ seen)
      /\ (avoid_own = true ->
          _is_own_tweet (user_handle tweet) account logged_in_handle = false)
      /\ fresh_calls account logged_in_handle avoid_own
           (if success then {[ like_key account tweet ]} ∪ seen else seen)
           later
  end.

(** What holds of the state all along a run of the liking block that
    started from the orchestrator [self]: the counter counts the calls that
    succeeded and is within the cap; the keys of those calls, and no
    others, were added to the set and appended to the file; and the calls
    are fresh. *)
Definition liking_invariant `{UnicodeData}
    (cfg : LikingConfig) (account : AccountConfig)
    (logged_in_handle : option str) (self : Orchestrator) (st : LikeState)
    : Prop :=
  likes_done_this_run st
  = Z.of_nat (length (liked_keys account (like_calls st)))
  /\ likes_done_this_run st <= Z.max 0 (max_likes_per_run cfg)
  /\ processed_action_keys (like_orchestrator st)
     = processed_action_keys self
       ∪ list_to_set (liked_keys account (like_calls st))
  /\ (exists more,
        dedup_file (like_orchestrator st) = dedup_file self ++ more
        /\ List.map fst more = liked_keys account (like_calls st))
  /\ fresh_calls account logged_in_handle (avoid_replying_to_own_tweets cfg)
       (processed_action_keys self) (like_calls st).

(** A keyword search that always finds the two posts of [demo_feed], a
    like that always succeeds, and an analyzer that scores every post
    0.6. *)
#[local] Instance demo_engagement : Engagement Q := {|
  scrape_tweets_by_keyword := fun _ _ w => (Returns demo_feed, (w + 5)%Q);
  like_tweet := fun _ w => (Returns true, (w + 2)%Q)
|}.

#[local] Instance demo_analyzer : TweetAnalyzer Q := {|
  analyze_tweet_structured := fun _ _ w => (Returns None, w);
  score_relevance := fun _ _ w => (Returns 0.6%float, w);
  classify_sentiment := fun _ w => (Returns (py "neutral"), w)
|}.

Definition demo_liking_config : LikingConfig :=
  {| enable_liking_tweets := true;
     like_tweets_from_keywords := [py "robotics"; py "robots"];
     max_likes_per_run := 3;
     avoid_replying_to_own_tweets := true;
     liking_min_delay := 10;
     liking_max_delay := 20;
     relevance_filter_likes := Returns (true, 0.3%float) |}.

(** ** [main.py]: [_build_style_context] *)

(** The scraper's visit of a profile, and the write of the style memory to
    [data/style_memory/<account_id>.json], whose failure is logged and
    nothing more. *)
Class ProfileScraper (World : Type) := {
  scrape_tweets_from_profile :
    str -> Z -> World -> Raises (list ScrapedTweet) * World;
  write_style_memory : str -> StyleMemory -> World -> World
}.

Module BuildStyleContext.
Section Helper.
Context `{UnicodeData}.

(** The helper [_normalize_handle] local to [_build_style_context]. *)
Definition _normalize_handle (raw_value : option str) : option str :=
  match raw_value with
  | None | Some [] => None
  | Some raw_value =>
      let value := Str.strip raw_value in
      if is_empty value then None
      else
        let value :=
          if Str.startswith (py "https://") (lower value) then
            match after_last (py "x.com/") value with
            | Some last => last
            | None => value
            end
          else value in
        let value :=
          lstrip_char 64%N (strip_char 47%N (before_first (py "?") value)) in
        match lower value with
        | [] => None
        | lowered => Some lowered
        end
  end.

(** The loop that fills [normalized_handles]. *)
Fixpoint normalize_unique (seen_handles : gset str)
    (handle_candidates : list str) : list str :=
  match handle_candidates with
  | [] => []
  | raw :: rest =>
      match _normalize_handle (Some raw) with
      | Some normalized =>
          if decide (normalized ∈ seen_handles)
          then normalize_unique seen_handles rest
          else normalized
               :: normalize_unique ({[normalized]} ∪ seen_handles) rest
      | None => normalize_unique seen_handles rest
      end
  end.
End Helper.
End BuildStyleContext.

(** [valid = [t for t in tweets if t and getattr(t, 'text_content', None)]] *)
Definition has_text (tweet : ScrapedTweet) : bool :=
  negb (is_empty (or_empty (text_content tweet))).

(** What a visit of a profile came to, as the loop over the profiles sees
    it: posts with text, or none (an exception counts as none). *)
Definition posts_with_text (outcome : Raises (list ScrapedTweet))
    : list ScrapedTweet :=
  match outcome with
  | Returns tweets => List.filter has_text tweets
  | Raised _ => []
  end.

Section BuildStyleContextSection.
Context `{UnicodeData} `{Calendar} {World : Type} `{!ProfileScraper World}.

Definition handle_candidates
    (account : AccountConfig) (logged_in_handle : option str) : list str :=
  match logged_in_handle with
  | Some (c :: h) => [c :: h]
  | _ => []
  end
  ++ List.filter (fun h => negb (is_empty h)) (self_handles account)
  ++ [account_id account].

Definition normalized_handles
    (account : AccountConfig) (logged_in_handle : option str) : list str :=
  BuildStyleContext.normalize_unique ∅
    (handle_candidates account logged_in_handle).

Definition profile_url_of (handle : str) : str := py "https://x.com/" ++ handle.

(** The loop [for handle in normalized_handles].  The second component
    lists the visits made: the profile, the number of posts asked for, and
    what came of it. *)
Fixpoint first_profile_with_posts
    (handles : list str) (max_items : Z) (w : World)
    : option (list ScrapedTweet * str)
      * list (str * Z * Raises (list ScrapedTweet)) * World :=
  match handles with
  | [] => (None, [], w)
  | handle :: rest =>
      let profile_url := profile_url_of handle in
      let max_tweets := Z.max (max_items * 2) 20 in
      let '(outcome, w) :=
        scrape_tweets_from_profile profile_url max_tweets w in
      match posts_with_text outcome with
      | [] =>
          let '(found, visits, w) :=
            first_profile_with_posts rest max_items w in
          (found, (profile_url, max_tweets, outcome) :: visits, w)
      | valid => (Some (valid, profile_url), [(profile_url, max_tweets, outcome)], w)
      end
  end.

(** [_build_style_context]: the context text, the style memory with the
    profile it was drawn from (or [None] for the empty memory), and the
    visits made. *)
Definition _build_style_context
    (account : AccountConfig) (logged_in_handle : option str)
    (max_items : Z) (w : World)
    : str * option (StyleMemory * str)
      * list (str * Z * Raises (list ScrapedTweet)) * World :=
  let normalized_handles := normalized_handles account logged_in_handle in
  let '(found, visits, w) :=
    first_profile_with_posts normalized_handles max_items w in
  match found with
  | None => ([], None, visits, w)
  | Some (tweets_collected, profile_used) =>
      match dedupe_by_id ∅ tweets_collected with
      | [] => ([], None, visits, w)
      | unique_tweets =>
          match build_style_snapshot unique_tweets normalized_handles
                  max_items with
          | (_, None) => ([], None, visits, w)
          | (style_context_text, Some style_memory) =>
              (style_context_text, Some (style_memory, profile_used), visits,
               write_style_memory (account_id account) style_memory w)
          end
      end
  end.
End BuildStyleContextSection.

(** A scraper that fails on every profile but that of "acct", where it
    finds the four long posts. *)
#[local] Instance demo_profiles : ProfileScraper unit := {|
  scrape_tweets_from_profile := fun profile_url _ w =>
    (if decide (profile_url = py "https://x.com/acct")
     then Returns four_long_posts
     else Raised (py "TimeoutException"), w);
  write_style_memory := fun _ _ w => w
|}.

(** ** [features/publisher/reply_handler.py] *)

Module ReplyHandler.
Section Helper.
Context `{UnicodeData}.

Definition _normalize_handle (raw : option str) : option str :=
  match raw with
  | None | Some [] => None
  | Some raw =>
      let value := Str.strip raw in
      if is_empty value then None
      else
        match lower (strip_char 47%N
                       (before_first (py "?") (lstrip_char 64%N value))) with
        | [] => None
        | lowered => Some lowered
        end
  end.
End Helper.
End ReplyHandler.

(** A character of a plain handle: ASCII, no white space, and none of the
    at-sign, the question mark and the slash. *)
Definition plain_handle_char (c : char) : bool :=
  Str.is_ascii c && negb (Str.is_space c)
  && negb ((c =? 64) || (c =? 63) || (c =? 47))%N.

(** * Properties *)

(** ** Worked examples *)

Example extract_example :
  @extract_keywords_from_texts ascii_runtime
    [py "The Launch of the AI launch, today: it's abc vs abcd"] 8 1
  = List.map py ["launch"; "abc"; "abcd"; "today"]%string.
Proof. vm_compute. reflexivity. Qed.

(** [test_generate_guarded_reply_success_on_first_attempt] *)
Example test_success_on_first_attempt :
  let '(result, calls, _) :=
    @generate_guarded_reply ascii_runtime _ StubLLMService
      (mk_tweet "1" "AI launch today" "techmaker")
      (Some (py "Keep it upbeat")) (Some (py "bot")) None 2
      [mk_response "Congrats on the AI launch!" true
         "Mentions the announcement" ["ai"; "launch"]%string] in
  match result with
  | Returns (Some reply_text, metadata) =>
      reply_text = py "Congrats on the AI launch!"
      /\ attempts metadata = 1 /\ flagged_terms metadata = []
      /\ length calls = 1%nat
  | _ => False
  end.
Proof. vm_compute. repeat split. Qed.

(** ** Guarded reply generation *)

Lemma rstrip_length (s : str) : (length (Str.rstrip s) <= length s)%nat.
Proof.
  induction s as [|c r IH]; simpl; [lia|].
  destruct (Str.rstrip r); [destruct (Str.is_space c)|]; simpl in *; lia.
Qed.

Section GuardedReplyFacts.
Context `{UnicodeData} {World : Type} `{!LLMService World}.

(** What an accepted attempt looks like. *)
Lemma guard_response_accept ctx attempt data err text md :
  guard_response ctx attempt data err = Returns (Accept text md) ->
  (length text <= MAX_REPLY_CHARS)%nat
  /\ text <> []
  /\ attempts md = attempt + 1
  /\ flagged_terms md = [].
Proof.
  unfold guard_response. intros Hg.
  destruct data as [|d|v]; try discriminate.
  destruct (decide (d = ∅)); try discriminate.
  destruct (get_stripped d (py "reply_text")) as [raw|]; try discriminate.
  destruct (get_stripped d (py "relevance_reason")) as [why|];
    try discriminate.
  cbv zeta in Hg.
  destruct raw as [|c raw]; try discriminate.
  unfold clip_reply in Hg. cbn [is_empty] in Hg.
  pose proof (rstrip_length (take MAX_REPLY_CHARS (c :: raw))) as Hrs.
  rewrite length_take in Hrs.
  set (reply := Str.rstrip _) in *.
  destruct (is_empty reply) eqn:Hempty; try discriminate.
  cbn [negb andb] in Hg.
  destruct (MAX_REPLY_CHARS <? length reply)%nat eqn:Hlong;
    try discriminate.
  apply Nat.ltb_ge in Hlong.
  repeat case_match; simplify_eq; cbn [attempts flagged_terms];
    (split; [lia|split; [|done]]);
    intros Hnil; rewrite Hnil in Hempty; discriminate.
Qed.

(** The loop logs one call per pass, passes at most [remaining] times, and
    reports as [attempts] the number of calls made so far. *)
Lemma guarded_loop_spec tweet ctx style persona banned remaining :
  forall attempt last_error calls w res calls' w',
    guarded_loop tweet ctx style persona banned remaining attempt
      last_error calls w = (res, calls', w') ->
    exists new,
      calls' = calls ++ new
      /\ (length new <= remaining)%nat
      /\ ((0 < remaining)%nat -> (0 < length new)%nat)
      /\ match res with
         | Returns (reply, md) =>
             attempts md = attempt + Z.of_nat (length new)
             /\ match reply with
                | Some text =>
                    (length text <= MAX_REPLY_CHARS)%nat /\ text <> []
                | None => length new = remaining
                end
         | Raised _ => True
         end.
Proof.
  induction remaining as [|n IH]; intros attempt last_error calls w res
    calls' w' Hrun; simpl in Hrun.
  - simplify_eq. exists []. rewrite app_nil_r. simpl.
    repeat split; try lia.
  - destruct (generate_structured _ w) as [response w1].
    destruct response as [[data err]|e].
    + destruct (guard_response ctx attempt data err) as [[text md|why]|e]
        eqn:Hguard.
      * simplify_eq. eexists [_]. simpl.
        apply guard_response_accept in Hguard as (Hlen & Hne & Hatt & _).
        repeat split; try lia; done.
      * apply IH in Hrun as (new & -> & Hle & Hpos & Hres).
        eexists (_ :: new). rewrite <- app_assoc. simpl.
        repeat split; try lia.
        destruct res as [[reply md]|]; [|done].
        destruct Hres as [Hatt Hreply]. split; [lia|].
        destruct reply; [done|lia].
      * simplify_eq. eexists [_]. simpl. repeat split; lia.
    + simplify_eq. eexists [_]. simpl. repeat split; lia.
Qed.

Lemma generate_guarded_reply_spec tweet style persona banned retry_limit
    w res calls w' :
  generate_guarded_reply tweet style persona banned retry_limit w
    = (res, calls, w') ->
  (1 <= length calls)%nat
  /\ Z.of_nat (length calls) <= Z.max 1 retry_limit
  /\ match res with
     | Returns (reply, md) =>
         attempts md = Z.of_nat (length calls)
         /\ match reply with
            | Some text => (length text <= MAX_REPLY_CHARS)%nat
            | None => Z.of_nat (length calls) = Z.max 1 retry_limit
            end
     | Raised _ => True
     end.
Proof.
  unfold generate_guarded_reply. intros Hrun.
  apply guarded_loop_spec in Hrun as (new & -> & Hle & Hpos & Hres).
  simpl. repeat split; try lia.
  destruct res as [[reply md]|]; [|done].
  destruct Hres as [Hatt Hreply]. split; [lia|].
  destruct reply; [tauto|lia].
Qed.
End GuardedReplyFacts.

Section GuardedReplyClaims.
Context `{UnicodeData} {World : Type} `{!LLMService World}.

(** C1 (as amended).  Whenever [generate_guarded_reply] returns, the
    [attempts] field of its metadata is the number of
    [generate_structured] calls it made, and that number is at most
    [max(1, retry_limit)]; hence at most [retry_limit] whenever
    [retry_limit] is at least 1. *)
Theorem attempts_counts_generation_calls
    tweet style persona banned retry_limit w reply md calls w' :
  generate_guarded_reply tweet style persona banned retry_limit w
    = (Returns (reply, md), calls, w') ->
  attempts md = Z.of_nat (length calls)
  /\ attempts md <= Z.max 1 retry_limit
  /\ (1 <= retry_limit -> attempts md <= retry_limit).
Proof.
  intros Hrun.
  apply generate_guarded_reply_spec in Hrun as (Hpos & Hmax & Hatt & _).
  repeat split; lia.
Qed.

(** C2.  A reply text that [generate_guarded_reply] accepts has at most
    270 characters. *)
Theorem accepted_reply_at_most_270
    tweet style persona banned retry_limit w text md calls w' :
  generate_guarded_reply tweet style persona banned retry_limit w
    = (Returns (Some text, md), calls, w') ->
  (length text <= 270)%nat.
Proof.
  intros Hrun.
  apply generate_guarded_reply_spec in Hrun as (_ & _ & _ & Hlen).
  exact Hlen.
Qed.

End GuardedReplyClaims.

(** C1, as stated, fails for [retry_limit = 0]: one call is made and
    [attempts] is 1, which exceeds the limit passed in. *)
Lemma attempts_can_exceed_retry_limit :
  exists reply md calls w',
    @generate_guarded_reply ascii_runtime _ StubLLMService
      (mk_tweet "1" "AI launch today" "techmaker") None None None 0
      [mk_response "Congrats on the AI launch!" true
         "Mentions the announcement" ["ai"; "launch"]%string]
    = (Returns (reply, md), calls, w')
    /\ length calls = 1%nat
    /\ attempts md = 1
    /\ ~ attempts md <= 0.
Proof.
  do 4 eexists. split; [vm_compute; reflexivity|].
  repeat split. intros Hle. vm_compute in Hle. apply Hle. reflexivity.
Qed.

(** [test_generate_guarded_reply_retries_on_off_topic_terms]: two calls,
    [attempts = 2], within [retry_limit = 3]. *)
Lemma attempts_counts_generation_calls_witness :
  exists (md : Metadata) (calls : list Instruction),
    (attempts md = Z.of_nat (length calls)
     /\ attempts md <= Z.max 1 3
     /\ (1 <= 3 -> attempts md <= 3))
    /\ attempts md = 2.
Proof.
  eexists _, _. split.
  - eapply (attempts_counts_generation_calls (H := ascii_runtime)
              (mk_tweet "42" "Discussing distributed AI training"
                 "mlresearcher")
              None (Some (py "mlbot")) None 3
              [mk_response "You should read the OpenAI API docs instead."
                 true "Mentions AI APIs" ["api"]%string;
               mk_response
                 "Distributed training is so compute hungry - great points!"
                 true "References distributed training" ["training"]%string]).
    vm_compute. reflexivity.
  - reflexivity.
Defined.

(** [test_generate_guarded_reply_success_on_first_attempt]: the accepted
    reply has 26 characters. *)
Lemma accepted_reply_at_most_270_witness :
  (length (py "Congrats on the AI launch!") <= 270)%nat.
Proof.
  eapply (accepted_reply_at_most_270 (H := ascii_runtime)
            (mk_tweet "1" "AI launch today" "techmaker")
            (Some (py "Keep it upbeat")) (Some (py "bot")) None 2
            [mk_response "Congrats on the AI launch!" true
               "Mentions the announcement" ["ai"; "launch"]%string]).
  vm_compute. reflexivity.
Defined.


(** ** Off-topic terms *)

Lemma startswith_spec (p s : str) :
  Str.startswith p s = true <-> exists post, s = p ++ post.
Proof.
  revert s. induction p as [|a p IH]; intros s; simpl.
  - split; [intros _; by exists s|done].
  - destruct s as [|b s].
    + split; [done|]. intros [post Hpost]. discriminate.
    + rewrite andb_true_iff, N.eqb_eq, IH. split.
      * intros [-> [post ->]]. by exists post.
      * intros [post Hpost]. simplify_eq. eauto.
Qed.

Lemma contains_spec (needle hay : str) :
  Str.contains needle hay = true
  <-> exists pre post, hay = pre ++ needle ++ post.
Proof.
  induction hay as [|c hay IH]; simpl; rewrite orb_true_iff, startswith_spec.
  - split.
    + intros [[post Hpost]|]; [|done]. exists [], post. done.
    + intros (pre & post & Heq). left.
      destruct pre; [|done]. by exists post.
  - rewrite IH. split.
    + intros [[post Hpost]|(pre & post & ->)].
      * exists [], post. done.
      * exists (c :: pre), post. done.
    + intros (pre & post & Heq). destruct pre as [|c' pre].
      * left. by exists post.
      * right. simpl in Heq. injection Heq as -> ->. eauto.
Qed.

Lemma token_char_ascii (c : char) :
  is_token_char c = true -> Str.is_ascii c = true.
Proof.
  unfold is_token_char, Str.is_ascii.
  rewrite !orb_true_iff, !andb_true_iff, !N.leb_le, N.eqb_eq, N.ltb_lt.
  lia.
Qed.

(** Every match of the token pattern is a run of token characters that
    stands in the text scanned. *)
Lemma finditer_infix (s : str) :
  forall cur t,
    In t (finditer cur s) ->
    Forall (fun c => is_token_char c = true) cur ->
    Forall (fun c => is_token_char c = true) t
    /\ exists pre post, cur ++ s = pre ++ t ++ post.
Proof.
  induction s as [|c rest IH]; intros cur t Hin Hcur; simpl in Hin.
  - destruct cur as [|c0 cur]; [done|]. destruct Hin as [<-|[]].
    split; [done|]. exists [], []. by rewrite !app_nil_r.
  - destruct (is_token_char c) eqn:Hc.
    + apply IH in Hin as (Ht & pre & post & Heq).
      * split; [done|]. exists pre, post. by rewrite <- Heq, <- app_assoc.
      * apply Forall_app. auto.
    + apply in_app_or in Hin as [Hin|Hin].
      * destruct cur as [|c0 cur]; [done|]. destruct Hin as [<-|[]].
        split; [done|]. by exists [], (c :: rest).
      * apply IH in Hin as (Ht & pre & post & Heq); [|done].
        split; [done|]. exists (cur ++ c :: pre), post.
        simpl in Heq. rewrite Heq, <- app_assoc. done.
Qed.

Section LowerFacts.
Context `{UnicodeData}.

Lemma lower_from_ascii (run : str) :
  Forall (fun c => Str.is_ascii c = true) run ->
  forall before rest,
    lower_from before (run ++ rest)
    = List.map Str.ascii_lower run ++ lower_from (before ++ run) rest.
Proof.
  induction 1 as [|c run Hc _ IH]; intros before rest; simpl.
  - by rewrite app_nil_r.
  - rewrite Hc, IH, <- app_assoc. done.
Qed.

Lemma lower_from_prefix (pre : str) :
  forall before rest,
    exists out,
      lower_from before (pre ++ rest)
      = out ++ lower_from (before ++ pre) rest.
Proof.
  induction pre as [|c pre IH]; intros before rest; simpl.
  - exists []. by rewrite app_nil_r.
  - destruct (IH (before ++ [c]) rest) as [out ->].
    eexists. rewrite <- (app_assoc before), app_assoc. done.
Qed.

Lemma lower_ascii (run : str) :
  Forall (fun c => Str.is_ascii c = true) run ->
  lower run = List.map Str.ascii_lower run.
Proof.
  intros Hrun. unfold lower.
  rewrite <- (app_nil_r run) at 1.
  rewrite (lower_from_ascii run Hrun). simpl. by rewrite app_nil_r.
Qed.

(** An ASCII run of a text appears lower-cased in the lower-cased text. *)
Lemma lower_infix (pre run post : str) :
  Forall (fun c => Str.is_ascii c = true) run ->
  Str.contains (lower run) (lower (pre ++ run ++ post)) = true.
Proof.
  intros Hrun. apply contains_spec.
  rewrite (lower_ascii run Hrun). unfold lower.
  destruct (lower_from_prefix pre [] (run ++ post)) as [out ->].
  rewrite (lower_from_ascii run Hrun). eauto.
Qed.

Lemma tokenize_contains (text token : str) :
  In token (_tokenize text) -> Str.contains token (lower text) = true.
Proof.
  unfold _tokenize. rewrite in_map_iff. intros (run & <- & Hin).
  apply finditer_infix in Hin as (Hrun & pre & post & Heq); [|done].
  simpl in Heq. rewrite Heq. apply lower_infix.
  eapply Forall_impl; [exact Hrun|]. apply token_char_ascii.
Qed.

Lemma tokenize_for_overlap_contains (text token : str) :
  token ∈ tokenize_for_overlap text ->
  Str.contains token (lower text) = true.
Proof.
  unfold tokenize_for_overlap.
  rewrite elem_of_list_to_set, list_elem_of_In, filter_In.
  intros [Hin _]. by apply tokenize_contains.
Qed.

Lemma default_terms_lowercase (term : str) :
  In term DEFAULT_OFF_TOPIC_TERMS -> lower term = term.
Proof.
  intros Hin. cbv [DEFAULT_OFF_TOPIC_TERMS List.map] in Hin.
  repeat (destruct Hin as [<-|Hin]; [reflexivity|]). destruct Hin.
Qed.

Lemma find_off_topic_terms_In (reply_text tweet_text : str)
    (allowed_terms : list str) (term : str) :
  In term (_find_off_topic_terms reply_text tweet_text allowed_terms)
  <-> In term DEFAULT_OFF_TOPIC_TERMS
      /\ Str.contains term (lower reply_text) = true
      /\ ~ In term (List.map lower allowed_terms)
      /\ term ∉ tokenize_for_overlap tweet_text.
Proof.
  unfold _find_off_topic_terms.
  rewrite filter_In, andb_true_iff, bool_decide_eq_true.
  rewrite not_elem_of_union, elem_of_list_to_set, list_elem_of_In.
  tauto.
Qed.

(** A flagged term always turns the attempt down. *)
Lemma flagged_reply_rejected ctx attempt d err raw term :
  get_stripped d (py "reply_text") = Returns raw ->
  In term (_find_off_topic_terms (clip_reply raw) (ctx_text ctx)
             (ctx_keywords ctx)) ->
  forall text md,
    guard_response ctx attempt (DataDict d) err <> Returns (Accept text md).
Proof.
  intros Hraw Hflag text md. unfold guard_response.
  destruct (decide (d = ∅)); [done|]. rewrite Hraw.
  destruct (get_stripped d (py "relevance_reason")); [|done].
  cbv zeta.
  destruct (_find_off_topic_terms _ _ _) eqn:Hterms; [done|].
  repeat case_match; done.
Qed.
End LowerFacts.

(** C3 (as amended).  For a term of the default off-topic list: if the term
    is a token of the tweet text (a whole word of it, compared without
    case) or is one of the focus keywords, the reply is never flagged for
    it; if the term occurs in the lower-cased reply, occurs nowhere in the
    lower-cased tweet text and is no focus keyword, the reply is flagged for
    it and the attempt is not accepted. *)
Theorem off_topic_terms_respect_tweet_context
    `{UnicodeData} ctx attempt d err raw term :
  In term DEFAULT_OFF_TOPIC_TERMS ->
  get_stripped d (py "reply_text") = Returns raw ->
  let reply := clip_reply raw in
  let flagged :=
    _find_off_topic_terms reply (ctx_text ctx) (ctx_keywords ctx) in
  (term ∈ tokenize_for_overlap (ctx_text ctx) \/ In term (ctx_keywords ctx) ->
   ~ In term flagged)
  /\ (Str.contains term (lower reply) = true ->
      Str.contains term (lower (ctx_text ctx)) = false ->
      ~ In term (List.map lower (ctx_keywords ctx)) ->
      In term flagged
      /\ forall text md,
           guard_response ctx attempt (DataDict d) err
           <> Returns (Accept text md)).
Proof.
  intros Hdefault Hraw reply flagged. subst flagged. split.
  - intros Hallowed. rewrite find_off_topic_terms_In.
    intros (_ & _ & Hkw & Htok). destruct Hallowed as [Hin|Hin]; [done|].
    apply Hkw, in_map_iff. exists term.
    split; [by apply default_terms_lowercase|done].
  - intros Hreply Htweet Hkw.
    assert (In term (_find_off_topic_terms reply (ctx_text ctx)
                       (ctx_keywords ctx))) as Hflag.
    { apply find_off_topic_terms_In. repeat split; try done.
      intros Htok. apply tokenize_for_overlap_contains in Htok. congruence. }
    split; [done|]. by eapply flagged_reply_rejected.
Qed.

(** C3, as stated, fails for the terms of several words: "pull request"
    stands verbatim in the tweet text, and a reply that repeats it is still
    flagged for it and rejected. *)
Lemma verbatim_term_still_rejected :
  In (py "pull request") DEFAULT_OFF_TOPIC_TERMS
  /\ Str.contains (py "pull request") (ctx_text pull_request_context) = true
  /\ @_find_off_topic_terms ascii_runtime (py "Nice pull request!")
       (ctx_text pull_request_context) (ctx_keywords pull_request_context)
     = [py "pull request"]
  /\ @guard_response ascii_runtime pull_request_context 0
       (fst (mk_response "Nice pull request!" true "Mentions the pull request"
               []))
       None
     = Returns
         (Reject (py "Reply referenced off-topic terms: pull request.")).
Proof.
  split; [vm_compute; tauto|]. repeat split; vm_compute; reflexivity.
Qed.

(** "openai" is a token of the tweet "OpenAI shipped a new model", so a reply
    naming it is not flagged for it; "chatgpt" is in neither and is
    flagged. *)
Lemma off_topic_terms_respect_tweet_context_witness :
  let ctx :=
    @_prepare_tweet_context ascii_runtime
      (mk_tweet "8" "OpenAI shipped a new model" "news") in
  ~ In (py "openai")
      (@_find_off_topic_terms ascii_runtime
         (py "OpenAI keeps shipping, unlike chatgpt") (ctx_text ctx)
         (ctx_keywords ctx)).
Proof.
  refine (proj1 (off_topic_terms_respect_tweet_context (H := ascii_runtime)
            (@_prepare_tweet_context ascii_runtime
               (mk_tweet "8" "OpenAI shipped a new model" "news"))
            0
            (list_to_map
               [(py "reply_text",
                 JStr (py "OpenAI keeps shipping, unlike chatgpt"))])
            None (py "OpenAI keeps shipping, unlike chatgpt") (py "openai")
            _ _) _).
  - vm_compute. tauto.
  - vm_compute. reflexivity.
  - left. vm_compute. reflexivity.
Defined.

(** ** Keyword extraction *)

(** *** The order on sort keys *)

Lemma str_ltb_trans (a b c : str) :
  Str.ltb a b = true -> Str.ltb b c = true -> Str.ltb a c = true.
Proof.
  revert b c. induction a as [|x a IH]; intros [|y b] [|z c]; simpl;
    try done.
  rewrite !orb_true_iff, !andb_true_iff, !N.ltb_lt, !N.eqb_eq.
  intros [Hxy|[-> Hab]] [Hyz|[-> Hbc]]; try (left; lia).
  right. split; [done|]. by eapply IH.
Qed.

Lemma str_ltb_total (a b : str) :
  Str.ltb a b = true \/ a = b \/ Str.ltb b a = true.
Proof.
  revert b. induction a as [|x a IH]; intros [|y b]; simpl; auto.
  rewrite !orb_true_iff, !andb_true_iff, !N.ltb_lt, !N.eqb_eq.
  destruct (N.lt_total x y) as [Hlt|[->|Hgt]]; [auto| |auto].
  destruct (IH b) as [Hab|[->|Hba]]; auto.
Qed.

Lemma key_ltb_trans (a b c : Z * Z * str) :
  key_ltb a b = true -> key_ltb b c = true -> key_ltb a c = true.
Proof.
  destruct a as [[c1 l1] t1], b as [[c2 l2] t2], c as [[c3 l3] t3].
  unfold key_ltb.
  rewrite !orb_true_iff, !andb_true_iff, !orb_true_iff, !andb_true_iff,
    !Z.ltb_lt, !Z.eqb_eq.
  intros [?|[-> [?|[-> Ht12]]]] [?|[-> [?|[-> Ht23]]]];
    try (left; lia); try (right; split; [done|left; lia]).
  right. split; [done|]. right. split; [done|]. by eapply str_ltb_trans.
Qed.

Lemma key_ltb_total (a b : Z * Z * str) :
  key_ltb a b = true \/ a = b \/ key_ltb b a = true.
Proof.
  destruct a as [[c1 l1] t1], b as [[c2 l2] t2].
  unfold key_ltb.
  rewrite !orb_true_iff, !andb_true_iff, !orb_true_iff, !andb_true_iff,
    !Z.ltb_lt, !Z.eqb_eq.
  destruct (Z.lt_total c1 c2) as [?|[->|?]]; [auto| |auto].
  destruct (Z.lt_total l1 l2) as [?|[->|?]]; [auto| |auto 6].
  destruct (str_ltb_total t1 t2) as [?|[->|?]]; auto 8.
Qed.

(** *** The stable descending sort *)

Section SortedReverse.
Context {A K : Type} (ltb : K -> K -> bool) (key : A -> K).

Lemma insert_desc_perm x l : Permutation (insert_desc ltb key x l) (x :: l).
Proof.
  induction l as [|y r IH]; simpl; [done|].
  destruct (ltb (key x) (key y)); [|done].
  rewrite IH. apply perm_swap.
Qed.

Lemma sorted_reverse_perm l : Permutation (sorted_reverse ltb key l) l.
Proof.
  induction l as [|x l IH]; simpl; [done|].
  rewrite insert_desc_perm. by constructor.
Qed.

Lemma insert_desc_sorted x l :
  strict_total_order ltb ->
  (forall y, In y l -> key x <> key y) ->
  StronglySorted (above ltb key) l ->
  StronglySorted (above ltb key) (insert_desc ltb key x l).
Proof.
  intros [Htrans Htotal] Hfresh Hsorted.
  induction Hsorted as [|y r Hr IH Hy]; simpl.
  - repeat constructor.
  - destruct (ltb (key x) (key y)) eqn:Hxy.
    + constructor.
      * apply IH. intros z Hz. apply Hfresh. by right.
      * eapply Permutation_Forall; [symmetry; apply insert_desc_perm|].
        constructor; done.
    + assert (above ltb key x y) as Hab.
      { destruct (Htotal (key x) (key y)) as [?|[Heq|?]]; [congruence| |done].
        destruct (Hfresh y); [by left|done]. }
      constructor; [by constructor|].
      constructor; [done|].
      eapply Forall_impl; [exact Hy|].
      intros z Hz. unfold above in *. by eapply Htrans.
Qed.

Lemma sorted_reverse_sorted l :
  strict_total_order ltb ->
  (forall x y, key x = key y -> x = y) ->
  NoDup l ->
  StronglySorted (above ltb key) (sorted_reverse ltb key l).
Proof.
  intros Horder Hinj. induction 1 as [|x l Hx Hl IH]; simpl.
  - constructor.
  - apply insert_desc_sorted; [done| |done].
    intros y Hy Heq. apply Hinj in Heq as ->.
    apply Hx, list_elem_of_In.
    eapply Permutation_in; [apply sorted_reverse_perm|done].
Qed.
End SortedReverse.

(** *** The counter *)

Lemma counter_get_incr (t k : str) (c : list (str * Z)) :
  counter_get t (counter_incr k c)
  = counter_get t c + (if decide (k = t) then 1 else 0).
Proof.
  induction c as [|[k' n] c IH]; simpl.
  - destruct (decide (k = t)); lia.
  - destruct (decide (k' = k)) as [->|Hne]; simpl.
    + destruct (decide (k = t)); lia.
    + destruct (decide (k' = t)) as [->|]; [|done].
      destruct (decide (k = t)); [done|lia].
Qed.

Lemma counter_keys_incr (k : str) (c : list (str * Z)) (t : str) :
  In t (List.map fst (counter_incr k c)) <-> t = k \/ In t (List.map fst c).
Proof.
  induction c as [|[k' n] c IH]; simpl; [intuition congruence|].
  destruct (decide (k' = k)) as [->|Hne]; simpl; [intuition congruence|].
  rewrite IH. intuition congruence.
Qed.

Lemma counter_incr_NoDup (k : str) (c : list (str * Z)) :
  NoDup (List.map fst c) -> NoDup (List.map fst (counter_incr k c)).
Proof.
  induction c as [|[k' n] c IH]; simpl; intros Hnd.
  - apply NoDup_singleton.
  - apply NoDup_cons in Hnd as [Hk' Hnd].
    destruct (decide (k' = k)) as [->|Hne]; simpl.
    + by apply NoDup_cons.
    + apply NoDup_cons. split; [|by apply IH].
      rewrite list_elem_of_In, counter_keys_incr.
      intros [->|Hin]; [done|]. by apply Hk', list_elem_of_In.
Qed.

Lemma counter_get_In (t : str) (n : Z) (c : list (str * Z)) :
  NoDup (List.map fst c) -> In (t, n) c -> counter_get t c = n.
Proof.
  induction c as [|[k m] c IH]; simpl; [done|].
  intros Hnd%NoDup_cons [Heq|Hin].
  - simplify_eq. by rewrite decide_True.
  - destruct Hnd as [Hk Hnd]. rewrite decide_False; [by apply IH|].
    intros ->. apply Hk, list_elem_of_In, in_map_iff. by exists (t, n).
Qed.

(** *** The tally *)

Section KeywordFacts.
Context `{UnicodeData}.

Lemma tally_token_spec counter token :
  tally_token counter token
  = if is_counted token then counter_incr token counter else counter.
Proof.
  unfold tally_token, is_counted.
  destruct (length token <=? 2)%nat; [done|].
  by destruct (bool_decide (token ∈ _STOPWORDS)).
Qed.

Lemma tally_flat texts :
  tally texts
  = List.fold_left tally_token (List.concat (List.map _tokenize texts)) [].
Proof.
  unfold tally. generalize (@nil (str * Z)).
  induction texts as [|text texts IH]; intros c; simpl; [done|].
  by rewrite IH, fold_left_app.
Qed.

Lemma fold_tally_get toks :
  forall c t,
    counter_get t (List.fold_left tally_token toks c)
    = counter_get t c
      + Z.of_nat
          (length (List.filter (fun token => bool_decide (token = t))
                     (List.filter is_counted toks))).
Proof.
  induction toks as [|tok toks IH]; intros c t; simpl; [lia|].
  rewrite IH, tally_token_spec.
  destruct (is_counted tok); simpl; [|done].
  rewrite counter_get_incr.
  destruct (decide (tok = t)) as [->|Hne].
  - rewrite bool_decide_eq_true_2 by done. simpl. lia.
  - rewrite bool_decide_eq_false_2 by done. lia.
Qed.

Lemma fold_tally_keys toks :
  forall c t,
    In t (List.map fst (List.fold_left tally_token toks c))
    <-> In t (List.map fst c) \/ In t (List.filter is_counted toks).
Proof.
  induction toks as [|tok toks IH]; intros c t; simpl; [tauto|].
  rewrite IH, tally_token_spec.
  destruct (is_counted tok); simpl; [|tauto].
  rewrite counter_keys_incr. intuition congruence.
Qed.

Lemma fold_tally_NoDup toks :
  forall c,
    NoDup (List.map fst c) ->
    NoDup (List.map fst (List.fold_left tally_token toks c)).
Proof.
  induction toks as [|tok toks IH]; intros c Hc; simpl; [done|].
  apply IH. rewrite tally_token_spec.
  destruct (is_counted tok); [by apply counter_incr_NoDup|done].
Qed.

Lemma tally_get texts t : counter_get t (tally texts) = frequency texts t.
Proof. rewrite tally_flat, fold_tally_get. simpl. done. Qed.

Lemma tally_keys texts t :
  In t (List.map fst (tally texts)) <-> In t (counted_tokens texts).
Proof. rewrite tally_flat, fold_tally_keys. simpl. tauto. Qed.

Lemma tally_NoDup texts : NoDup (List.map fst (tally texts)).
Proof. rewrite tally_flat. apply fold_tally_NoDup. constructor. Qed.

Lemma tally_entry texts t n :
  In (t, n) (tally texts) -> n = frequency texts t.
Proof.
  intros Hin. rewrite <- tally_get. symmetry.
  apply counter_get_In; [apply tally_NoDup|done].
Qed.
End KeywordFacts.

(** *** The ranking *)

Lemma StronglySorted_weaken {A} (R R' : A -> A -> Prop) (l : list A) :
  (forall x y, In x l -> In y l -> R x y -> R' x y) ->
  StronglySorted R l -> StronglySorted R' l.
Proof.
  intros Himpl Hsorted.
  induction Hsorted as [|x l Hl IH Hx]; constructor.
  - apply IH. intros a b Ha Hb. apply Himpl; by right.
  - apply List.Forall_forall. intros y Hy.
    apply Himpl; [by left|by right|].
    rewrite List.Forall_forall in Hx. by apply Hx.
Qed.

Lemma slice_to_take {A} (n : Z) (l : list A) :
  exists k, slice_to n l = take k l /\ (0 <= n -> k = Z.to_nat n).
Proof.
  unfold slice_to. destruct (n <? 0) eqn:Hn.
  - eexists. split; [done|]. apply Z.ltb_lt in Hn. lia.
  - eexists. split; done.
Qed.

Lemma keyword_key_above (c : list (str * Z)) (a b : str) :
  above key_ltb (keyword_key c) a b
  <-> ranks_before (fun t => counter_get t c) a b.
Proof.
  unfold above, keyword_key, key_ltb, ranks_before.
  rewrite !orb_true_iff, !andb_true_iff, !orb_true_iff, !andb_true_iff,
    !Z.ltb_lt, !Z.eqb_eq.
  split.
  - intros [?|[? [?|[? ?]]]]; [left; lia|right|right]; (split; [lia|]);
      [left; lia|right; split; [lia|done]].
  - intros [?|[? [?|[? ?]]]]; [left; lia|right|right]; (split; [lia|]);
      [left; lia|right; split; [lia|done]].
Qed.

Section KeywordRanking.
Context `{UnicodeData}.

Lemma counted_tokens_In texts t :
  In t (counted_tokens texts)
  <-> (exists text, In text texts /\ In t (_tokenize text))
      /\ (2 < length t)%nat /\ t ∉ _STOPWORDS.
Proof.
  unfold counted_tokens, is_counted.
  rewrite filter_In, in_concat, andb_true_iff, !negb_true_iff,
    Nat.leb_gt, bool_decide_eq_false.
  split.
  - intros [(toks & Htoks & Ht) [? ?]]. split; [|done].
    apply in_map_iff in Htoks as (text & <- & Htext). eauto.
  - intros [(text & Htext & Ht) [? ?]]. split; [|done].
    exists (_tokenize text). split; [|done]. apply in_map_iff. eauto.
Qed.

Lemma keyword_pool_NoDup (c : list (str * Z)) min_frequency :
  NoDup (List.map fst c) -> NoDup (keyword_pool c min_frequency).
Proof.
  intros Hnd. unfold keyword_pool.
  assert (NoDup (List.map fst
            (List.filter (fun '(_, count) => min_frequency <=? count) c)))
    as Hf.
  { clear -Hnd. induction c as [|[k n] c IH]; simpl; [constructor|].
    apply NoDup_cons in Hnd as [Hk Hnd].
    destruct (min_frequency <=? n); simpl; [|by apply IH].
    apply NoDup_cons. split; [|by apply IH].
    rewrite list_elem_of_In, in_map_iff. intros ([k' n'] & Heq & Hin).
    simpl in Heq. subst k'. apply filter_In in Hin as [Hin _].
    apply Hk, list_elem_of_In, in_map_iff. by exists (k, n'). }
  by destruct (List.map fst (List.filter _ c)).
Qed.

Lemma keyword_pool_In texts min_frequency t :
  In t (keyword_pool (tally texts) min_frequency)
  <-> candidate texts min_frequency t.
Proof.
  unfold keyword_pool, candidate.
  assert (forall u,
            In u (List.map fst
                    (List.filter (fun '(_, count) => min_frequency <=? count)
                       (tally texts)))
            <-> In u (counted_tokens texts)
                /\ min_frequency <= frequency texts u) as Hf.
  { intros u. rewrite in_map_iff. split.
    - intros ([u' n] & Heq & Hin). simpl in Heq. subst u'.
      apply filter_In in Hin as [Hin Hn]. apply Z.leb_le in Hn.
      pose proof (tally_entry _ _ _ Hin) as ->. split; [|done].
      apply tally_keys, in_map_iff. by exists (u, frequency texts u).
    - intros [Hin Hn]. apply tally_keys, in_map_iff in Hin
        as ([u' n] & Heq & Hin).
      simpl in Heq. subst u'. exists (u, n). split; [done|].
      apply filter_In. split; [done|]. apply Z.leb_le.
      by rewrite (tally_entry _ _ _ Hin). }
  destruct (List.map fst (List.filter _ (tally texts))) as [|x f] eqn:Hlist.
  - rewrite tally_keys. split; [|tauto].
    intros Hin. split; [done|]. right. intros u Hu.
    destruct (Z.lt_ge_cases (frequency texts u) min_frequency) as [|Hge];
      [done|].
    destruct (proj2 (Hf u)). split; [done|lia].
  - rewrite Hf. split; [tauto|].
    intros [Hin [Hge|Hnone]]; [done|].
    destruct (proj1 (Hf x)) as [Hx Hxge]; [by left|].
    specialize (Hnone x Hx). lia.
Qed.
End KeywordRanking.

(** C8 (as amended).  [extract_keywords_from_texts] returns distinct
    candidate tokens (counted tokens: longer than two characters, no
    stopwords), ranked by frequency, ties in frequency broken by preferring
    the SHORTER token and then the lexicographically GREATER one; every
    candidate left out ranks after every token returned, and for
    [max_keywords >= 0] at most [max_keywords] tokens are returned, exactly
    that many when a candidate is left out. *)
Theorem extract_keywords_top_ranked
    `{UnicodeData} (texts : list str) (max_keywords min_frequency : Z) :
  let result := extract_keywords_from_texts texts max_keywords min_frequency in
  let freq := frequency texts in
  NoDup result
  /\ (forall t, In t result ->
        candidate texts min_frequency t
        /\ (2 < length t)%nat /\ t ∉ _STOPWORDS)
  /\ StronglySorted (ranks_before freq) result
  /\ (forall a t,
        In a result -> candidate texts min_frequency t -> ~ In t result ->
        ranks_before freq a t)
  /\ (0 <= max_keywords ->
      Z.of_nat (length result) <= max_keywords
      /\ forall t,
           candidate texts min_frequency t -> ~ In t result ->
           Z.of_nat (length result) = max_keywords).
Proof.
  intros result freq. subst result. unfold extract_keywords_from_texts.
  cbv zeta. destruct (tally texts) as [|entry rest] eqn:Htally.
  { assert (forall t, ~ candidate texts min_frequency t) as Hnone.
    { intros t [Hin _]. apply tally_keys in Hin. by rewrite Htally in Hin. }
    split; [constructor|]. split; [intros t []|].
    split; [constructor|]. split; [intros a t []|].
    intros Hmax. simpl. split; [lia|].
    intros t Ht. by apply Hnone in Ht. }
  rewrite <- Htally. clear entry rest Htally.
  set (pool := keyword_pool (tally texts) min_frequency).
  set (sorted := sorted_reverse key_ltb (keyword_key (tally texts)) pool).
  assert (Permutation sorted pool) as Hperm by apply sorted_reverse_perm.
  assert (NoDup sorted) as Hnd.
  { rewrite Hperm. apply keyword_pool_NoDup, tally_NoDup. }
  assert (forall t, In t sorted <-> candidate texts min_frequency t) as Hin.
  { intros t. rewrite <- keyword_pool_In. fold pool.
    split; apply Permutation_in; [done|by symmetry]. }
  assert (StronglySorted (ranks_before freq) sorted) as Hsorted.
  { eapply (StronglySorted_weaken
              (above key_ltb (keyword_key (tally texts)))).
    - intros x y _ _ Hxy. apply keyword_key_above in Hxy.
      unfold ranks_before in *. subst freq. by rewrite <- !tally_get.
    - apply sorted_reverse_sorted.
      + split; [apply key_ltb_trans|apply key_ltb_total].
      + intros x y Heq. unfold keyword_key in Heq. congruence.
      + apply keyword_pool_NoDup, tally_NoDup. }
  destruct (slice_to_take max_keywords sorted) as (k & -> & Hk).
  rewrite <- (take_drop k sorted) in Hnd, Hsorted, Hin.
  apply NoDup_app in Hnd as (Hnd & _ & _).
  split; [done|]. split; [|split; [|split]].
  - intros t Ht.
    assert (candidate texts min_frequency t) as Hc.
    { apply Hin, in_or_app. by left. }
    split; [done|]. destruct Hc as [Hc _].
    by apply counted_tokens_In in Hc as (_ & ? & ?).
  - by apply StronglySorted_app_1_l in Hsorted.
  - intros a t Ha Ht Hout. apply Hin, in_app_or in Ht as [Ht|Ht]; [done|].
    eapply StronglySorted_app_1_elem_of; [done| |]; by apply list_elem_of_In.
  - intros Hmax. specialize (Hk Hmax). rewrite length_take.
    split; [lia|].
    intros t Ht Hout. apply Hin, in_app_or in Ht as [Ht|Ht]; [done|].
    assert (k < length sorted)%nat; [|lia].
    destruct (Nat.lt_ge_cases k (length sorted)) as [|Hge]; [done|].
    by rewrite drop_ge in Ht.
Qed.

(** C8, as stated, fails on the tie-break: of the three tokens of
    ["abc abcd abd"], all of frequency 1, the code puts the longer "abcd"
    last and "abd" before "abc", so its top-1 is "abd" where the stated
    order asks for "abcd". *)
Lemma longer_token_not_preferred :
  let texts := [py "abc abcd abd"] in
  let freq := @frequency ascii_runtime texts in
  @extract_keywords_from_texts ascii_runtime texts 8 1
  = [py "abd"; py "abc"; py "abcd"]
  /\ @extract_keywords_from_texts ascii_runtime texts 1 1 = [py "abd"]
  /\ spec_ranks_before freq (py "abcd") (py "abd")
  /\ spec_ranks_before freq (py "abc") (py "abd")
  /\ ~ StronglySorted (spec_ranks_before freq)
         (@extract_keywords_from_texts ascii_runtime texts 8 1).
Proof.
  cbv zeta.
  split; [vm_compute; reflexivity|]. split; [vm_compute; reflexivity|].
  split; [|split].
  - right. split; [vm_compute; reflexivity|]. left. vm_compute. lia.
  - right. split; [vm_compute; reflexivity|]. right.
    split; vm_compute; reflexivity.
  - intros Hsorted.
    assert (@extract_keywords_from_texts ascii_runtime [py "abc abcd abd"]
              8 1 = [py "abd"; py "abc"; py "abcd"]) as Heq
      by (vm_compute; reflexivity).
    rewrite Heq in Hsorted. clear Heq.
    apply StronglySorted_inv in Hsorted as [_ Hfirst].
    apply Forall_inv in Hfirst.
    destruct Hfirst as [Hlt|[_ [Hlen|[_ Hlex]]]].
    + vm_compute in Hlt. discriminate.
    + vm_compute in Hlen. lia.
    + vm_compute in Hlex. discriminate.
Qed.

(** ** Style context block *)

(** The cut keeps at most 800 characters and then appends the ellipsis:
    the block never has more than 801 characters. *)
Lemma style_context_block_bound `{Calendar} (selected : list ScrapedTweet) :
  (length (style_context_block selected) <= 801)%nat.
Proof.
  unfold style_context_block. cbv zeta.
  destruct (800 <? length _)%nat eqn:Hlong.
  - rewrite length_app.
    match goal with
    | |- context [Str.rstrip ?cut] => pose proof (rstrip_length cut) as Hrs
    end.
    rewrite length_take in Hrs. change (length [8230%N]) with 1%nat. lia.
  - apply Nat.ltb_ge in Hlong. lia.
Qed.

(** C9 fails on the code.  For four posts of 220 characters each the lines
    add up to 989 characters; the block is cut to 800 characters, none of
    them white space at the end, and the ellipsis makes 801. *)
Theorem style_context_block_overshoots :
  let block :=
    fst (@build_style_snapshot ascii_runtime blank_calendar
           four_long_posts [py "me"] 5) in
  length block = 801%nat
  /\ last block = Some 8230%N
  /\ block = @style_context_block blank_calendar four_long_posts.
Proof. vm_compute. repeat split. Qed.

(** ** The action decision *)

(** C7.  With the decision logic enabled and no structured recommendation,
    [_decide_competitor_action] answers [quote_tweet] if the relevance
    reaches the quote threshold and the sentiment is positive or neutral;
    else [retweet] if it reaches the retweet threshold and the sentiment is
    positive or neutral; else [repost] if it reaches the repost threshold,
    whatever the sentiment; else [like].  So with any other sentiment the
    answer is [repost] or [like], decided by the repost threshold alone. *)
Theorem fallback_decision_cascade
    `{UnicodeData} {World : Type} `{!TweetAnalyzer World}
    cfg tweet account (w w1 w2 w3 : World) rel sentiment :
  decision_enabled cfg account = true ->
  analyze_tweet_structured tweet (target_keywords account) w
    = (Returns None, w1) ->
  score_relevance tweet (target_keywords account) w1 = (Returns rel, w2) ->
  fallback_sentiment (use_sentiment cfg account) tweet w2 = (sentiment, w3) ->
  let quote_min :=
    threshold account decision_quote_min (cfg_quote_min cfg) 0.75%float in
  let retweet_min :=
    threshold account decision_retweet_min (cfg_retweet_min cfg) 0.5%float in
  let repost_min :=
    threshold account decision_repost_min (cfg_repost_min cfg) 0.35%float in
  let positive_or_neutral :=
    sentiment = py "positive" \/ sentiment = py "neutral" in
  exists action,
    _decide_competitor_action cfg tweet account w = (Returns action, w3)
    /\ (PrimFloat.leb quote_min rel = true /\ positive_or_neutral ->
        action = quote_tweet)
    /\ (~ (PrimFloat.leb quote_min rel = true /\ positive_or_neutral) ->
        PrimFloat.leb retweet_min rel = true /\ positive_or_neutral ->
        action = retweet)
    /\ (~ (PrimFloat.leb quote_min rel = true /\ positive_or_neutral) ->
        ~ (PrimFloat.leb retweet_min rel = true /\ positive_or_neutral) ->
        PrimFloat.leb repost_min rel = true ->
        action = repost)
    /\ (~ (PrimFloat.leb quote_min rel = true /\ positive_or_neutral) ->
        ~ (PrimFloat.leb retweet_min rel = true /\ positive_or_neutral) ->
        PrimFloat.leb repost_min rel = false ->
        action = like)
    /\ (~ positive_or_neutral ->
        action = if PrimFloat.leb repost_min rel then repost else like).
Proof.
  intros Henabled Hstructured Hrel Hsentiment quote_min retweet_min
    repost_min positive_or_neutral.
  eexists. split.
  { unfold _decide_competitor_action. cbv zeta.
    rewrite Henabled. cbn [negb]. rewrite Hstructured, Hrel, Hsentiment.
    reflexivity. }
  fold quote_min retweet_min repost_min. unfold threshold_action.
  assert (favorable sentiment = true <-> positive_or_neutral) as Hfav.
  { unfold favorable, positive_or_neutral.
    by rewrite orb_true_iff, !bool_decide_eq_true. }
  destruct (favorable sentiment).
  - assert positive_or_neutral as Hpn by by apply Hfav.
    rewrite !andb_true_r.
    destruct (PrimFloat.leb quote_min rel), (PrimFloat.leb retweet_min rel),
      (PrimFloat.leb repost_min rel); intuition congruence.
  - assert (~ positive_or_neutral) as Hpn.
    { intros Hpn. by apply Hfav in Hpn. }
    rewrite !andb_false_r.
    destruct (PrimFloat.leb repost_min rel); intuition congruence.
Qed.

(** Relevance 0.6 with a negative sentiment and the default thresholds: the
    quote and retweet thresholds do not apply, the answer is [repost]. *)
Lemma fallback_decision_cascade_witness :
  exists action,
    @_decide_competitor_action ascii_runtime unit negative_analyzer
      deciding_cfg (mk_tweet "5" "New robotics demo" "lab") deciding_account
      tt
    = (Returns action, tt)
    /\ action = repost.
Proof.
  destruct (@fallback_decision_cascade ascii_runtime unit negative_analyzer
              deciding_cfg (mk_tweet "5" "New robotics demo" "lab")
              deciding_account tt tt tt tt 0.6%float (py "negative")
              eq_refl eq_refl eq_refl eq_refl)
    as (action & Hrun & _ & _ & _ & _ & Hneg).
  exists action. split; [exact Hrun|].
  rewrite Hneg; [reflexivity|].
  intros [Hpos|Hneu]; discriminate.
Defined.

(** ** The backend router *)

Section RouterFacts.
Context {World : Type} `{!Backends World}.

(** One pass of the loop: a service that is not usable is passed over
    without an invocation; a usable one is invoked once, and either its
    text is returned or its failure is recorded. *)
Lemma try_service_spec self service_name prepared prompt system_prompt
    messages call_params (w : World) outcome invoked w' :
  prepare_params self service_name call_params = Returns prepared ->
  try_service self service_name prepared prompt system_prompt messages w
    = (outcome, invoked, w') ->
  if usable self call_params service_name then
    exists r,
      invoked = [(service_name, r)]
      /\ ((exists text, r = Returns text /\ outcome = Returns (Some text))
          \/ (exists e, r = Raised e /\ outcome = Raised e))
  else invoked = [] /\ outcome = Returns None.
Proof.
  unfold try_service, usable, azure_deployment. intros Hprep Hrun.
  destruct prepared as [fp media].
  destruct (decide (service_name = py "gemini")) as [->|Hg].
  { rewrite (bool_decide_eq_true_2 _ eq_refl) in Hrun. cbn [andb] in Hrun.
    destruct (gemini_client self).
    - destruct (pop_model fp _) as [m fp'].
      destruct (gemini_ainvoke _ w) as [[content|e] w1]; simplify_eq;
        eexists; split; eauto.
    - rewrite !(bool_decide_eq_false_2 _) in Hrun by done.
      cbn [andb] in Hrun. by simplify_eq. }
  rewrite (bool_decide_eq_false_2 _ Hg) in Hrun. cbn [andb] in Hrun.
  destruct (decide (service_name = py "azure")) as [->|Ha].
  { rewrite (bool_decide_eq_true_2 _ eq_refl) in Hrun. cbn [andb] in Hrun.
    rewrite Hprep.
    destruct (azure_openai_client self); cbn [andb].
    - destruct (pop_model fp _) as [deployment fp']. cbn [fst].
      destruct (missing deployment); cbn [negb]; [by simplify_eq|].
      destruct (azure_create _ w) as [[choices|e] w1];
        [destruct (first_choice_stripped choices)|]; simplify_eq;
        eexists; split; eauto.
    - rewrite !(bool_decide_eq_false_2 _) in Hrun by done.
      cbn [andb] in Hrun. by simplify_eq. }
  rewrite (bool_decide_eq_false_2 _ Ha) in Hrun. cbn [andb] in Hrun.
  destruct (decide (service_name = py "openai")) as [->|Ho].
  - rewrite (bool_decide_eq_true_2 _ eq_refl) in Hrun. cbn [andb] in Hrun.
    destruct (openai_client self); [|by simplify_eq].
    destruct (pop_model fp _) as [m fp'].
    destruct (openai_create _ w) as [[choices|e] w1];
      [destruct (first_choice_stripped choices)|]; simplify_eq;
      eexists; split; eauto.
  - rewrite (bool_decide_eq_false_2 _ Ho) in Hrun. cbn [andb] in Hrun.
    by simplify_eq.
Qed.

(** The loop: the names [tried] are those whose pass was completed. *)
Lemma try_services_spec self prompt system_prompt messages call_params
    services :
  forall (w : World) res log w',
    try_services self services prompt system_prompt messages call_params w
      = (res, log, w') ->
    exists tried,
      tried `prefix_of` services
      /\ List.map fst log = List.filter (usable self call_params) tried
      /\ match res with
         | Returns None => tried = services /\ Forall failed log
         | Returns (Some text) =>
             exists pre service_name,
               log = pre ++ [(service_name, Returns text)]
               /\ Forall failed pre
               /\ last tried = Some service_name
         | Raised e =>
             Forall failed log
             /\ exists service_name,
                  (tried ++ [service_name]) `prefix_of` services
                  /\ prepare_params self service_name call_params = Raised e
         end.
Proof.
  induction services as [|service_name rest IH]; intros w res log w' Hrun;
    simpl in Hrun.
  { simplify_eq. exists []. simpl. split; [done|]. split; [done|].
    split; [done|constructor]. }
  destruct (prepare_params self service_name call_params) as [prepared|e]
    eqn:Hprep.
  2:{ simplify_eq. exists []. simpl. split; [apply prefix_nil|].
      split; [done|]. split; [constructor|].
      exists service_name. split; [|done]. by apply prefix_cons, prefix_nil. }
  destruct (try_service self service_name prepared prompt system_prompt
              messages w) as [[outcome invoked] w1] eqn:Hone.
  apply (try_service_spec _ _ _ _ _ _ call_params _ _ _ _ Hprep) in Hone.
  assert (forall res1 log1 w2,
            try_services self rest prompt system_prompt messages call_params
              w1 = (res1, log1, w2) ->
            (res1, invoked ++ log1, w2) = (res, log, w') ->
            Forall failed invoked ->
            List.map fst invoked
            = List.filter (usable self call_params) [service_name] ->
            exists tried,
              tried `prefix_of` service_name :: rest
              /\ List.map fst log = List.filter (usable self call_params) tried
              /\ match res with
                 | Returns None =>
                     tried = service_name :: rest /\ Forall failed log
                 | Returns (Some text) =>
                     exists pre name,
                       log = pre ++ [(name, Returns text)]
                       /\ Forall failed pre
                       /\ last tried = Some name
                 | Raised e =>
                     Forall failed log
                     /\ exists name,
                          (tried ++ [name]) `prefix_of` service_name :: rest
                          /\ prepare_params self name call_params = Raised e
                 end) as Hnext.
  { intros res1 log1 w2 Hrest Heq Hfailed Hnames. simplify_eq.
    apply IH in Hrest as (tried & Hpre & Hlog & Hres).
    exists (service_name :: tried). split; [by apply prefix_cons|].
    split.
    { rewrite map_app, Hnames, Hlog.
      change (service_name :: tried) with ([service_name] ++ tried).
      by rewrite List.filter_app. }
    destruct res as [[text|]|e].
    - destruct Hres as (pre & name & -> & Hpre_failed & Hlast).
      exists (invoked ++ pre), name. rewrite app_assoc. split; [done|].
      split; [by apply Forall_app|].
      destruct tried; [done|]. done.
    - destruct Hres as [-> Hfailed']. split; [done|]. by apply Forall_app.
    - destruct Hres as (Hfailed' & name & Hname & Hraise).
      split; [by apply Forall_app|]. exists name. split; [|done].
      simpl. by apply prefix_cons. }
  destruct (usable self call_params service_name) eqn:Husable.
  - destruct Hone as (r & -> & [(text & -> & ->)|(e & -> & ->)]).
    + simplify_eq. exists [service_name]. simpl. rewrite Husable.
      split; [by apply prefix_cons, prefix_nil|]. split; [done|].
      exists [], service_name. split; [done|]. split; [constructor|done].
    + destruct (try_services self rest _ _ _ _ w1) as [[res1 log1] w2]
        eqn:Hrest.
      eapply Hnext; [done|done| |].
      * constructor; [by exists e|constructor].
      * simpl. by rewrite Husable.
  - destruct Hone as [-> ->].
    destruct (try_services self rest _ _ _ _ w1) as [[res1 log1] w2]
      eqn:Hrest.
    eapply Hnext; [done|done|constructor|].
    simpl. by rewrite Husable.
Qed.
End RouterFacts.

(** C6.  What a backend invocation raises never reaches the caller of
    [generate_text]: it is caught, and the loop goes on to the next name in
    [services_to_try].  The names [tried] are those whose pass the loop
    completed; the backends invoked are, in order, the usable ones among
    them (known name, client instantiated, for Azure a deployment named).
    Every invocation but one that returns the text has failed.  [None] is
    returned only when every name was tried, so that every usable service
    has been invoked and has failed.  The one exception that can reach the
    caller is raised outside the [try], before any invocation of the
    service concerned: the [AttributeError] or [TypeError] of a settings
    entry under the next name that is not a dict. *)
Theorem router_falls_back_until_exhausted
    {World : Type} `{!Backends World}
    self prompt service_preference system_prompt messages call_params
    (w : World) res log w' :
  generate_text self prompt service_preference system_prompt messages
    call_params w = (res, log, w') ->
  let order := services_to_try self service_preference in
  exists tried,
    tried `prefix_of` order
    /\ List.map fst log = List.filter (usable self call_params) tried
    /\ match res with
       | Returns None => tried = order /\ Forall failed log
       | Returns (Some text) =>
           exists pre service_name,
             log = pre ++ [(service_name, Returns text)]
             /\ Forall failed pre
             /\ last tried = Some service_name
       | Raised e =>
           Forall failed log
           /\ exists service_name,
                (tried ++ [service_name]) `prefix_of` order
                /\ prepare_params self service_name call_params = Raised e
                /\ (e = py "AttributeError" \/ e = py "TypeError")
       end.
Proof.
  intros Hrun order. unfold generate_text in Hrun.
  apply try_services_spec in Hrun as (tried & Hprefix & Hlog & Hres).
  exists tried. split; [done|]. split; [done|].
  destruct res as [[text|]|e]; [done|done|].
  destruct Hres as (Hfailed & name & Hname & Hraise).
  split; [done|]. exists name. split; [done|]. split; [done|].
  unfold prepare_params in Hraise.
  destruct (service_config_of self name); try (left; congruence).
  destruct (default _ _); right; congruence.
Qed.

Lemma router_falls_back_until_exhausted_witness :
  @generate_text unit gemini_down all_clients (py "Say hi")
    (Some (py "gemini")) None None ∅ tt
  = (Returns (Some (py "from azure")),
     [(py "gemini", Raised (py "TimeoutError"));
      (py "azure", Returns (py "from azure"))], tt)
  /\ List.map fst
       [(py "azure", @Raised str (py "IndexError"));
        (py "openai", Raised (py "AttributeError"));
        (py "gemini", Raised (py "TimeoutError"))]
     = [py "azure"; py "openai"; py "gemini"]
  /\ Forall failed
       [(py "azure", @Raised str (py "IndexError"));
        (py "openai", Raised (py "AttributeError"));
        (py "gemini", Raised (py "TimeoutError"))].
Proof.
  split; [vm_compute; reflexivity|].
  assert (@generate_text unit failing_backends all_clients (py "Say hi")
            None None None ∅ tt
          = (Returns None,
             [(py "azure", Raised (py "IndexError"));
              (py "openai", Raised (py "AttributeError"));
              (py "gemini", Raised (py "TimeoutError"))], tt)) as Hrun
    by (vm_compute; reflexivity).
  apply (router_falls_back_until_exhausted (Backends0 := failing_backends))
    in Hrun as (tried & _ & Hlog & -> & Hfailed).
  split; [|exact Hfailed].
  rewrite Hlog. vm_compute. reflexivity.
Defined.

(** ** The home-timeline session *)

Section SchedulerFacts.
Context `{UnicodeData} {World : Type} `{!Platform World, !LLMService World}.

Lemma scan_post_refl plan s res :
  res <> Returns true -> scan_post plan s s res.
Proof.
  intros Hres. exists []. simpl. repeat split; try done.
  destruct res as [[]|]; repeat split; done.
Qed.

(** A failed publisher call before the rest of the scan. *)
Lemma scan_post_failed plan s s' res key t p :
  key ∉ processed_action_keys (orchestrator s) ->
  replies_sent_total p = replies_sent_total (pace s) ->
  replies_this_hour p = replies_this_hour (pace s) ->
  current_hour_start p = current_hour_start (pace s) ->
  scan_post plan (set_pace (log_event s (Published key false t)) p) s' res ->
  scan_post plan s s' res.
Proof.
  intros Hkey Htotal Hhour Hstart (new & Hev & Hkeys & Htail & Hcur & Hres).
  simpl in *. exists (new ++ [Published key false t]).
  rewrite <- app_assoc. split; [done|]. split; [|split; [|split]].
  - intros e [He|[<-|[]]]%in_app_or; [by apply Hkeys|done].
  - destruct new as [|e new]; simpl in *; [constructor|].
    apply Forall_app. split; [done|]. by repeat constructor.
  - congruence.
  - destruct res as [[]|].
    + destruct Hres as ((k & t' & Hhead & Hk) & Hrest). split.
      * exists k, t'. split; [|done].
        destruct new; [done|]. done.
      * rewrite <- Htotal, <- Hhour. done.
    + destruct Hres as (Hall & Ho & Ht & Hh). repeat split; try congruence.
      apply Forall_app. split; [done|]. by repeat constructor.
    + destruct Hres as (Hall & Ho & Ht & Hh). repeat split; try congruence.
      apply Forall_app. split; [done|]. by repeat constructor.
Qed.

Lemma scan_batch_post plan account logged_in_handle candidates :
  forall s (w : World) res s' w',
    scan_batch plan account logged_in_handle candidates s w = (res, s', w') ->
    scan_post plan s s' res.
Proof.
  induction candidates as [|candidate rest IH]; intros s w res s' w' Hrun;
    simpl in Hrun.
  { simplify_eq. by apply scan_post_refl. }
  destruct (_ || _) eqn:Hcaps.
  { simplify_eq. by apply scan_post_refl. }
  apply orb_false_iff in Hcaps as [Hhour%Z.leb_gt Htotal%Z.leb_gt].
  destruct (tweet_id candidate) as [[|c id]|]; [by eapply IH| |by eapply IH].
  destruct (_ && _); [by eapply IH|].
  destruct (decide (_ ∈ _)) as [|Hfresh]; [by eapply IH|].
  destruct (generate_guarded_reply _ _ _ _ _ w) as [[generated calls] w1].
  destruct generated as [[[[|c0 text]|] md]|]; try by eapply IH.
  destruct (is_empty _); [by eapply IH|].
  unfold now in Hrun. cbv zeta in Hrun.
  destruct (reply_to_tweet _ _ _) as [[success|e] w3].
  - destruct (uniform _ _ _) as [delay w5].
    destruct success.
    + simplify_eq.
      eexists [_]. simpl. repeat split; try done.
      * intros e [<-|[]]. done.
      * do 2 eexists. split; [done|].
        split; [set_solver|].
        unfold load_processed_action_keys, save_processed_action_key.
        rewrite map_app. set_solver.
      * set_solver.
      * by eexists.
    + eapply scan_post_failed; [done| | | |by eapply IH]; done.
  - simplify_eq. eexists [_]. simpl. repeat split; try done.
    + intros e' [<-|[]]. done.
    + by repeat constructor.
Qed.
End SchedulerFacts.

Lemma successful_replies_app (a b : list Event) :
  successful_replies (a ++ b) = (successful_replies a + successful_replies b)%nat.
Proof. unfold successful_replies. by rewrite List.filter_app, length_app. Qed.

Lemma successful_replies_failed (l : list Event) :
  Forall (fun e => is_success e = false) l -> successful_replies l = 0%nat.
Proof.
  unfold successful_replies. induction 1 as [|e l He _ IH]; simpl; [done|].
  by rewrite He.
Qed.

Lemma acted_once_failed (l : list Event) :
  Forall (fun e => is_success e = false) l -> acted_once l.
Proof.
  induction 1 as [|e l He Hl IH]; simpl; [done|]. split; [|done].
  intros e' Hin Hs. rewrite List.Forall_forall in Hl.
  rewrite (Hl e' Hin) in Hs. discriminate.
Qed.

Lemma acted_once_app (later earlier : list Event) :
  acted_once later -> acted_once earlier ->
  (forall e e', In e later -> In e' earlier -> is_success e' = true ->
                event_key e' <> event_key e) ->
  acted_once (later ++ earlier).
Proof.
  induction later as [|e later IH]; simpl; [done|].
  intros [Hfirst Hlater] Hearlier Hcross. split.
  - intros e' [Hin|Hin]%in_app_or Hs; [by apply Hfirst|].
    apply (Hcross e e'); auto.
  - apply IH; [done|done|]. intros e1 e2 Hin. apply Hcross. by right.
Qed.

Lemma load_save_prefix (file more : list (str * Q)) (k : str) :
  k ∈ load_processed_action_keys file ->
  k ∈ load_processed_action_keys (file ++ more).
Proof.
  unfold load_processed_action_keys. rewrite map_app. set_solver.
Qed.

Section SessionFacts.
Context `{UnicodeData} {World : Type} `{!Platform World, !LLMService World}.

Lemma session_rel_same plan s s' :
  events s' = events s -> orchestrator s' = orchestrator s ->
  replies_sent_total (pace s') = replies_sent_total (pace s) ->
  session_rel plan s s'.
Proof.
  intros Hev Ho Ht. exists []. cbv zeta. rewrite Ho, Ht. simpl.
  split; [done|]. split; [by intros e []|]. split; [done|].
  split; [by exists []; rewrite app_nil_r|].
  split; [unfold successful_replies; simpl; lia|]. split; [done|].
  split; [by intros e []|done].
Qed.

Lemma session_rel_trans plan s1 s2 s3 :
  session_rel plan s1 s2 -> session_rel plan s2 s3 -> session_rel plan s1 s3.
Proof.
  intros (new1 & Hev1 & Hk1 & Hsub1 & [more1 Hf1] & Ht1 & Hc1 & Hr1 & Ha1)
         (new2 & Hev2 & Hk2 & Hsub2 & [more2 Hf2] & Ht2 & Hc2 & Hr2 & Ha2).
  exists (new2 ++ new1). cbv zeta in *.
  split; [by rewrite Hev2, Hev1, app_assoc|].
  split; [|split; [|split; [|split; [|split; [|split]]]]].
  - intros e [Hin|Hin]%in_app_or; [|by apply Hk1].
    intros Hin'. by apply (Hk2 e Hin), Hsub1.
  - set_solver.
  - exists (more1 ++ more2). by rewrite Hf2, Hf1, app_assoc.
  - rewrite successful_replies_app. lia.
  - auto.
  - intros e [Hin|Hin]%in_app_or Hs; [by apply Hr2|].
    destruct (Hr1 e Hin Hs) as [Hkey Hload]. split; [by apply Hsub2|].
    rewrite Hf2. by apply load_save_prefix.
  - apply acted_once_app; [done|done|].
    intros e e' Hin Hin' Hs Heq.
    apply (Hk2 e Hin). rewrite <- Heq. by apply Hr1.
Qed.

Lemma scan_post_session_rel plan s s' res :
  scan_post plan s s' res -> session_rel plan s s'.
Proof.
  intros (new & Hev & Hkeys & Htail & _ & Hres). exists new. cbv zeta in *.
  split; [done|]. split; [done|].
  assert (acted_once new) as Hacted.
  { destruct new as [|e new]; [done|]. simpl in *. split.
    - intros e' Hin Hs. rewrite List.Forall_forall in Htail.
      rewrite (Htail e' Hin) in Hs. discriminate.
    - by apply acted_once_failed. }
  assert (forall b, res = Returns b -> b <> true \/ True) as _ by tauto.
  destruct res as [[]|].
  - destruct Hres
      as ((k & t & Hhead & Hk & Hload) & Hsub & Hfile & Ht & Hh & Hcap & _).
    destruct new as [|e new]; [done|]. simpl in Hhead, Htail. simplify_eq.
    split; [done|]. split; [done|].
    split.
    { change (Published k true t :: new) with ([Published k true t] ++ new).
      rewrite successful_replies_app, (successful_replies_failed new) by done.
      simpl. lia. }
    split; [lia|]. split; [|done].
    intros e' [<-|Hin] Hs; [done|].
    rewrite List.Forall_forall in Htail. rewrite (Htail e' Hin) in Hs.
    discriminate.
  - destruct Hres as (Hall & -> & Ht & Hh).
    split; [done|]. split; [by exists []; rewrite app_nil_r|].
    rewrite (successful_replies_failed new) by done.
    split; [lia|]. split; [lia|]. split; [|done].
    intros e' Hin Hs. rewrite List.Forall_forall in Hall.
    rewrite (Hall e' Hin) in Hs. discriminate.
  - destruct Hres as (Hall & -> & Ht & Hh).
    split; [done|]. split; [by exists []; rewrite app_nil_r|].
    rewrite (successful_replies_failed new) by done.
    split; [lia|]. split; [lia|]. split; [|done].
    intros e' Hin Hs. rewrite List.Forall_forall in Hall.
    rewrite (Hall e' Hin) in Hs. discriminate.
Qed.

Lemma session_loop_rel plan account logged_in_handle fuel :
  forall s (w : World) res s' w',
    session_loop plan account logged_in_handle fuel s w = Some (res, s', w') ->
    session_rel plan s s'.
Proof.
  induction fuel as [|fuel IH]; intros s w res s' w' Hrun; simpl in Hrun.
  { destruct (_ <=? _); [|done]. simplify_eq. by apply session_rel_same. }
  destruct (total_cap plan <=? _).
  { simplify_eq. by apply session_rel_same. }
  unfold now in Hrun. cbv zeta in Hrun.
  destruct (qle (session_end plan) _).
  { simplify_eq. by apply session_rel_same. }
  set (p := if qle 3600 _ then _ else pace s) in Hrun.
  assert (replies_sent_total p = replies_sent_total (pace s)) as Hp.
  { subst p. by destruct (qle 3600 _). }
  destruct (replies_per_hour plan <=? replies_this_hour p).
  - destruct (qle (_ - _) 0).
    { simplify_eq. by apply session_rel_same. }
    destruct (qle _ 0); apply IH in Hrun;
      (eapply session_rel_trans; [|exact Hrun]);
      by apply session_rel_same.
  - destruct (scrape_home_timeline _ _) as [[[|tweet tweets]|e] w1].
    + simplify_eq. by apply session_rel_same.
    + destruct (keyed_by_score _) as [keyed|e];
        [|simplify_eq; by apply session_rel_same].
      destruct (scan_batch _ _ _ _ _ w1) as [[[made|e] s1] w2] eqn:Hscan.
      * apply scan_batch_post, scan_post_session_rel in Hscan.
        assert (session_rel plan s s1) as Hs1.
        { eapply session_rel_trans; [|exact Hscan].
          by apply session_rel_same. }
        destruct made; [|by simplify_eq].
        apply IH in Hrun. by eapply session_rel_trans.
      * apply scan_batch_post, scan_post_session_rel in Hscan.
        simplify_eq. eapply session_rel_trans; [|exact Hscan].
        by apply session_rel_same.
    + simplify_eq. by apply session_rel_same.
Qed.
End SessionFacts.

Section SessionTermination.
Context `{UnicodeData} {World : Type} `{!Platform World, !LLMService World}.

Lemma session_loop_terminates plan account logged_in_handle fuel :
  1 <= replies_per_hour plan ->
  forall s (w : World),
    passes_left plan s <= Z.of_nat fuel ->
    is_Some (session_loop plan account logged_in_handle fuel s w).
Proof.
  intros Hper. unfold passes_left.
  induction fuel as [|fuel IH]; intros s w Hfuel; simpl.
  { destruct (total_cap plan <=? _) eqn:Hcap; [done|].
    apply Z.leb_gt in Hcap. destruct (_ <=? _); lia. }
  destruct (total_cap plan <=? _) eqn:Hcap; [done|].
  apply Z.leb_gt in Hcap.
  unfold now. cbv zeta.
  destruct (qle (session_end plan) _); [done|].
  set (p := if qle 3600 _ then _ else pace s).
  assert (replies_sent_total p = replies_sent_total (pace s)) as Hp.
  { subst p. by destruct (qle 3600 _). }
  assert (replies_per_hour plan <= replies_this_hour p ->
          replies_per_hour plan <= replies_this_hour (pace s)) as Hhour.
  { subst p. destruct (qle 3600 _); simpl; lia. }
  destruct (replies_per_hour plan <=? replies_this_hour p) eqn:Hcool.
  - apply Z.leb_le in Hcool. specialize (Hhour Hcool).
    rewrite (proj2 (Z.leb_le _ _) Hhour) in Hfuel.
    destruct (qle (_ - _) 0); [done|].
    destruct (qle _ 0); apply IH; simpl;
      (destruct (replies_per_hour plan <=? 0) eqn:Hzero;
       [apply Z.leb_le in Hzero; lia|lia]).
  - destruct (scrape_home_timeline _ _) as [[[|tweet tweets]|e] w1];
      [done| |done].
    destruct (keyed_by_score _) as [keyed|e]; [|done].
    destruct (scan_batch _ _ _ _ _ w1) as [[[made|e] s1] w2] eqn:Hscan;
      [|done].
    destruct made; [|done].
    apply scan_batch_post in Hscan
      as (new & _ & _ & _ & _ & _ & _ & _ & Ht & Hh & _).
    simpl in Ht, Hh. apply IH. rewrite Ht, Hp.
    destruct (replies_per_hour plan <=? replies_this_hour (pace s1));
      destruct (replies_per_hour plan <=? replies_this_hour (pace s));
      lia.
Qed.
End SessionTermination.

(** *** Pacing *)

Lemma qle_spec (a b : Q) : qle a b = true <-> (a <= b)%Q.
Proof. apply Qle_bool_iff. Qed.

Lemma qlt_spec (a b : Q) : qlt a b = true <-> (a < b)%Q.
Proof.
  unfold qlt. rewrite negb_true_iff. split.
  - intros Hnle. apply Qnot_le_lt. intros Hle.
    apply Qle_bool_iff in Hle. congruence.
  - intros Hlt. destruct (Qle_bool b a) eqn:Hle; [|done].
    apply Qle_bool_iff in Hle. by apply Qlt_not_le in Hlt.
Qed.

Lemma spacing_min_positive (per_hour min_delay : Z) :
  1 <= per_hour -> (0 < spacing_min per_hour min_delay)%Q.
Proof.
  intros Hper. unfold spacing_min. cbv zeta.
  eapply Qlt_le_trans; [|apply Q.le_max_r].
  apply Qlt_shift_div_l.
  - change (inject_Z 0 < inject_Z per_hour)%Q. rewrite <- Zlt_Qlt. lia.
  - rewrite Qmult_0_l. reflexivity.
Qed.

(** [per_hour] replies spaced by [spacing_min] fill an hour or more. *)
Lemma spacing_min_fills_hour (per_hour min_delay : Z) :
  1 <= per_hour ->
  (3600 <= inject_Z per_hour * spacing_min per_hour min_delay)%Q.
Proof.
  intros Hper. unfold spacing_min. cbv zeta.
  assert (0 < inject_Z per_hour)%Q as Hpos.
  { change (inject_Z 0 < inject_Z per_hour)%Q. rewrite <- Zlt_Qlt. lia. }
  eapply Qle_trans;
    [|apply Qmult_le_l; [exact Hpos|apply Q.le_max_r]].
  rewrite Qmult_div_r; [apply Qle_refl|].
  intros Hzero. rewrite Hzero in Hpos. by apply Qlt_irrefl in Hpos.
Qed.

Lemma spacing_min_le_max (d : Q) (max_delay : Z) :
  (0 <= d)%Q -> (d <= spacing_max d max_delay)%Q.
Proof.
  intros Hd. unfold spacing_max. cbv zeta.
  pose proof (Q.le_max_l 30 (d * 0.15)) as H30.
  pose proof (Q.le_max_l 5 (d * 0.05)) as H5.
  destruct (qlt (inject_Z max_delay) d) eqn:Hlt.
  - destruct (qlt _ 1); lra.
  - destruct (qlt _ 1) eqn:Hnarrow; [lra|].
    destruct (Qlt_le_dec (inject_Z max_delay) d) as [Hcontra|Hle]; [|done].
    apply qlt_spec in Hcontra. congruence.
Qed.

(** Rounding to the nearest integer loses at most a half, and does not go
    below an integer the number has reached. *)
Lemma round_half_even_lower (x : Q) :
  (x - (1 # 2) <= inject_Z (round_half_even x))%Q.
Proof.
  unfold round_half_even. cbv zeta.
  pose proof (Qfloor_le x) as Hfloor.
  pose proof (Qlt_floor x) as Hceil.
  rewrite inject_Z_plus in Hceil. change (inject_Z 1) with 1%Q in Hceil.
  destruct (qlt (x - inject_Z (Qfloor x)) (1 # 2)) eqn:Hsmall.
  { apply qlt_spec in Hsmall. lra. }
  destruct (qlt (1 # 2) (x - inject_Z (Qfloor x))) eqn:Hlarge.
  { rewrite inject_Z_plus. change (inject_Z 1) with 1%Q. lra. }
  assert (x - inject_Z (Qfloor x) <= 1 # 2)%Q as Hle.
  { destruct (Qlt_le_dec (1 # 2) (x - inject_Z (Qfloor x))) as [Hlt|Hle];
      [|done].
    apply qlt_spec in Hlt. congruence. }
  destruct (Z.even _).
  - lra.
  - rewrite inject_Z_plus. change (inject_Z 1) with 1%Q. lra.
Qed.

Lemma round_half_even_floor (x : Q) : Qfloor x <= round_half_even x.
Proof.
  unfold round_half_even. cbv zeta.
  destruct (qlt _ (1 # 2)); [lia|].
  destruct (qlt (1 # 2) _); [lia|].
  destruct (Z.even _); lia.
Qed.

Lemma timedelta_seconds_lower (d : Q) :
  (d - (1 # 2000000) <= timedelta_seconds d)%Q.
Proof.
  unfold timedelta_seconds.
  pose proof (round_half_even_lower (d * 1000000)) as Hlower.
  apply Qle_shift_div_l; [reflexivity|]. lra.
Qed.

Lemma timedelta_seconds_whole (k : Z) (d : Q) :
  (inject_Z k <= d)%Q -> (inject_Z k <= timedelta_seconds d)%Q.
Proof.
  intros Hk. unfold timedelta_seconds.
  apply Qle_shift_div_l; [reflexivity|].
  assert (inject_Z (k * 1000000) <= d * 1000000)%Q as Hscaled.
  { rewrite inject_Z_mult. change (inject_Z 1000000) with 1000000%Q. lra. }
  apply Qfloor_resp_le in Hscaled. rewrite Qfloor_Z in Hscaled.
  pose proof (round_half_even_floor (d * 1000000)) as Hfloor.
  assert (k * 1000000 <= round_half_even (d * 1000000)) as Hle by lia.
  rewrite Zle_Qle, inject_Z_mult in Hle.
  change (inject_Z 1000000) with 1000000%Q in Hle. exact Hle.
Qed.

(** The pause after an attempt is [least_pause] or more. *)
Lemma least_pause_kept (per_hour min_delay : Z) (delay : Q) :
  (spacing_min per_hour min_delay <= delay)%Q ->
  (least_pause per_hour min_delay <= timedelta_seconds delay)%Q.
Proof.
  unfold spacing_min, least_pause. cbv zeta. intros Hdelay.
  apply Q.max_lub.
  - apply timedelta_seconds_whole.
    eapply Qle_trans; [apply Q.le_max_l|exact Hdelay].
  - eapply Qle_trans; [|apply timedelta_seconds_lower].
    pose proof (Q.le_max_r (inject_Z min_delay) (3600 / inject_Z per_hour))
      as Hmax.
    lra.
Qed.

(** [per_hour] pauses fill 3599 seconds or more, and each of them lasts ten
    seconds or more. *)
Lemma least_pause_fills (per_hour min_delay : Z) :
  1 <= per_hour -> 10 <= min_delay ->
  (10 <= least_pause per_hour min_delay)%Q
  /\ (3599 <= inject_Z per_hour * least_pause per_hour min_delay)%Q.
Proof.
  intros Hper Hmin. unfold least_pause.
  pose proof (Q.le_max_l (inject_Z min_delay)
                (3600 / inject_Z per_hour - (1 # 2000000))) as Hleft.
  pose proof (Q.le_max_r (inject_Z min_delay)
                (3600 / inject_Z per_hour - (1 # 2000000))) as Hright.
  set (d := Qmax _ _) in *.
  assert (10 <= inject_Z min_delay)%Q as Hten.
  { change 10%Q with (inject_Z 10). by rewrite <- Zle_Qle. }
  split; [lra|].
  destruct (Z_le_gt_dec 360 per_hour) as [Hmany|Hfew].
  - assert (360 <= inject_Z per_hour)%Q as Hn.
    { change 360%Q with (inject_Z 360). by rewrite <- Zle_Qle. }
    nra.
  - assert (1 <= inject_Z per_hour)%Q as Hlo.
    { change 1%Q with (inject_Z 1). by rewrite <- Zle_Qle. }
    assert (inject_Z per_hour <= 359)%Q as Hhi.
    { change 359%Q with (inject_Z 359). rewrite <- Zle_Qle. lia. }
    assert (inject_Z per_hour * (3600 / inject_Z per_hour) == 3600)%Q
      as Hfill.
    { apply Qmult_div_r. lra. }
    set (x := (3600 / inject_Z per_hour)%Q) in *.
    nra.
Qed.

(** Inserting a time that is [d] after the latest one keeps the spacing. *)
Lemma spaced_cons (d t : Q) (times : list Q) :
  spaced d times ->
  match times with latest :: _ => (latest + d <= t)%Q | [] => True end ->
  spaced d (t :: times).
Proof. destruct times; simpl; tauto. Qed.

Lemma set_pace_twice (s : Session) (p : Pace) :
  set_pace (set_pace s p) p = set_pace s p.
Proof. reflexivity. Qed.

Section SessionPacing.
Context `{UnicodeData} {World : Type} `{!Platform World, !LLMService World}.
Context (laws : PlatformLaws World).

(** After the pacing wait the clock has reached [next_reply_earliest]. *)
Lemma pacing_wait_reaches (earliest : Q) (w : World) :
  let now_for_pacing := clock w in
  let w' :=
    if qlt now_for_pacing earliest then
      if qlt 0 (earliest - now_for_pacing)%Q
      then sleep (earliest - now_for_pacing)%Q w
      else w
    else w in
  (earliest <= clock w')%Q.
Proof.
  cbv zeta. destruct (qlt (clock w) earliest) eqn:Hearly.
  - apply qlt_spec in Hearly.
    destruct (qlt 0 _) eqn:Hwait.
    + pose proof (sleep_clock laws (earliest - clock w)%Q w). lra.
    + assert (0 < earliest - clock w)%Q as Hpos by lra.
      apply qlt_spec in Hpos. congruence.
  - destruct (Qlt_le_dec (clock w) earliest) as [Hlt|Hle]; [|done].
    apply qlt_spec in Hlt. congruence.
Qed.

Lemma scan_batch_paced plan account logged_in_handle candidates (d : Q) :
  (0 <= d)%Q ->
  (spacing_min_seconds plan <= spacing_max_seconds plan)%Q ->
  (forall delay,
     (spacing_min_seconds plan <= delay)%Q ->
     (d <= timedelta_seconds delay)%Q) ->
  forall s (w : World) res s' w',
    paced d s ->
    scan_batch plan account logged_in_handle candidates s w = (res, s', w') ->
    paced d s'.
Proof.
  intros Hd Hmax Hpause.
  induction candidates as [|candidate rest IH]; intros s w res s' w' Hs Hrun;
    simpl in Hrun.
  { by simplify_eq. }
  destruct (_ || _); [by simplify_eq|].
  destruct (tweet_id candidate) as [[|c id]|]; [by eapply IH| |by eapply IH].
  destruct (_ && _); [by eapply IH|].
  destruct (decide (_ ∈ _)); [by eapply IH|].
  destruct (generate_guarded_reply _ _ _ _ _ w) as [[generated calls] w1].
  destruct generated as [[[[|c0 text]|] md]|]; try by eapply IH.
  destruct (is_empty _); [by eapply IH|].
  unfold now in Hrun. cbv zeta in Hrun.
  pose proof (pacing_wait_reaches (next_reply_earliest (pace s)) (tick w1))
    as Hreached. cbv zeta in Hreached.
  set (ready := if qlt (clock (tick w1)) _ then _ else tick w1) in *.
  pose proof (reply_clock laws candidate
                (Str.rstrip (take 270 (c0 :: text))) ready) as Hreply.
  destruct (reply_to_tweet _ _ ready) as [[success|e] w3].
  - simpl in Hreply.
    pose proof (tick_clock laws w3) as Htick.
    pose proof (uniform_lower laws (spacing_min_seconds plan)
                  (spacing_max_seconds plan) (tick w3) Hmax) as Hdelay.
    destruct (uniform _ _ (tick w3)) as [delay w5]. simpl in Hdelay.
    apply Hpause in Hdelay.
    assert (paced d
              (set_pace
                 (log_event s
                    (Published (action_key account (c :: id)) success
                       (clock (tick w3))))
                 {| replies_sent_total :=
                      if success then replies_sent_total (pace s) + 1
                      else replies_sent_total (pace s);
                    replies_this_hour :=
                      if success then replies_this_hour (pace s) + 1
                      else replies_this_hour (pace s);
                    current_hour_start := current_hour_start (pace s);
                    next_reply_earliest :=
                      (clock (tick w3) + timedelta_seconds delay)%Q |}))
      as Hnext.
    { destruct Hs as [Hspaced Hlatest]. split; simpl.
      - apply spaced_cons; [done|].
        destruct (event_times (events s)); [done|]. lra.
      - lra. }
    destruct success.
    + simplify_eq. exact Hnext.
    + eapply IH; [exact Hnext|exact Hrun].
  - simplify_eq. exact Hs.
Qed.

Lemma session_loop_paced plan account logged_in_handle fuel (d : Q) :
  (0 <= d)%Q ->
  (spacing_min_seconds plan <= spacing_max_seconds plan)%Q ->
  (forall delay,
     (spacing_min_seconds plan <= delay)%Q ->
     (d <= timedelta_seconds delay)%Q) ->
  forall s (w : World) res s' w',
    paced d s ->
    session_loop plan account logged_in_handle fuel s w = Some (res, s', w') ->
    paced d s'.
Proof.
  intros Hd Hmax Hpause.
  induction fuel as [|fuel IH]; intros s w res s' w' Hs Hrun; simpl in Hrun.
  { destruct (_ <=? _); [|done]. by simplify_eq. }
  destruct (total_cap plan <=? _); [by simplify_eq|].
  unfold now in Hrun. cbv zeta in Hrun.
  destruct (qle (session_end plan) _); [by simplify_eq|].
  set (p := if qle 3600 _ then _ else pace s) in Hrun.
  assert (next_reply_earliest p = next_reply_earliest (pace s)) as Hp.
  { subst p. by destruct (qle 3600 _). }
  assert (forall p', (next_reply_earliest (pace s) <= next_reply_earliest p')%Q
                     -> paced d (set_pace (set_pace s p) p')) as Hkeep.
  { intros p' Hle. destruct Hs as [Hspaced Hlatest]. split; simpl; [done|].
    destruct (event_times (events s)); [done|]. lra. }
  destruct (replies_per_hour plan <=? replies_this_hour p).
  - destruct (qle (_ - _) 0).
    { simplify_eq. rewrite <- (set_pace_twice s p). apply Hkeep.
      rewrite Hp. apply Qle_refl. }
    destruct (qle _ 0); (eapply IH; [|exact Hrun]); apply Hkeep; simpl.
    + rewrite Hp. apply Qle_refl.
    + rewrite Hp. apply Q.le_max_l.
  - assert (paced d (set_pace s p)) as Hsp.
    { rewrite <- (set_pace_twice s p). apply Hkeep.
      rewrite Hp. apply Qle_refl. }
    destruct (scrape_home_timeline _ _) as [[[|tweet tweets]|e] w1];
      [by simplify_eq| |by simplify_eq].
    destruct (keyed_by_score _) as [keyed|e]; [|by simplify_eq].
    destruct (scan_batch _ _ _ _ _ w1) as [[[made|e] s1] w2] eqn:Hscan.
    + eapply scan_batch_paced in Hscan; [|done|done|done|exact Hsp].
      destruct made; [eapply IH; [exact Hscan|exact Hrun]|].
      simplify_eq. exact Hscan.
    + eapply scan_batch_paced in Hscan; [|done|done|done|exact Hsp].
      simplify_eq. exact Hscan.
Qed.
End SessionPacing.

(** *** Counting replies in an hour *)

Lemma spaced_all (d x : Q) (times : list Q) :
  (0 <= d)%Q -> spaced d (x :: times) ->
  forall c, In c times -> (c + d <= x)%Q.
Proof.
  intros Hd. revert x. induction times as [|y times IH]; intros x Hs c Hin.
  { destruct Hin. }
  destruct Hs as [Hyx Hrest]. destruct Hin as [->|Hin]; [done|].
  specialize (IH y Hrest c Hin). lra.
Qed.

Lemma spaced_filter (d : Q) (keep : Q -> bool) (times : list Q) :
  (0 <= d)%Q -> spaced d times -> spaced d (List.filter keep times).
Proof.
  intros Hd. induction times as [|x times IH]; intros Hs; [done|].
  assert (spaced d times) as Hrest.
  { destruct times; [done|]. by destruct Hs. }
  simpl. destruct (keep x); [|by apply IH].
  apply spaced_cons; [by apply IH|].
  destruct (List.filter keep times) as [|c kept] eqn:Hkept; [done|].
  apply (spaced_all d x times Hd Hs).
  apply (proj1 (filter_In keep c times)). rewrite Hkept. by left.
Qed.

(** From the earliest to the latest of [n + 1] spaced times, [n * d] or more
    passes. *)
Lemma spaced_span (d : Q) (times : list Q) :
  spaced d times ->
  forall latest rest earliest,
    times = latest :: rest -> last times = Some earliest ->
    (earliest + inject_Z (Z.of_nat (length rest)) * d <= latest)%Q.
Proof.
  induction times as [|x times IH]; intros Hs latest rest earliest Heq Hlast;
    [done|].
  simplify_eq. destruct rest as [|y rest].
  - simpl in Hlast. simplify_eq.
    change (inject_Z (Z.of_nat (length (@nil Q)))) with 0%Q. lra.
  - destruct Hs as [Hyx Hrest].
    rewrite last_cons_cons in Hlast.
    specialize (IH Hrest y rest earliest eq_refl Hlast).
    change (length (y :: rest)) with (S (length rest)).
    rewrite Nat2Z.inj_succ, <- Z.add_1_r, inject_Z_plus.
    change (inject_Z 1) with 1%Q. lra.
Qed.

(** Of times that are [d] apart, a span that [n] pauses fill holds [n] at
    most. *)
Lemma spaced_span_count (d span : Q) (n : Z) (times : list Q) (t : Q) :
  (0 < d)%Q -> 0 <= n -> (span <= inject_Z n * d)%Q -> spaced d times ->
  Z.of_nat (length (List.filter (within span t) times)) <= n.
Proof.
  intros Hd Hn Hfill Hs.
  apply (spaced_filter d (within span t)) in Hs; [|lra].
  assert (forall c, In c (List.filter (within span t) times) ->
                    (t <= c)%Q /\ (c < t + span)%Q) as Hin.
  { intros c [_ Hc]%filter_In. unfold within in Hc.
    apply andb_true_iff in Hc as [Hlo Hhi].
    by apply qle_spec in Hlo; apply qlt_spec in Hhi. }
  destruct (List.filter (within span t) times) as [|latest rest] eqn:Hkept.
  { simpl. lia. }
  destruct (last (latest :: rest)) as [earliest|] eqn:Hlast.
  2: { by rewrite last_None in Hlast. }
  pose proof (spaced_span d _ Hs latest rest earliest eq_refl Hlast) as Hspan.
  destruct (Hin latest) as [_ Hhi]; [by left|].
  destruct (Hin earliest) as [Hlo _].
  { apply list_elem_of_In, last_Some_elem_of. done. }
  assert (inject_Z (Z.of_nat (length rest)) * d < inject_Z n * d)%Q
    as Hlt by lra.
  apply Qmult_lt_r in Hlt; [|done].
  rewrite <- Zlt_Qlt in Hlt. simpl. lia.
Qed.

Lemma replies_in_span_times (span : Q) (events : list Event) (t : Q) :
  (replies_in_span span events t
   <= length (List.filter (within span t) (event_times events)))%nat.
Proof.
  unfold replies_in_span.
  induction events as [|e events IH]; simpl; [done|].
  destruct e as [key success c|key]; simpl; [|lia].
  unfold within at 1.
  destruct success, (qle t c && qlt c (t + span)%Q); simpl; lia.
Qed.

(** *** The session as a whole *)

Lemma demo_platform_laws : @PlatformLaws Q demo_platform.
Proof.
  split; simpl.
  - intros w. lra.
  - intros d w. lra.
  - intros _ _ w. lra.
  - intros a b w Hab. lra.
Qed.

Lemma instant_platform_laws : @PlatformLaws Q instant_platform.
Proof.
  split; simpl.
  - intros w. lra.
  - intros d w. rewrite Qred_correct. lra.
  - intros _ _ w. lra.
  - intros a b w Hab. lra.
Qed.

Example demo_session_events :
  match demo_session with
  | Some (Returns tt, s, _) =>
      List.map event_key (events s) = [py "home_reply_acct_102"; demo_key]
      /\ List.map is_success (events s) = [true; true]
      /\ replies_sent_total (pace s) = 2
  | _ => False
  end.
Proof. vm_compute. repeat split. Qed.

Lemma acted_once_split (later earlier : list Event) (e0 : Event) :
  acted_once (later ++ e0 :: earlier) -> is_success e0 = true ->
  forall e, In e later -> event_key e <> event_key e0.
Proof.
  induction later as [|e1 later IH]; simpl; [done|].
  intros [Hfirst Hrest] Hs e [<-|Hin] Heq.
  - apply (Hfirst e0); [|done|done]. apply in_or_app. right. by left.
  - by apply (IH Hrest Hs e Hin).
Qed.

Section SessionClaims.
Context `{UnicodeData} {World : Type} `{!Platform World, !LLMService World}.

(** The session always comes to an end: the fuel of the model's loop is
    never used up. *)
Lemma session_always_ends account action_config logged_in_handle self
    (w : World) :
  is_Some (_run_home_timeline_replies account action_config logged_in_handle
             self w).
Proof.
  unfold _run_home_timeline_replies, now. cbv zeta.
  destruct (build_style_context _) as [style_context w1].
  apply session_loop_terminates; unfold passes_left; simpl; [lia|].
  destruct (_ <=? 0) eqn:Hzero; [apply Z.leb_le in Hzero|]; nia.
Qed.

Lemma session_rel_of_run account action_config logged_in_handle self
    (w : World) res s w' :
  _run_home_timeline_replies account action_config logged_in_handle self w
    = Some (res, s, w') ->
  exists plan s0,
    events s0 = [] /\ orchestrator s0 = self
    /\ replies_sent_total (pace s0) = 0
    /\ total_cap plan
       = Z.max 1 (or_int (home_timeline_replies_per_hour action_config) 10)
         * Z.max 1 (or_int (home_timeline_max_hours action_config) 3)
    /\ session_rel plan s0 s.
Proof.
  unfold _run_home_timeline_replies, now. cbv zeta.
  destruct (build_style_context _) as [style_context w1]. intros Hrun.
  apply session_loop_rel in Hrun. do 2 eexists.
  split; [|split; [|split; [|split; [|exact Hrun]]]]; done.
Qed.

(** C4.  Once a session has answered a post successfully, its action key is
    in the set of processed keys and in the dedup file; that session makes no
    further publisher call for the key; and no later session does, whether
    it runs on the same orchestrator (whose set only grows) or on one that
    was started anew from the file, to which more may have been appended. *)
Theorem recorded_key_never_acted_on_again
    account action_config logged_in_handle self (w : World) res s w'
    key completed_at :
  _run_home_timeline_replies account action_config logged_in_handle self w
    = Some (res, s, w') ->
  In (Published key true completed_at) (events s) ->
  (key ∈ processed_action_keys (orchestrator s)
   /\ key ∈ load_processed_action_keys (dedup_file (orchestrator s)))
  /\ (forall later earlier,
        events s = later ++ Published key true completed_at :: earlier ->
        forall e, In e later -> event_key e <> key)
  /\ (forall self2,
        processed_action_keys (orchestrator s) ⊆ processed_action_keys self2
        \/ (exists more,
              self2 = orchestrator_init (dedup_file (orchestrator s) ++ more)) ->
        forall account2 action_config2 logged_in_handle2 (w2 : World)
               res2 s2 w2',
          _run_home_timeline_replies account2 action_config2
            logged_in_handle2 self2 w2 = Some (res2, s2, w2') ->
          forall e, In e (events s2) -> event_key e <> key).
Proof.
  intros Hrun Hin.
  apply session_rel_of_run in Hrun
    as (plan & s0 & Hev0 & Ho0 & _ & _ & new & Hev & _ & _ & _ & _ & _ & Hrec
        & Hacted).
  rewrite Hev0, app_nil_r in Hev. rewrite <- Hev in Hrec, Hacted.
  destruct (Hrec _ Hin eq_refl) as [Hkey Hload]. simpl in Hkey, Hload.
  split; [done|]. split.
  - intros later earlier Hsplit e He. rewrite Hsplit in Hacted.
    by apply (acted_once_split later earlier _ Hacted eq_refl e He).
  - intros self2 Hself2 account2 action_config2 logged_in_handle2 w2 res2 s2
      w2' Hrun2 e He Heq.
    apply session_rel_of_run in Hrun2
      as (plan2 & s02 & Hev02 & Ho02 & _ & _ & new2 & Hev2 & Hfresh & _).
    rewrite Hev02, app_nil_r in Hev2. rewrite <- Hev2 in Hfresh.
    apply (Hfresh e He). rewrite Heq, Ho02.
    destruct Hself2 as [Hsub|[more ->]]; [by apply Hsub|].
    simpl. by apply load_save_prefix.
Qed.

(** C5.  In every session of a platform that keeps [PlatformLaws], with
    [actions_per_hour] and [max_hours] the values the session works with
    (the configured ones when these are at least 1): no span of 3599
    seconds, starting at whatever time [t], holds more than
    [actions_per_hour] successful replies; no hour holds more than
    [actions_per_hour + 1]; and the session as a whole has at most
    [actions_per_hour * max_hours]. *)
Theorem session_caps_up_to_rounding
    account action_config logged_in_handle self (w : World) res s w' :
  PlatformLaws World ->
  _run_home_timeline_replies account action_config logged_in_handle self w
    = Some (res, s, w') ->
  let actions_per_hour :=
    Z.max 1 (or_int (home_timeline_replies_per_hour action_config) 10) in
  let max_hours :=
    Z.max 1 (or_int (home_timeline_max_hours action_config) 3) in
  (forall t,
     Z.of_nat (replies_in_span 3599 (events s) t) <= actions_per_hour)
  /\ (forall t,
        Z.of_nat (replies_in_window (events s) t) <= actions_per_hour + 1)
  /\ Z.of_nat (successful_replies (events s)) <= actions_per_hour * max_hours.
Proof.
  intros laws Hrun actions_per_hour max_hours.
  set (min_delay :=
         Z.max 10 (min_delay_between_actions_seconds action_config)).
  destruct (least_pause_fills actions_per_hour min_delay ltac:(lia)
              ltac:(lia)) as [Hten Hfill].
  set (d := least_pause actions_per_hour min_delay) in *.
  assert (spaced d (event_times (events s))) as Hspaced.
  { unfold _run_home_timeline_replies, now in Hrun. cbv zeta in Hrun.
    destruct (build_style_context _) as [style_context w1].
    eapply (session_loop_paced laws _ _ _ _ d) in Hrun.
    - by destruct Hrun as [Hspaced _].
    - lra.
    - simpl. apply spacing_min_le_max.
      pose proof (spacing_min_positive actions_per_hour min_delay
                    ltac:(lia)) as Hpos.
      fold actions_per_hour min_delay. lra.
    - simpl. intros delay. apply least_pause_kept.
    - split; simpl; done. }
  split; [|split].
  - intros t.
    pose proof (replies_in_span_times 3599 (events s) t) as Hcount.
    pose proof (spaced_span_count d 3599 actions_per_hour _ t ltac:(lra)
                  ltac:(lia) Hfill Hspaced).
    lia.
  - intros t.
    pose proof (replies_in_span_times 3600 (events s) t) as Hcount.
    assert (3600 <= inject_Z (actions_per_hour + 1) * d)%Q as Hhour.
    { rewrite inject_Z_plus. change (inject_Z 1) with 1%Q. lra. }
    pose proof (spaced_span_count d 3600 (actions_per_hour + 1) _ t
                  ltac:(lra) ltac:(lia) Hhour Hspaced).
    change (replies_in_span 3600 (events s) t)
      with (replies_in_window (events s) t) in Hcount.
    lia.
  - apply session_rel_of_run in Hrun
      as (plan & s0 & Hev0 & _ & Ht0 & Hcap & new & Hev & _ & _ & _ & Ht
          & Hle & _).
    subst actions_per_hour max_hours.
    rewrite Hev0, app_nil_r in Hev. rewrite Hev, <- Hcap.
    rewrite Ht0 in Ht, Hle. rewrite Z.add_0_l in Ht. rewrite <- Ht.
    apply Hle.
    rewrite Hcap. lia.
Qed.
End SessionClaims.

Example demo_second_session_skips_both :
  match demo_second_session with
  | Some (Returns tt, s, _) =>
      events s = []
      /\ processed_action_keys (orchestrator s)
         = {[ demo_key; py "home_reply_acct_102" ]}
  | _ => False
  end.
Proof. vm_compute. split; reflexivity. Qed.

(** The demo session: two replies, half an hour apart, under a cap of two
    an hour for one hour. *)
Lemma session_caps_up_to_rounding_witness :
  match demo_session with
  | Some (_, s, _) =>
      (forall t, Z.of_nat (replies_in_span 3599 (events s) t) <= 2)
      /\ (forall t, Z.of_nat (replies_in_window (events s) t) <= 2 + 1)
      /\ Z.of_nat (successful_replies (events s)) <= 2 * 1
  | None => False
  end.
Proof.
  destruct demo_session as [[[res s] w']|] eqn:Hrun.
  - exact (@session_caps_up_to_rounding ascii_runtime Q
             demo_platform demo_llm deciding_account demo_action_config None
             (orchestrator_init []) 0%Q res s w' demo_platform_laws Hrun).
  - vm_compute in Hrun. discriminate.
Defined.

(** At seven replies an hour the pause is [3600 / 7] seconds, which
    [timedelta] rounds down to 514.285714 seconds.  On a platform without
    latency that keeps [PlatformLaws], the session that starts at time 0
    completes its first reply at 10 and its eighth at 3609.999998: the
    hour that starts at 10 holds eight successful replies. *)
Lemma eighth_reply_within_the_hour :
  @PlatformLaws Q instant_platform
  /\ Z.max 1 (or_int (home_timeline_replies_per_hour seven_an_hour) 10) = 7
  /\ match seven_an_hour_session with
     | Some (_, s, _) =>
         replies_in_window (events s) 10 = 8%nat
         /\ List.map (fun c => Qred (c * 1000000)) (event_times (events s))
            = [3609999998; 3095714284; 2581428570; 2067142856; 1552857142;
               1038571428; 524285714; 10000000]%Q
     | None => False
     end.
Proof.
  split; [exact instant_platform_laws|]. split; [reflexivity|].
  vm_compute. split; reflexivity.
Qed.

(** The demo session answers post 101; its key is recorded, and the session
    that follows a restart makes no publisher call for it. *)
Lemma recorded_key_never_acted_on_again_witness :
  match demo_session with
  | Some (_, s, _) =>
      (demo_key ∈ processed_action_keys (orchestrator s)
       /\ demo_key ∈ load_processed_action_keys (dedup_file (orchestrator s)))
      /\ forall res2 s2 w2',
           demo_second_session = Some (res2, s2, w2') ->
           forall e, In e (events s2) -> event_key e <> demo_key
  | None => False
  end.
Proof.
  unfold demo_second_session.
  destruct demo_session as [[[res s] w']|] eqn:Hrun;
    [|vm_compute in Hrun; discriminate].
  assert (exists t, In (Published demo_key true t) (events s)) as [t Hin].
  { pose proof Hrun as Hcopy. vm_compute in Hcopy.
    injection Hcopy as _ <- _. eexists. right. left. reflexivity. }
  destruct (@recorded_key_never_acted_on_again ascii_runtime Q demo_platform
              demo_llm deciding_account demo_action_config None
              (orchestrator_init []) 0%Q res s w' demo_key t Hrun Hin)
    as (Hrecorded & _ & Hlater).
  split; [exact Hrecorded|].
  intros res2 s2 w2' Hrun2.
  apply (Hlater (orchestrator_init (dedup_file (orchestrator s)))
           (or_intror (ex_intro _ [] (f_equal orchestrator_init
                                        (eq_sym (app_nil_r _)))))
           _ _ _ _ _ _ _ Hrun2).
Defined.

(** ** The repository's tests, run on the model *)

(** [test_generate_guarded_reply_retries_on_off_topic_terms]: the first
    answer names "openai" and "api", neither of them in the tweet; the
    second one is accepted. *)
Example test_retries_on_off_topic_terms :
  let '(result, calls, _) :=
    @generate_guarded_reply ascii_runtime _ StubLLMService
      (mk_tweet "42" "Discussing distributed AI training" "mlresearcher")
      None (Some (py "mlbot")) None 3
      [mk_response "You should read the OpenAI API docs instead." true
         "Mentions AI APIs" ["api"]%string;
       mk_response
         "Distributed training is so compute hungry - great points!" true
         "References distributed training" ["training"]%string] in
  match result with
  | Returns (Some reply_text, metadata) =>
      reply_text
      = py "Distributed training is so compute hungry - great points!"
      /\ attempts metadata = 2 /\ length calls = 2%nat
  | _ => False
  end.
Proof. vm_compute. repeat split. Qed.

(** [test_generate_guarded_reply_returns_none_when_all_attempts_fail] *)
Example test_returns_none_when_all_attempts_fail :
  let '(result, calls, _) :=
    @generate_guarded_reply ascii_runtime _ StubLLMService
      (mk_tweet "77" "Thoughts on new robotics demo" "roboticist")
      None None None 1
      [mk_response "" false "Could not form reply" []] in
  match result with
  | Returns (None, metadata) =>
      attempts metadata = 1
      /\ Str.contains (py "No reply text") (relevance_reason metadata) = true
  | _ => False
  end.
Proof. vm_compute. repeat split. Qed.

(** [test_should_apply_style_profile_requires_keyword_overlap] and
    [test_should_apply_style_profile_skips_humorous_tweets] *)
Example test_should_apply_style_profile :
  let tweet :=
    mk_tweet "11" "Platform engineering teams love detailed runbooks"
      "opslead" in
  let joke :=
    mk_tweet "99" "LOL this meme about deploy scripts broke me" "joker" in
  @should_apply_style_profile ascii_runtime tweet
    [py "platform"; py "runbooks"] = true
  /\ @should_apply_style_profile ascii_runtime tweet [py "gardening"] = false
  /\ @should_apply_style_profile ascii_runtime joke
       [py "deploy"; py "scripts"] = false.
Proof. vm_compute. repeat split. Qed.

(** The popularity score of a post with 10 likes, 2 retweets, 1 reply and
    1000 views is 33.2; the missing counts of a post count as 0. *)
Example score_home_timeline_tweet_example :
  let post :=
    {| tweet_id := Some (py "1"); text_content := None; user_handle := None;
       embedded_media_urls := [];
       like_count := Some 10; retweet_count := Some 2;
       reply_count := Some 1; view_count := Some 1000;
       created_at := None |} in
  (exists score,
     _score_home_timeline_tweet post = Returns score
     /\ PrimFloat.eqb score 33.2 = true)
  /\ (exists score,
        _score_home_timeline_tweet (mk_tweet "2" "" "") = Returns score
        /\ PrimFloat.eqb score 0 = true).
Proof. vm_compute. split; eexists; split; reflexivity. Qed.

(** ** Further facts on the guarded reply *)

Section GuardedReplyMore.
Context `{UnicodeData} {World : Type} `{!LLMService World}.

(** [generate_guarded_reply] gives up (answers [None]) only after it has
    made all of its [max(1, retry_limit)] generation calls. *)
Theorem no_reply_only_after_all_attempts tweet style persona banned
    retry_limit (w : World) md calls w' :
  generate_guarded_reply tweet style persona banned retry_limit w
    = (Returns (None, md), calls, w') ->
  Z.of_nat (length calls) = Z.max 1 retry_limit
  /\ attempts md = Z.max 1 retry_limit.
Proof.
  intros Hrun.
  apply generate_guarded_reply_spec in Hrun as (_ & _ & Hatt & Hall).
  split; [exact Hall|]. by rewrite Hatt.
Qed.

(** A tweet that reads as humorous never gets the style profile, whatever
    the style keywords are; nor does any tweet when there are no style
    keywords. *)
Theorem humorous_tweet_never_styled tweet style_keywords :
  ctx_humor_flag (_prepare_tweet_context tweet) = true ->
  should_apply_style_profile tweet style_keywords = false.
Proof.
  intros Hhumor. unfold should_apply_style_profile.
  destruct style_keywords; [done|]. cbv zeta. by rewrite Hhumor.
Qed.
End GuardedReplyMore.

Lemma no_reply_only_after_all_attempts_witness :
  exists md calls w',
    @generate_guarded_reply ascii_runtime _ StubLLMService
      (mk_tweet "77" "Thoughts on new robotics demo" "roboticist")
      None None None 2 [] = (Returns (None, md), calls, w')
    /\ Z.of_nat (length calls) = Z.max 1 2
    /\ attempts md = Z.max 1 2.
Proof.
  destruct (@generate_guarded_reply ascii_runtime _ StubLLMService
              (mk_tweet "77" "Thoughts on new robotics demo" "roboticist")
              None None None 2 [])
    as [[[[[reply|] md]|e] calls] w'] eqn:Hrun;
    try (vm_compute in Hrun; discriminate).
  exists md, calls, w'. split; [reflexivity|].
  exact (no_reply_only_after_all_attempts _ _ _ _ _ _ _ _ _ Hrun).
Defined.

Lemma humorous_tweet_never_styled_witness :
  let joke :=
    mk_tweet "99" "LOL this meme about deploy scripts broke me" "joker" in
  ctx_humor_flag (@_prepare_tweet_context ascii_runtime joke) = true
  /\ @should_apply_style_profile ascii_runtime joke
       [py "deploy"; py "scripts"] = false.
Proof.
  split; [vm_compute; reflexivity|].
  apply (@humorous_tweet_never_styled ascii_runtime). vm_compute. reflexivity.
Defined.

(** ** Tokens, humor and tone *)

Lemma finditer_nonempty (s : str) :
  forall cur t, In t (finditer cur s) -> t <> [].
Proof.
  induction s as [|c rest IH]; intros cur t; simpl.
  - destruct cur; simpl; [tauto|]. intros [<-|[]]. done.
  - destruct (is_token_char c); [apply IH|].
    intros Hin. apply in_app_or in Hin as [Hin|Hin]; [|by eapply IH].
    destruct cur; simpl in Hin; [tauto|]. destruct Hin as [<-|[]]. done.
Qed.

(** The matches, put together, are the token characters of the text. *)
Lemma finditer_concat (s : str) :
  forall cur,
    List.concat (finditer cur s) = cur ++ List.filter is_token_char s.
Proof.
  induction s as [|c rest IH]; intros cur; simpl.
  - destruct cur; simpl; by rewrite ?app_nil_r.
  - destruct (is_token_char c).
    + by rewrite IH, <- app_assoc.
    + rewrite concat_app, IH. destruct cur; simpl; by rewrite ?app_nil_r.
Qed.

Lemma ascii_lower_token_char (c : char) :
  is_token_char c = true -> is_lower_token_char (Str.ascii_lower c) = true.
Proof.
  unfold is_token_char, is_lower_token_char, Str.ascii_lower.
  destruct (_ && _)%N eqn:Hupper.
  - apply andb_true_iff in Hupper as [Hlo Hhi].
    apply N.leb_le in Hlo. apply N.leb_le in Hhi. intros _.
    rewrite !orb_true_iff, !andb_true_iff, !N.leb_le. lia.
  - rewrite !orb_true_iff, !andb_true_iff, !N.leb_le, !N.eqb_eq.
    apply andb_false_iff in Hupper.
    rewrite !N.leb_gt in Hupper. lia.
Qed.

Section TokenFacts.
Context `{UnicodeData}.

Lemma tokenize_token (text token : str) :
  In token (_tokenize text) ->
  token <> [] /\ Forall (fun c => is_lower_token_char c = true) token.
Proof.
  unfold _tokenize. rewrite in_map_iff. intros (run & <- & Hin).
  pose proof (finditer_nonempty _ _ _ Hin) as Hne.
  apply finditer_infix in Hin as [Hrun _]; [|done].
  rewrite lower_ascii
    by (eapply Forall_impl; [exact Hrun|apply token_char_ascii]).
  split.
  - destruct run; [done|]. done.
  - apply Forall_map. eapply Forall_impl; [exact Hrun|].
    apply ascii_lower_token_char.
Qed.

(** [_tokenize] cuts the text into words of lower-case letters, digits and
    apostrophes, none of them empty, and loses no such character: the
    tokens put together are the token characters of the text, lower-cased
    (the letters as ASCII letters, whatever the Unicode tables say). *)
Theorem tokenize_keeps_the_token_characters (text : str) :
  Forall (fun token =>
            token <> []
            /\ Forall (fun c => is_lower_token_char c = true) token)
    (_tokenize text)
  /\ List.concat (_tokenize text)
     = List.map Str.ascii_lower (List.filter is_token_char text).
Proof.
  split.
  - apply List.Forall_forall. intros token. apply tokenize_token.
  - unfold _tokenize.
    pose proof (finditer_concat text []) as Hconcat. simpl in Hconcat.
    rewrite <- Hconcat, concat_map. f_equal. apply map_ext_in. intros run Hin.
    apply finditer_infix in Hin as [Hrun _]; [|done].
    apply lower_ascii. eapply Forall_impl; [exact Hrun|].
    apply token_char_ascii.
Qed.

Lemma overlap_token (text token : str) :
  token ∈ tokenize_for_overlap text ->
  In token (_tokenize text) /\ (token ∉ _STOPWORDS)
  /\ (2 < length token)%nat.
Proof.
  unfold tokenize_for_overlap.
  rewrite elem_of_list_to_set, list_elem_of_In, filter_In, andb_true_iff,
    bool_decide_eq_true, Nat.ltb_lt. tauto.
Qed.

(** A text counts as humorous exactly if one of the words lol, lmao, haha,
    hehe, meme is among its tokens.  The emoji entries of [_HUMOR_MARKERS]
    never match: a token has no character outside ASCII. *)
Theorem humorous_iff_humor_word (text : str) :
  is_probably_humorous text = true
  <-> exists word,
        In word humor_words /\ word ∈ tokenize_for_overlap text.
Proof.
  unfold is_probably_humorous. cbv zeta.
  destruct (decide (tokenize_for_overlap text = ∅)) as [Hnone|_].
  - split; [done|]. intros (word & _ & Hin). rewrite Hnone in Hin.
    by apply elem_of_empty in Hin.
  - rewrite bool_decide_eq_true. split.
    + intros Hsome. apply set_choose_L in Hsome as [word Hword].
      apply elem_of_intersection in Hword as [Htoken Hmarker].
      exists word. split; [|done].
      apply overlap_token in Htoken as (Htoken & _).
      apply tokenize_token in Htoken as [_ Hchars].
      apply elem_of_list_to_set, list_elem_of_In in Hmarker.
      vm_compute in Hmarker.
      repeat (destruct Hmarker as [<-|Hmarker];
              [first [ by (vm_compute; tauto)
                     | by (apply Forall_inv in Hchars; vm_compute in Hchars) ]
              |]).
      destruct Hmarker.
    + intros (word & Hword & Htoken) Hempty.
      assert (word ∈ tokenize_for_overlap text
                     ∩ (list_to_set
                          (List.map (strip_char 35%N) _HUMOR_MARKERS)
                        : gset str)) as Hin;
        [|rewrite Hempty in Hin; by apply elem_of_empty in Hin].
      apply elem_of_intersection. split; [done|].
      apply elem_of_list_to_set, list_elem_of_In.
      vm_compute in Hword. vm_compute.
      repeat (destruct Hword as [<-|Hword]; [tauto|]). destruct Hword.
Qed.

Lemma markers_in_nonneg markers lowered : 0 <= markers_in markers lowered.
Proof. unfold markers_in. lia. Qed.

Lemma markers_in_pos markers lowered marker :
  In marker markers -> Str.contains marker lowered = true ->
  0 < markers_in markers lowered.
Proof.
  intros Hin Hc. unfold markers_in.
  assert (In marker (List.filter (fun m => Str.contains m lowered) markers))
    as Hf by (apply filter_In; done).
  destruct (List.filter _ markers); [done|]. simpl. lia.
Qed.

Lemma score_text_grows scores text :
  humor_score scores <= humor_score (score_text scores text)
  /\ tech_score scores <= tech_score (score_text scores text).
Proof.
  unfold score_text. destruct (is_empty text); [lia|].
  cbn [humor_score tech_score].
  pose proof (markers_in_nonneg (remove_dups _HUMOR_MARKERS) (lower text)).
  pose proof (markers_in_nonneg _TECH_MARKERS (lower text)). lia.
Qed.

Lemma fold_score_text_grows texts :
  forall scores,
    humor_score scores <= humor_score (List.fold_left score_text texts scores)
    /\ tech_score scores
       <= tech_score (List.fold_left score_text texts scores).
Proof.
  induction texts as [|text texts IH]; intros scores;
    cbn [List.fold_left]; [lia|].
  pose proof (score_text_grows scores text).
  pose proof (IH (score_text scores text)). lia.
Qed.

Lemma fold_score_text_marker texts text marker :
  In text texts ->
  In marker (_HUMOR_MARKERS ++ _TECH_MARKERS) ->
  Str.contains marker (lower text) = true ->
  forall scores,
    0 <= humor_score scores -> 0 <= tech_score scores ->
    let final := List.fold_left score_text texts scores in
    0 <= humor_score final /\ 0 <= tech_score final
    /\ 0 < humor_score final + tech_score final.
Proof.
  intros Hin Hmarker Hc.
  induction texts as [|first texts IH]; [done|].
  intros scores Hh Ht. cbn [List.fold_left]. cbv zeta.
  pose proof (score_text_grows scores first) as [Hh1 Ht1].
  destruct Hin as [->|Hin]; [|apply IH; [done|lia|lia]].
  pose proof (fold_score_text_grows texts (score_text scores text))
    as [Hh2 Ht2].
  assert (0 < humor_score (score_text scores text)
              + tech_score (score_text scores text)); [|lia].
  unfold score_text. destruct text as [|c text].
  { apply contains_spec in Hc as (pre & post & Heq).
    change (lower []) with (@nil N) in Heq.
    destruct pre; [|done]. destruct marker; [|done].
    exfalso. clear -Hmarker. vm_compute in Hmarker.
    repeat (destruct Hmarker as [Hm|Hmarker]; [discriminate Hm|]).
    done. }
  cbn [is_empty humor_score tech_score].
  pose proof (markers_in_nonneg (remove_dups _HUMOR_MARKERS)
                (lower (c :: text))).
  pose proof (markers_in_nonneg _TECH_MARKERS (lower (c :: text))).
  apply in_app_or in Hmarker as [Hm|Hm].
  - pose proof (markers_in_pos (remove_dups _HUMOR_MARKERS)
                  (lower (c :: text)) marker) as Hpos.
    rewrite <- list_elem_of_In, elem_of_remove_dups, list_elem_of_In in Hpos.
    specialize (Hpos Hm Hc). lia.
  - pose proof (markers_in_pos _TECH_MARKERS (lower (c :: text)) marker
                  Hm Hc). lia.
Qed.

(** As soon as one text holds a humor or tech marker (compared in lower
    case), the tone is playful or technical: the tones enthusiastic,
    cautious and conversational are only given to texts without any
    marker. *)
Theorem marker_decides_tone (texts : list str) (text marker : str) :
  In text texts ->
  In marker (_HUMOR_MARKERS ++ _TECH_MARKERS) ->
  Str.contains marker (lower text) = true ->
  infer_tone_from_samples texts = py "playful"
  \/ infer_tone_from_samples texts = py "technical".
Proof.
  intros Hin Hmarker Hc.
  pose proof (fold_score_text_marker texts text marker Hin Hmarker Hc
                {| humor_score := 0; tech_score := 0;
                   exclamation_score := 0; sentiment_score := 0 |})
    as Hscores.
  simpl in Hscores. specialize (Hscores ltac:(lia) ltac:(lia)).
  destruct Hscores as (Hh & Ht & Hpos).
  unfold infer_tone_from_samples, tone_scores. cbv zeta.
  set (scores := List.fold_left score_text texts _) in *.
  destruct (Z.max 1 (tech_score scores / 2) <=? humor_score scores)
    eqn:Hplayful; [by left|right].
  apply Z.leb_gt in Hplayful.
  assert (0 < tech_score scores
          /\ humor_score scores <= tech_score scores) as [Hpos' Hle].
  { pose proof (Z.div_le_upper_bound (tech_score scores) 2
                  (tech_score scores)).
    assert (tech_score scores / 2 <= tech_score scores)
      by (apply Z.div_le_upper_bound; lia).
    lia. }
  apply Z.ltb_lt in Hpos'. apply Z.leb_le in Hle.
  by rewrite Hpos', Hle.
Qed.

(** Without any text to go by (no texts, or empty ones only) the tone is
    conversational. *)
Theorem tone_of_no_text (texts : list str) :
  Forall (fun text => text = []) texts ->
  infer_tone_from_samples texts = py "conversational".
Proof.
  intros Hempty. unfold infer_tone_from_samples, tone_scores.
  assert (forall scores, List.fold_left score_text texts scores = scores)
    as ->; [|reflexivity].
  induction Hempty as [|text texts -> _ IH]; intros scores; simpl; [done|].
  apply IH.
Qed.

Lemma media_counts_total (urls : list str) :
  forall counts,
    let '(i0, v0, g0) := counts in
    let '(i, v, g) :=
      List.fold_left
        (fun '(image_types, video_types, gif_types) url =>
           let lowered := lower url in
           if endswith (py ".gif") lowered
           then (image_types, video_types, S gif_types)
           else if endswith (py ".mp4") lowered
                   || endswith (py "m3u8") lowered
           then (image_types, S video_types, gif_types)
           else (S image_types, video_types, gif_types))
        urls counts in
    (i + v + g = i0 + v0 + g0 + length urls)%nat.
Proof.
  induction urls as [|url urls IH]; intros [[i0 v0] g0]; simpl; [lia|].
  destruct (endswith (py ".gif") (lower url)).
  - specialize (IH (i0, v0, S g0)). simpl in IH.
    destruct (List.fold_left _ urls _) as [[i v] g]. lia.
  - destruct (_ || _).
    + specialize (IH (i0, S v0, g0)). simpl in IH.
      destruct (List.fold_left _ urls _) as [[i v] g]. lia.
    + specialize (IH (S i0, v0, g0)). simpl in IH.
      destruct (List.fold_left _ urls _) as [[i v] g]. lia.
Qed.

(** [describe_media_urls] counts every URL once, as an image, a video or a
    gif; so for a list that is not empty there is always a segment to
    show, and the wording "N media item(s)" is never used. *)
Theorem describe_media_urls_counts_each_url (urls : list str) :
  let '(image_types, video_types, gif_types) := media_counts urls in
  (image_types + video_types + gif_types = length urls)%nat
  /\ (urls <> [] ->
      media_segments (media_counts urls) <> []
      /\ describe_media_urls urls
         = py "Media detected: "
           ++ Str.join (py ", ") (media_segments (media_counts urls))
           ++ py ".").
Proof.
  pose proof (media_counts_total urls (O, O, O)) as Htotal.
  unfold describe_media_urls, media_counts in *. simpl in Htotal.
  destruct (List.fold_left _ urls _) as [[i v] g] eqn:Hcounts.
  split; [lia|]. intros Hne.
  assert (media_segments (i, v, g) <> []) as Hseg.
  { destruct urls as [|url urls]; [done|]. simpl in Htotal.
    unfold media_segments.
    destruct i; [destruct v; [destruct g; [lia|]|]|]; simpl; done. }
  split; [done|].
  destruct urls; [done|].
  cbv zeta. destruct (media_segments (i, v, g)); done.
Qed.
End TokenFacts.

Lemma marker_decides_tone_witness :
  @infer_tone_from_samples ascii_runtime
    [py "New API release!!!"; py ""] = py "playful"
  \/ @infer_tone_from_samples ascii_runtime
       [py "New API release!!!"; py ""] = py "technical".
Proof.
  apply (@marker_decides_tone ascii_runtime _ (py "New API release!!!")
           (py "api")).
  - simpl. tauto.
  - vm_compute. tauto.
  - vm_compute. reflexivity.
Defined.

Lemma tone_of_no_text_witness :
  @infer_tone_from_samples ascii_runtime [py ""; py ""]
  = py "conversational".
Proof.
  apply (@tone_of_no_text ascii_runtime). repeat constructor.
Defined.

(** ** More on the guarded reply *)

Lemma rstrip_idempotent (s : str) : Str.rstrip (Str.rstrip s) = Str.rstrip s.
Proof.
  induction s as [|c r IH]; [done|]. simpl.
  destruct (Str.rstrip r) as [|c' r'] eqn:Hr.
  - destruct (Str.is_space c) eqn:Hc; [done|]. simpl. by rewrite Hc.
  - simpl. simpl in IH. rewrite IH. done.
Qed.

Lemma rstrip_starts_clean (s : str) :
  starts_clean s -> starts_clean (Str.rstrip s).
Proof.
  destruct s as [|c r]; [done|]. simpl. intros Hc.
  destruct (Str.rstrip r); [by rewrite Hc|done].
Qed.

Lemma lstrip_starts_clean (s : str) : starts_clean (Str.lstrip s).
Proof.
  induction s as [|c r IH]; [done|]. simpl.
  destruct (Str.is_space c) eqn:Hc; [done|]. simpl. done.
Qed.

Lemma lstrip_clean (s : str) : starts_clean s -> Str.lstrip s = s.
Proof. destruct s as [|c r]; [done|]. simpl. by intros ->. Qed.

Lemma take_starts_clean (n : nat) (s : str) :
  starts_clean s -> starts_clean (take n s).
Proof. destruct s, n; done. Qed.

(** What has been stripped, cut and stripped on the right again is
    stripped. *)
Lemma clip_strip_stripped (n : nat) (raw : str) :
  let text := Str.rstrip (take n (Str.strip raw)) in
  Str.strip text = text.
Proof.
  cbv zeta. unfold Str.strip at 1.
  rewrite lstrip_clean.
  - apply rstrip_idempotent.
  - apply rstrip_starts_clean, take_starts_clean. unfold Str.strip.
    apply rstrip_starts_clean, lstrip_starts_clean.
Qed.

Section MergeUnique.
Context `{UnicodeData}.

Lemma merge_unique_from_sublist (sequence : list str) :
  forall seen, sublist (merge_unique_from seen sequence) sequence.
Proof.
  induction sequence as [|item rest IH]; intros seen; simpl.
  - constructor.
  - destruct (decide (lower item ∈ seen)); by constructor.
Qed.

Lemma merge_unique_from_fresh (sequence : list str) :
  forall seen item,
    In item (merge_unique_from seen sequence) ->
    (lower item ∉ seen) /\ In item sequence.
Proof.
  induction sequence as [|first rest IH]; intros seen item; simpl; [done|].
  destruct (decide (lower first ∈ seen)) as [Hseen|Hnew].
  - intros Hin. apply IH in Hin. tauto.
  - intros [<-|Hin]; [tauto|]. apply IH in Hin as [Hfresh Hin].
    split; [set_solver|tauto].
Qed.

Lemma merge_unique_from_NoDup (sequence : list str) :
  forall seen, NoDup (List.map lower (merge_unique_from seen sequence)).
Proof.
  induction sequence as [|first rest IH]; intros seen; simpl.
  - constructor.
  - destruct (decide (lower first ∈ seen)); [apply IH|].
    simpl. apply NoDup_cons. split; [|apply IH].
    rewrite list_elem_of_In, in_map_iff. intros (item & Heq & Hin).
    apply merge_unique_from_fresh in Hin as [Hfresh _]. set_solver.
Qed.

Lemma merge_unique_from_covers (sequence : list str) :
  forall seen item,
    In item sequence ->
    lower item ∈ seen
    \/ In (lower item) (List.map lower (merge_unique_from seen sequence)).
Proof.
  induction sequence as [|first rest IH]; intros seen item; simpl; [done|].
  destruct (decide (lower first ∈ seen)) as [Hseen|Hnew].
  - intros [<-|Hin]; [by left|]. by apply IH.
  - intros [<-|Hin]; [right; by left|].
    destruct (IH ({[lower first]} ∪ seen) item Hin) as [Hs|Hm].
    + apply elem_of_union in Hs as [Hs|Hs]; [|by left].
      apply elem_of_singleton in Hs. right. left. done.
    + right. simpl. by right.
Qed.

Lemma merge_unique_from_distinct (sequence : list str) :
  forall seen,
    NoDup (List.map lower sequence) ->
    (forall item, In item sequence -> lower item ∉ seen) ->
    merge_unique_from seen sequence = sequence.
Proof.
  induction sequence as [|first rest IH]; intros seen Hnd Hfresh; simpl;
    [done|].
  simpl in Hnd. apply NoDup_cons in Hnd as [Hfirst Hnd].
  destruct (decide (lower first ∈ seen)) as [Hseen|_].
  - exfalso. apply (Hfresh first); [by left|done].
  - f_equal. apply IH; [done|]. intros item Hin.
    apply not_elem_of_union. split; [|apply Hfresh; by right].
    rewrite elem_of_singleton. intros Heq. apply Hfirst.
    rewrite list_elem_of_In, in_map_iff. eauto.
Qed.


(** [_merge_unique] keeps the items in their order and drops the ones that
    repeat an earlier item up to case: the result is a sub-list of the
    input, no two of its items agree in lower case, every item of the input
    is represented in it up to case, and a list without such repeats comes
    back unchanged. *)
Theorem merge_unique_drops_case_insensitive_repeats (sequence : list str) :
  sublist (_merge_unique sequence) sequence
  /\ NoDup (List.map lower (_merge_unique sequence))
  /\ (forall item,
        In item sequence ->
        In (lower item) (List.map lower (_merge_unique sequence)))
  /\ (NoDup (List.map lower sequence) -> _merge_unique sequence = sequence).
Proof.
  unfold _merge_unique.
  split; [apply merge_unique_from_sublist|].
  split; [apply merge_unique_from_NoDup|].
  split.
  - intros item Hin.
    destruct (merge_unique_from_covers sequence ∅ item Hin); [set_solver|done].
  - intros Hnd. apply merge_unique_from_distinct; [done|]. set_solver.
Qed.


End MergeUnique.

Section GuardedReplyProtocol.
Context `{UnicodeData} {World : Type} `{!LLMService World}.

(** The reason an attempt is turned down with is never empty. *)
Lemma guard_response_reject_nonempty ctx attempt data err reason :
  guard_response ctx attempt data err = Returns (Reject reason) ->
  reason <> [].
Proof.
  unfold guard_response. intros Hg.
  assert (forall r,
            Returns (Reject match err with
                            | Some (c :: e) => c :: e
                            | _ => py "No structured response produced."
                            end)
            = Returns (Reject r) -> r <> []) as Hno.
  { intros r Heq. destruct err as [[|c e]|]; by simplify_eq. }
  destruct data as [|d|v]; [by apply Hno| |by apply Hno].
  destruct (decide (d = ∅)); [by apply Hno|].
  destruct (get_stripped d (py "reply_text")) as [raw|]; [|done].
  destruct (get_stripped d (py "relevance_reason")) as [why|]; [|done].
  cbv zeta in Hg.
  destruct (is_empty (clip_reply raw)); [by simplify_eq|].
  cbn [negb andb] in Hg.
  destruct (MAX_REPLY_CHARS <? _)%nat; [by simplify_eq|].
  destruct (negb _).
  - destruct why; by simplify_eq.
  - destruct (_find_off_topic_terms _ _ _); by simplify_eq.
Qed.

(** What an accepted attempt has passed. *)
Lemma guard_response_accept_clean ctx attempt data err text md :
  guard_response ctx attempt data err = Returns (Accept text md) ->
  Str.strip text = text
  /\ _find_off_topic_terms text (ctx_text ctx) (ctx_keywords ctx) = []
  /\ exists d,
       data = DataDict d
       /\ (exists v, d !! py "is_relevant" = Some v /\ truthy v = true)
       /\ exists raw,
            get_stripped d (py "reply_text") = Returns raw
            /\ text = clip_reply raw
            /\ get_stripped d (py "relevance_reason")
               = Returns (relevance_reason md).
Proof.
  unfold guard_response. intros Hg.
  destruct data as [|d|v]; try discriminate.
  destruct (decide (d = ∅)); try discriminate.
  destruct (get_stripped d (py "reply_text")) as [raw|] eqn:Hraw;
    try discriminate.
  destruct (get_stripped d (py "relevance_reason")) as [why|] eqn:Hwhy;
    try discriminate.
  cbv zeta in Hg.
  destruct (is_empty (clip_reply raw)) eqn:Hempty; [discriminate|].
  cbn [negb andb] in Hg.
  destruct (MAX_REPLY_CHARS <? _)%nat; [discriminate|].
  destruct (d !! py "is_relevant") as [v|] eqn:Hrel; [|discriminate].
  destruct (truthy v) eqn:Hv; [|discriminate]. cbn [negb] in Hg.
  destruct (_find_off_topic_terms _ _ _) eqn:Hterms; [|discriminate].
  simplify_eq. cbn [relevance_reason].
  split; [|split; [done|]].
  - unfold get_stripped in Hraw.
    destruct (d !! py "reply_text") as [v'|]; [|by simplify_eq].
    destruct (truthy v'); [|by simplify_eq].
    destruct v'; simplify_eq.
    unfold clip_reply in *.
    destruct (is_empty (Str.strip s)) eqn:Hblank; [congruence|].
    apply clip_strip_stripped.
  - exists d. split; [done|]. split; [eauto|]. exists raw. done.
Qed.

Lemma get_stripped_raises (d : gmap str JValue) (key e : str) :
  get_stripped d key = Raised e ->
  e = py "AttributeError"
  /\ exists v, d !! key = Some v /\ unstrippable v.
Proof.
  unfold get_stripped, unstrippable. intros Hg.
  destruct (d !! key) as [v|]; [|done].
  destruct (truthy v) eqn:Hv; [|done].
  destruct v; simplify_eq; (split; [done|]); eexists; (split; [done|]);
    (split; [done|]); done.
Qed.

(** What makes [guard_response] raise. *)
Lemma guard_response_raises ctx attempt data err e :
  guard_response ctx attempt data err = Raised e ->
  e = py "AttributeError"
  /\ exists d key v,
       data = DataDict d
       /\ In key [py "reply_text"; py "relevance_reason"]
       /\ d !! key = Some v /\ unstrippable v.
Proof.
  unfold guard_response. intros Hg.
  destruct data as [|d|v]; try discriminate.
  destruct (decide (d = ∅)); try discriminate.
  destruct (get_stripped d (py "reply_text")) as [raw|e1] eqn:Hraw.
  - destruct (get_stripped d (py "relevance_reason")) as [why|e2] eqn:Hwhy;
      [done|].
    simplify_eq. apply get_stripped_raises in Hwhy as (-> & v & Hv & Hun).
    split; [done|]. exists d, (py "relevance_reason"), v.
    split; [done|]. split; [simpl; tauto|done].
  - simplify_eq. apply get_stripped_raises in Hraw as (-> & v & Hv & Hun).
    split; [done|]. exists d, (py "reply_text"), v.
    split; [done|]. split; [simpl; tauto|done].
Qed.
(** One run of the retry loop, attempt by attempt. *)
Lemma guarded_loop_trace tweet ctx style persona banned remaining :
  forall attempt last_error calls w res calls' w',
    0 <= attempt ->
    guarded_loop tweet ctx style persona banned remaining attempt
      last_error calls w = (res, calls', w') ->
    let build := _build_instruction tweet ctx style persona banned in
    let first := build (if 0 <? attempt then last_error else None) in
    exists new reasons,
      calls' = calls ++ new
      /\ Forall (fun reason => reason <> []) reasons
      /\ new = take (length new)
                 (first :: List.map (fun reason => build (Some reason))
                             reasons)
      /\ match res with
         | Returns (None, md) =>
             length new = length reasons
             /\ length new = remaining
             /\ relevance_reason md = final_reason last_error reasons
         | Returns (Some text, md) =>
             length new = S (length reasons)
             /\ Str.strip text = text
             /\ _find_off_topic_terms text (ctx_text ctx) (ctx_keywords ctx)
                = []
             /\ exists instruction w0 d err raw,
                  last new = Some instruction
                  /\ generate_structured instruction w0
                     = (Returns (DataDict d, err), w')
                  /\ get_stripped d (py "reply_text") = Returns raw
                  /\ text = clip_reply raw
         | Raised e =>
             length new = S (length reasons)
             /\ exists instruction w0,
                  last new = Some instruction
                  /\ (generate_structured instruction w0 = (Raised e, w')
                      \/ e = py "AttributeError"
                         /\ exists d err key v,
                              generate_structured instruction w0
                              = (Returns (DataDict d, err), w')
                              /\ In key [py "reply_text";
                                         py "relevance_reason"]
                              /\ d !! key = Some v /\ unstrippable v)
         end.
Proof.
  induction remaining as [|n IH]; intros attempt last_error calls w res
    calls' w' Hattempt Hrun build first; simpl in Hrun.
  - simplify_eq. exists [], []. rewrite app_nil_r. simpl.
    repeat split; try done.
  - fold build in Hrun. fold first in Hrun.
    destruct (generate_structured first w) as [response w1] eqn:Hcall.
    destruct response as [[data err]|e].
    + destruct (guard_response ctx attempt data err) as [[text md|why]|e]
        eqn:Hguard.
      * simplify_eq. exists [first], []. simpl.
        apply guard_response_accept_clean in Hguard
          as (Hstrip & Hterms & d & -> & _ & raw & Hraw & Htext & _).
        split; [done|]. split; [done|]. split; [done|].
        split; [done|]. split; [done|]. split; [done|].
        exists first, w, d, err, raw. done.
      * pose proof (guard_response_reject_nonempty _ _ _ _ _ Hguard) as Hwhy.
        apply IH in Hrun as (new & reasons & -> & Hne & Hnew & Hres);
          [|lia].
        assert ((0 <? attempt + 1) = true) as Hpos by (apply Z.ltb_lt; lia).
        rewrite Hpos in Hnew.
        exists (first :: new), (why :: reasons).
        rewrite <- app_assoc. split; [done|].
        split; [by constructor|].
        split; [cbn [length take List.map]; f_equal; exact Hnew|].
        destruct res as [[[text|] md]|e].
        -- destruct Hres as (Hlen & Hstrip & Hterms & i & w0 & d & err'
                             & raw & Hlast & Hrest).
           split; [simpl; lia|]. split; [done|]. split; [done|].
           exists i, w0, d, err', raw. split; [|done].
           destruct new; [done|]. done.
        -- destruct Hres as (Hlen & Hall & Hreason). split; [simpl; lia|].
           split; [simpl; lia|]. rewrite Hreason. unfold final_reason.
           destruct reasons as [|r reasons'] using rev_ind.
           ++ simpl. destruct why; done.
           ++ rewrite last_snoc.
              change (why :: reasons' ++ [r]) with ((why :: reasons') ++ [r]).
              by rewrite last_snoc.
        -- destruct Hres as (Hlen & i & w0 & Hlast & Hcause).
           split; [simpl; lia|]. exists i, w0. split; [|done].
           destruct new; [done|]. done.
      * simplify_eq. exists [first], []. simpl.
        apply guard_response_raises in Hguard
          as (-> & d & key & v & -> & Hkey & Hv & Hun).
        split; [done|]. split; [done|]. split; [done|]. split; [done|].
        exists first, w. split; [done|]. right. split; [done|].
        exists d, err, key, v. done.
    + simplify_eq. exists [first], []. simpl.
      split; [done|]. split; [done|]. split; [done|]. split; [done|].
      exists first, w. split; [done|]. by left.
Qed.


(** A reply that is accepted is not empty, carries no white space at
    either end, and names no default off-topic term that the tweet's
    keywords and tokens do not allow; it is the reply text of the model's
    last answer, stripped and cut to 270 characters. *)
Theorem accepted_reply_is_clean tweet style persona banned retry_limit
    (w : World) text md calls w' :
  generate_guarded_reply tweet style persona banned retry_limit w
    = (Returns (Some text, md), calls, w') ->
  let ctx := _prepare_tweet_context tweet in
  text <> []
  /\ Str.strip text = text
  /\ _find_off_topic_terms text (ctx_text ctx) (ctx_keywords ctx) = []
  /\ exists instruction w0 d err raw,
       last calls = Some instruction
       /\ generate_structured instruction w0
          = (Returns (DataDict d, err), w')
       /\ get_stripped d (py "reply_text") = Returns raw
       /\ text = Str.rstrip (take 270 raw).
Proof.
  intros Hrun ctx.
  unfold generate_guarded_reply in Hrun.
  pose proof Hrun as Hloop.
  apply guarded_loop_spec in Hloop as (new0 & _ & _ & _ & _ & _ & Hne).
  apply guarded_loop_trace in Hrun
    as (new & reasons & Hcalls & _ & _ & _ & Hstrip & Hterms & i & w0 & d
        & err & raw & Hlast & Hcall & Hraw & Htext); [|lia].
  simpl in Hcalls. subst calls.
  split; [done|]. split; [done|]. split; [done|].
  exists i, w0, d, err, raw. split; [done|]. split; [done|].
  split; [done|].
  rewrite Htext. unfold clip_reply.
  destruct (is_empty raw) eqn:Hraw_empty; [|done].
  destruct raw; [|done]. rewrite Htext in Hne. done.
Qed.

End GuardedReplyProtocol.


Lemma accepted_reply_is_clean_witness :
  let tweet := mk_tweet "1" "AI launch today" "techmaker" in
  exists text md calls w',
    @generate_guarded_reply ascii_runtime _ StubLLMService tweet
      (Some (py "Keep it upbeat")) (Some (py "bot")) None 2
      [mk_response "  Congrats on the AI launch!  " true
         "Mentions the announcement" ["ai"; "launch"]%string]
    = (Returns (Some text, md), calls, w')
    /\ text <> [] /\ Str.strip text = text.
Proof.
  intros tweet.
  destruct (@generate_guarded_reply ascii_runtime _ StubLLMService tweet
              (Some (py "Keep it upbeat")) (Some (py "bot")) None 2
              [mk_response "  Congrats on the AI launch!  " true
                 "Mentions the announcement" ["ai"; "launch"]%string])
    as [[[[[text|] md]|e] calls] w'] eqn:Hrun;
    try (vm_compute in Hrun; discriminate).
  destruct (@accepted_reply_is_clean ascii_runtime _ StubLLMService
              _ _ _ _ _ _ _ _ _ _ Hrun) as (Hne & Hstrip & _).
  exists text, md, calls, w'.
  split; [reflexivity|]. split; [exact Hne|exact Hstrip].
Defined.


(** ** The style snapshot *)

Lemma List_filter_sublist {A} (f : A -> bool) (l : list A) :
  sublist (List.filter f l) l.
Proof.
  induction l as [|x l IH]; simpl; [constructor|].
  destruct (f x); by constructor.
Qed.

Lemma sublist_In {A} (l1 l2 : list A) (x : A) :
  sublist l1 l2 -> In x l1 -> In x l2.
Proof.
  intros Hsub Hin. apply list_elem_of_In.
  eapply sublist_subseteq; [exact Hsub|]. by apply list_elem_of_In.
Qed.

(** [sorted(..., reverse=True)] and [list.sort(reverse=True)] put no item
    before one with a greater key. *)
Section SortedDescending.
Context {A K : Type} (ltb : K -> K -> bool) (key : A -> K).
Hypothesis ltb_asym : forall a b, ltb a b = true -> ltb b a = false.
Hypothesis ltb_between :
  forall a b c, ltb a c = true -> ltb a b = true \/ ltb b c = true.

Lemma insert_desc_descending x l :
  StronglySorted (fun a b => ltb (key a) (key b) = false) l ->
  StronglySorted (fun a b => ltb (key a) (key b) = false)
    (insert_desc ltb key x l).
Proof.
  induction 1 as [|y r Hr IH Hy]; simpl.
  - repeat constructor.
  - destruct (ltb (key x) (key y)) eqn:Hxy.
    + constructor; [done|].
      apply List.Forall_forall. intros z Hz.
      apply (Permutation_in _ (insert_desc_perm ltb key x r)) in Hz.
      destruct Hz as [<-|Hz]; [by apply ltb_asym|].
      by apply (proj1 (List.Forall_forall _ _) Hy).
    + constructor; [by constructor|].
      constructor; [done|].
      apply List.Forall_forall. intros z Hz.
      destruct (ltb (key x) (key z)) eqn:Hxz; [|done].
      destruct (ltb_between _ (key y) _ Hxz) as [Hlt|Hlt]; [congruence|].
      rewrite (proj1 (List.Forall_forall _ _) Hy z Hz) in Hlt. done.
Qed.

Lemma sorted_reverse_descending l :
  StronglySorted (fun a b => ltb (key a) (key b) = false)
    (sorted_reverse ltb key l).
Proof.
  induction l as [|x l IH]; simpl; [constructor|].
  by apply insert_desc_descending.
Qed.
End SortedDescending.

Lemma StronglySorted_take {A} (R : A -> A -> Prop) (n : nat) (l : list A) :
  StronglySorted R l -> StronglySorted R (take n l).
Proof.
  intros Hsorted. revert n.
  induction Hsorted as [|x l Hl IH Hx]; intros [|n]; simpl;
    try constructor; [apply IH|].
  apply List.Forall_forall. intros y Hy.
  apply (proj1 (List.Forall_forall _ _) Hx).
  apply list_elem_of_In. eapply subseteq_take. by apply list_elem_of_In.
Qed.

Lemma StronglySorted_map {A B} (R : B -> B -> Prop) (f : A -> B)
    (l : list A) :
  StronglySorted (fun a b => R (f a) (f b)) l ->
  StronglySorted R (List.map f l).
Proof.
  induction 1 as [|x l Hl IH Hx]; simpl; constructor; [done|].
  by apply Forall_map.
Qed.

Lemma split_whitespace_parts (s : str) :
  forall cur part,
    Forall (fun c => Str.is_space c = false) cur ->
    In part (split_whitespace cur s) ->
    part <> [] /\ Forall (fun c => Str.is_space c = false) part.
Proof.
  induction s as [|c rest IH]; intros cur part Hcur; simpl.
  - destruct cur; simpl; [tauto|]. intros [<-|[]]. split; done.
  - destruct (Str.is_space c) eqn:Hc.
    + intros Hin. apply in_app_or in Hin as [Hin|Hin];
        [|eapply IH; [|exact Hin]; constructor].
      destruct cur; simpl in Hin; [tauto|]. destruct Hin as [<-|[]].
      split; done.
    + apply IH. apply Forall_app. split; [done|]. by constructor.
Qed.

Lemma single_spaced_word (word rest : str) :
  Forall (fun c => Str.is_space c = false) word ->
  single_spaced rest -> single_spaced (word ++ rest).
Proof.
  induction 1 as [|c word Hc _ IH]; intros Hrest; simpl; [done|].
  split; [congruence|auto].
Qed.

Lemma join_single_spaced (parts : list str) :
  Forall (fun part => part <> []
                      /\ Forall (fun c => Str.is_space c = false) part)
    parts ->
  single_spaced (Str.join (py " ") parts)
  /\ starts_clean (Str.join (py " ") parts).
Proof.
  induction 1 as [|part parts [Hne Hword] Hparts IH]; [done|].
  destruct parts as [|next parts].
  - simpl. split.
    + rewrite <- (app_nil_r part). by apply single_spaced_word.
    + destruct Hword; done.
  - change (Str.join (py " ") (part :: next :: parts))
      with (part ++ 32%N :: Str.join (py " ") (next :: parts)).
    destruct IH as [Hspaced Hclean]. split.
    + apply single_spaced_word; [done|]. simpl. tauto.
    + destruct Hword; done.
Qed.

Lemma take_single_spaced (n : nat) (s : str) :
  single_spaced s -> single_spaced (take n s).
Proof.
  revert n. induction s as [|c rest IH]; intros [|n]; simpl; try done.
  intros [Hblank Hrest]. split; [|auto].
  intros Hc. destruct (Hblank Hc) as [-> Hclean].
  split; [done|]. by apply take_starts_clean.
Qed.

Section StyleFacts.
Context `{UnicodeData} `{Calendar}.

(** The snippet of a post, as the style memory and the context block show
    it, has at most 220 characters and is one line of words that single
    blanks separate: it has no white space but blanks, no blank at its
    start and no two blanks in a row. *)
Theorem snippet_is_one_spaced_line (tweet : ScrapedTweet) :
  (length (snippet_of tweet) <= 220)%nat
  /\ single_spaced (snippet_of tweet)
  /\ starts_clean (snippet_of tweet).
Proof.
  unfold snippet_of.
  destruct (join_single_spaced
              (split_whitespace [] (or_empty (text_content tweet))))
    as [Hspaced Hclean].
  { apply List.Forall_forall. intros part.
    by apply split_whitespace_parts. }
  split; [rewrite length_take; lia|].
  split; [by apply take_single_spaced|by apply take_starts_clean].
Qed.

Lemma self_authored_filter (candidate_handles : list str)
    (tweet : ScrapedTweet) :
  match _normalize_handle (user_handle tweet) with
  | Some h =>
      bool_decide
        (h ∈ (list_to_set
                (omap (fun c => _normalize_handle (Some c))
                   candidate_handles) : gset str))
  | None => false
  end = true
  <-> self_authored candidate_handles tweet.
Proof.
  unfold self_authored.
  destruct (_normalize_handle (user_handle tweet)) as [h|].
  - rewrite bool_decide_eq_true, elem_of_list_to_set, list_elem_of_omap.
    split.
    + intros (c & Hc & Heq). exists h, c.
      by rewrite <- list_elem_of_In.
    + intros (h' & c & Heq & Hc & Hn). simplify_eq. exists c.
      by rewrite list_elem_of_In.
  - split; [done|]. intros (h & c & Heq & _). done.
Qed.

Lemma filter_to_self_posts_sublist
    (tweets : list ScrapedTweet) (candidate_handles : list str)
    (minimum : nat) :
  sublist (filter_to_self_posts tweets candidate_handles minimum) tweets.
Proof.
  unfold filter_to_self_posts.
  destruct (decide (_ = ∅)) as [_|_]; [done|].
  destruct (minimum <=? _)%nat; [apply List_filter_sublist|done].
Qed.

(** [filter_to_self_posts] answers posts of the input, in their order:
    either all of them, or at least [minimum] of them, and then exactly the
    self-authored ones.  With a [minimum] of at least one it never turns a
    list of posts into an empty one. *)
Theorem filter_to_self_posts_all_or_enough
    (tweets : list ScrapedTweet) (candidate_handles : list str)
    (minimum : nat) :
  let kept := filter_to_self_posts tweets candidate_handles minimum in
  sublist kept tweets
  /\ (kept = tweets
      \/ (minimum <= length kept)%nat
         /\ forall tweet,
              In tweet kept
              <-> In tweet tweets /\ self_authored candidate_handles tweet)
  /\ ((0 < minimum)%nat -> tweets <> [] -> kept <> []).
Proof.
  cbv zeta. unfold filter_to_self_posts.
  destruct (decide (_ = ∅)) as [_|_]; [by auto|].
  destruct (minimum <=? _)%nat eqn:Henough; [|by auto].
  apply Nat.leb_le in Henough.
  split; [apply List_filter_sublist|]. split.
  - right. split; [done|]. intros tweet.
    rewrite filter_In, self_authored_filter. done.
  - intros Hpos _ Hnil. rewrite Hnil in Henough. simpl in Henough. lia.
Qed.

Lemma dedupe_by_id_spec (tweets : list ScrapedTweet) :
  forall seen_ids,
    sublist (dedupe_by_id seen_ids tweets) tweets
    /\ NoDup (List.map tweet_id (dedupe_by_id seen_ids tweets))
    /\ forall tweet,
         In tweet (dedupe_by_id seen_ids tweets) ->
         exists c id, tweet_id tweet = Some (c :: id)
                      /\ (c :: id) ∉ seen_ids.
Proof.
  induction tweets as [|tweet rest IH]; intros seen_ids; simpl.
  - repeat split; [constructor|constructor|done].
  - destruct (tweet_id tweet) as [[|c id]|] eqn:Hid.
    + destruct (IH seen_ids) as (Hsub & Hnd & Hids).
      split; [by constructor|done].
    + destruct (decide ((c :: id) ∈ seen_ids)) as [Hseen|Hnew].
      * destruct (IH seen_ids) as (Hsub & Hnd & Hids).
        split; [by constructor|done].
      * destruct (IH ({[c :: id]} ∪ seen_ids)) as (Hsub & Hnd & Hids).
        split; [by constructor|]. split.
        -- simpl. apply NoDup_cons. split; [|done].
           rewrite list_elem_of_In, in_map_iff.
           intros (other & Heq & Hin).
           apply Hids in Hin as (c' & id' & Hother & Hfresh).
           rewrite Hid, Hother in Heq. simplify_eq. set_solver.
        -- intros t [<-|Hin]; [by eauto|].
           apply Hids in Hin as (c' & id' & Hother & Hfresh).
           exists c', id'. split; [done|]. set_solver.
    + destruct (IH seen_ids) as (Hsub & Hnd & Hids).
      split; [by constructor|done].
Qed.

Lemma created_ltb_asym (a b : option Z) :
  created_ltb a b = true -> created_ltb b a = false.
Proof.
  destruct a, b; simpl; try done. rewrite Z.ltb_lt, Z.ltb_ge. lia.
Qed.

Lemma created_ltb_between (a b c : option Z) :
  created_ltb a c = true -> created_ltb a b = true \/ created_ltb b c = true.
Proof.
  destruct a, b, c; simpl; try tauto; rewrite ?Z.ltb_lt; try lia; auto.
Qed.

(** The entries of the style memory are made from posts of the input that
    have an id, no two of them from posts with the same id; they stand
    newest first (posts without a time stamp last); and with [max_items]
    not negative there are at most [max_items] of them. *)
Theorem style_memory_entries
    (tweets : list ScrapedTweet) (candidate_handles : list str)
    (max_items : Z) (block : str) (memory : StyleMemory) :
  build_style_snapshot tweets candidate_handles max_items
    = (block, Some memory) ->
  NoDup (List.map entry_tweet_id (entries memory))
  /\ Forall (fun entry =>
               exists tweet c id,
                 In tweet tweets /\ entry = memory_entry tweet
                 /\ tweet_id tweet = Some (c :: id))
       (entries memory)
  /\ StronglySorted not_older (entries memory)
  /\ (0 <= max_items -> Z.of_nat (length (entries memory)) <= max_items)
  /\ 0 <= media_entry_count memory <= Z.of_nat (length (entries memory))
  /\ (length (keyword_signature memory) <= 8)%nat.
Proof.
  unfold build_style_snapshot.
  destruct tweets as [|first others] eqn:Htweets; [done|].
  rewrite <- Htweets. clear Htweets first others.
  set (relevant := filter_to_self_posts tweets candidate_handles 3).
  destruct (dedupe_by_id_spec relevant ∅) as (Hsub & Hnd & Hids).
  destruct (dedupe_by_id ∅ relevant) as [|first others] eqn:Hdeduped; [done|].
  rewrite <- Hdeduped in *. clear Hdeduped first others.
  set (deduped := dedupe_by_id ∅ relevant) in *.
  cbv zeta. intros Hsnap. simplify_eq. cbn [entries media_entry_count
    keyword_signature].
  set (sorted := sorted_reverse created_ltb created_at deduped).
  destruct (slice_to_take max_items sorted) as (k & Hslice & Hk).
  rewrite Hslice.
  pose proof (sorted_reverse_perm created_ltb created_at deduped) as Hperm.
  fold sorted in Hperm.
  assert (sublist (take k sorted) sorted) as Htake
    by apply sublist_take.
  split; [|split; [|split; [|split; [|split]]]].
  - rewrite map_map. cbn [memory_entry entry_tweet_id].
    eapply sublist_NoDup; [|apply (fmap_sublist tweet_id), Htake].
    apply (NoDup_Permutation_proper _ (List.map tweet_id deduped));
      [by apply Permutation_map|exact Hnd].
  - apply Forall_map. apply List.Forall_forall. intros tweet Hin.
    apply (sublist_In _ _ _ Htake) in Hin.
    apply (Permutation_in _ Hperm) in Hin.
    destruct (Hids tweet Hin) as (c & id & Hid & _).
    exists tweet, c, id. split; [|done].
    apply (sublist_In _ _ _ Hsub) in Hin.
    by apply (sublist_In _ _ _
                (filter_to_self_posts_sublist tweets candidate_handles 3)).
  - apply StronglySorted_map. unfold not_older. cbn [memory_entry
      entry_created_at].
    apply StronglySorted_take.
    apply sorted_reverse_descending;
      [apply created_ltb_asym|apply created_ltb_between].
  - intros Hpos. rewrite length_map, length_take. specialize (Hk Hpos). lia.
  - rewrite length_map. split; [lia|].
    apply inj_le. etrans; [apply List.filter_length_le|].
    by rewrite length_map.
  - unfold extract_keywords_from_texts.
    destruct (tally _); [simpl; lia|].
    destruct (slice_to_take 8 (sorted_reverse key_ltb
                (keyword_key (p :: l)) (keyword_pool (p :: l) 1)))
      as (k' & -> & Hk'). rewrite length_take. specialize (Hk' ltac:(lia)).
    lia.
Qed.
Lemma dedupe_by_id_nil (tweets : list ScrapedTweet) :
  forall seen_ids,
    dedupe_by_id seen_ids tweets = []
    <-> Forall (fun tweet =>
                  match tweet_id tweet with
                  | Some (c :: id) => (c :: id) ∈ seen_ids
                  | _ => True
                  end) tweets.
Proof.
  induction tweets as [|tweet rest IH]; intros seen_ids; simpl.
  - split; [constructor|done].
  - rewrite Forall_cons.
    destruct (tweet_id tweet) as [[|c id]|]; rewrite ?IH; try tauto.
    destruct (decide ((c :: id) ∈ seen_ids)); [rewrite IH; tauto|].
    split; [done|tauto].
Qed.

(** [build_style_snapshot] answers the empty snapshot (no text, no memory)
    exactly if none of the posts it would draw on has an id; this is so in
    particular when there are no posts. *)
Theorem style_snapshot_empty_iff_no_post_has_an_id
    (tweets : list ScrapedTweet) (candidate_handles : list str)
    (max_items : Z) :
  let snapshot := build_style_snapshot tweets candidate_handles max_items in
  (snd snapshot = None
   <-> Forall (fun tweet => tweet_id tweet = None \/ tweet_id tweet = Some [])
         (filter_to_self_posts tweets candidate_handles 3))
  /\ (snd snapshot = None -> fst snapshot = [])
  /\ build_style_snapshot [] candidate_handles max_items = ([], None).
Proof.
  cbv zeta. split; [|split; [|done]].
  - unfold build_style_snapshot. destruct tweets as [|first others] eqn:Htw.
    + simpl. split; [|done]. intros _.
      unfold filter_to_self_posts. destruct (decide _); [constructor|].
      simpl. constructor.
    + rewrite <- Htw. clear Htw.
      pose proof (dedupe_by_id_nil
                    (filter_to_self_posts tweets candidate_handles 3) ∅)
        as Hnil.
      destruct (dedupe_by_id ∅ _) as [|d ds].
      * simpl. split; [intros _|done].
        eapply Forall_impl; [apply Hnil; done|].
        intros tweet. simpl. destruct (tweet_id tweet) as [[|c id]|]; auto.
        intros Hin. by apply elem_of_empty in Hin.
      * simpl. split; [done|]. intros Hall.
        assert (d :: ds = []) as Habs; [|done].
        apply Hnil. eapply Forall_impl; [exact Hall|].
        intros tweet. simpl. by intros [->| ->].
  - unfold build_style_snapshot. destruct tweets; [done|].
    destruct (dedupe_by_id ∅ _); done.
Qed.
End StyleFacts.

Lemma style_memory_entries_witness :
  exists block memory,
    @build_style_snapshot ascii_runtime blank_calendar four_long_posts
      [py "me"] 5 = (block, Some memory)
    /\ NoDup (List.map entry_tweet_id (entries memory))
    /\ StronglySorted not_older (entries memory)
    /\ Z.of_nat (length (entries memory)) <= 5.
Proof.
  destruct (@build_style_snapshot ascii_runtime blank_calendar
              four_long_posts [py "me"] 5)
    as [block [memory|]] eqn:Hsnap; [|vm_compute in Hsnap; discriminate].
  exists block, memory. split; [reflexivity|].
  destruct (@style_memory_entries ascii_runtime blank_calendar _ _ _ _ _
              Hsnap) as (Hnd & _ & Hsorted & Hmax & _).
  split; [exact Hnd|]. split; [exact Hsorted|]. apply Hmax. lia.
Defined.

(** ** More on the router *)

Lemma remove_first_split (x : str) (l : list str) :
  In x l ->
  exists pre post,
    l = pre ++ x :: post /\ ~ In x pre /\ remove_first x l = pre ++ post.
Proof.
  induction l as [|y l IH]; [done|]. simpl.
  destruct (decide (y = x)) as [->|Hne].
  - intros _. exists [], l. split; [done|]. split; [by intros []|done].
  - intros [Heq|Hin]; [done|].
    destruct (IH Hin) as (pre & post & -> & Hpre & ->).
    exists (y :: pre), post. split; [done|]. split; [|done].
    intros [Heq|Hin']; [done|]. by apply Hpre.
Qed.

(** The order of the attempts: without a preference the configured order;
    with one, the preferred service first and the others after it in their
    configured order.  A preferred service that is configured is moved to
    the front (its first entry), not tried twice; one that is not
    configured is tried first all the same. *)
Theorem preferred_service_is_tried_first
    (self : TextGenerator) (service_preference : option str) :
  let order := service_preference_order self in
  match service_preference with
  | None | Some [] => services_to_try self service_preference = order
  | Some preferred =>
      (~ In preferred order ->
       services_to_try self service_preference = preferred :: order)
      /\ (In preferred order ->
          exists before after,
            order = before ++ preferred :: after
            /\ ~ In preferred before
            /\ services_to_try self service_preference
               = preferred :: before ++ after)
  end.
Proof.
  cbv zeta. unfold services_to_try.
  destruct service_preference as [[|c p]|]; [done| |done].
  destruct (bool_decide _) eqn:Hin.
  - apply bool_decide_eq_true, list_elem_of_In in Hin.
    split; [done|]. intros _.
    destruct (remove_first_split _ _ Hin) as (pre & post & Horder & Hpre
                                              & Hrest).
    exists pre, post. by rewrite Hrest.
  - apply bool_decide_eq_false in Hin. rewrite list_elem_of_In in Hin.
    split; [done|]. intros Habs. done.
Qed.

Lemma pop_model_spec (final_params : gmap str JValue)
    (fallback : option JValue) model rest :
  pop_model final_params fallback = (model, rest) ->
  rest !! py "model" = None
  /\ (forall key, key <> py "model" -> rest !! key = final_params !! key)
  /\ (is_Some fallback -> is_Some model).
Proof.
  unfold pop_model. destruct (final_params !! py "model") eqn:Hm;
    intros Heq; simplify_eq.
  - split; [apply lookup_delete_eq|]. split; [|by eauto].
    intros key Hkey. by apply lookup_delete_ne.
  - done.
Qed.

Lemma prepare_params_spec (self : TextGenerator) (service_name : str)
    (call_params : gmap str JValue) final_params media :
  prepare_params self service_name call_params
    = Returns (final_params, media) ->
  final_params !! py "inline_media" = None
  /\ is_Some (final_params !! py "max_tokens").
Proof.
  unfold prepare_params.
  destruct (service_config_of self service_name) as [| | | | |config];
    try discriminate.
  destruct (default _ _) as [| | | | |defaults]; try discriminate.
  cbv zeta.
  match goal with
  | |- context [?renamed !! py "max_tokens"] => generalize renamed
  end.
  intros renamed Heq.
  destruct (renamed !! py "max_tokens") eqn:Hmax; simplify_eq;
    (split; [apply lookup_delete_eq|]);
    rewrite lookup_delete_ne by (by vm_compute).
  - rewrite Hmax. eauto.
  - rewrite lookup_insert_eq. eauto.
Qed.

Section RecordingFacts.
Context {World : Type} `{!Backends World}.

(** Recording changes nothing but the record; and every call recorded is
    well formed. *)
Lemma try_service_recorded self service_name prepared prompt system_prompt
    messages call_params (w : World) log outcome invoked w' :
  prepare_params self service_name call_params = Returns prepared ->
  try_service self service_name prepared prompt system_prompt messages w
    = (outcome, invoked, w') ->
  exists calls,
    @try_service _ recording_backends self service_name prepared prompt
      system_prompt messages (w, log)
    = (outcome, invoked, (w', log ++ calls))
    /\ Forall well_formed_call calls
    /\ List.map fst calls = List.map fst invoked.
Proof.
  unfold try_service. intros Hprep.
  destruct prepared as [fp media].
  apply prepare_params_spec in Hprep as [Hmedia Hmax].
  destruct (bool_decide (service_name = py "gemini") && gemini_client self)
    eqn:Hg.
  { apply andb_true_iff in Hg as [Hname _].
    apply bool_decide_eq_true in Hname as ->.
    destruct (pop_model fp _) as [m fp'] eqn:Hpop.
    apply pop_model_spec in Hpop as (Hmodel & Hkeep & _).
    cbn [gemini_ainvoke recording_backends]. unfold recorded. cbn [fst snd].
    destruct (gemini_ainvoke _ w) as [response w1].
    intros Hrun. eexists [_].
    split; [destruct response; simplify_eq; reflexivity|].
    split; [|destruct response; by simplify_eq].
    constructor; [|constructor].
    unfold well_formed_call. cbn [call_final_params call_prompt
      call_system_prompt]. rewrite decide_True by done.
    rewrite <- (Hkeep (py "inline_media")) in Hmedia by (by vm_compute).
    rewrite <- (Hkeep (py "max_tokens")) in Hmax by (by vm_compute).
    destruct Hmax as [limit Hlimit]. rewrite Hlimit.
    assert (forall text, Str.strip (Str.strip text) = Str.strip text)
      as Hstrip.
    { intros text. unfold Str.strip at 1. rewrite lstrip_clean.
      - apply rstrip_idempotent.
      - apply rstrip_starts_clean, lstrip_starts_clean. }
    assert (forall system,
              match system_prompt with
              | Some (c :: s) => Some (Str.strip (c :: s))
              | _ => None
              end = Some system -> Str.strip system = system) as Hsystem.
    { intros system Heq. destruct system_prompt as [[|c s]|]; simplify_eq.
      apply Hstrip. }
    destruct (fp' !! py "max_output_tokens") eqn:Hout.
    - rewrite Hout. split; [done|]. split; [done|].
      split; [eauto|]. split; [done|]. exact Hsystem.
    - rewrite lookup_insert_ne by (by vm_compute).
      rewrite lookup_delete_ne by (by vm_compute).
      rewrite lookup_insert_ne by (by vm_compute).
      rewrite lookup_delete_ne by (by vm_compute).
      rewrite lookup_insert_eq.
      split; [done|]. split; [done|]. split; [eauto|]. split; [done|].
      exact Hsystem. }
  destruct (bool_decide (service_name = py "azure")
            && azure_openai_client self) eqn:Ha.
  { apply andb_true_iff in Ha as [Hname _].
    apply bool_decide_eq_true in Hname as ->.
    destruct (pop_model fp _) as [deployment fp'] eqn:Hpop.
    apply pop_model_spec in Hpop as (Hmodel & Hkeep & _).
    destruct (missing deployment) eqn:Hmissing.
    { intros Hrun. simplify_eq. exists []. rewrite app_nil_r. done. }
    cbn [azure_create recording_backends]. unfold recorded. cbn [fst snd].
    destruct (azure_create _ w) as [response w1].
    intros Hrun. eexists [_].
    split; [destruct response as [choices|];
            [destruct (first_choice_stripped choices)|];
            simplify_eq; reflexivity|].
    split; [|destruct response as [choices|];
             [destruct (first_choice_stripped choices)|]; by simplify_eq].
    constructor; [|constructor].
    unfold well_formed_call. cbn [call_final_params call_model].
    rewrite decide_False by (by vm_compute).
    rewrite (Hkeep (py "inline_media")) by (by vm_compute).
    rewrite (Hkeep (py "max_tokens")) by (by vm_compute).
    split; [done|]. split; [done|]. split; [done|].
    destruct deployment as [model|]; [|done].
    exists model. split; [done|]. intros _.
    simpl in Hmissing. by destruct (truthy model). }
  destruct (bool_decide (service_name = py "openai") && openai_client self)
    eqn:Ho.
  { apply andb_true_iff in Ho as [Hname _].
    apply bool_decide_eq_true in Hname as ->.
    destruct (pop_model fp _) as [model fp'] eqn:Hpop.
    apply pop_model_spec in Hpop as (Hmodel & Hkeep & Hsome).
    cbn [openai_create recording_backends]. unfold recorded. cbn [fst snd].
    destruct (openai_create _ w) as [response w1].
    intros Hrun. eexists [_].
    split; [destruct response as [choices|];
            [destruct (first_choice_stripped choices)|];
            simplify_eq; reflexivity|].
    split; [|destruct response as [choices|];
             [destruct (first_choice_stripped choices)|]; by simplify_eq].
    constructor; [|constructor].
    unfold well_formed_call. cbn [call_final_params call_model].
    rewrite decide_False by (by vm_compute).
    rewrite (Hkeep (py "inline_media")) by (by vm_compute).
    rewrite (Hkeep (py "max_tokens")) by (by vm_compute).
    split; [done|]. split; [done|]. split; [done|].
    destruct (Hsome ltac:(eauto)) as [m ->].
    exists m. split; [done|]. intros Habs. by vm_compute in Habs. }
  intros Hrun. simplify_eq. exists []. rewrite app_nil_r. done.
Qed.

Lemma try_services_recorded self services prompt system_prompt messages
    call_params :
  forall (w : World) log result invoked w',
    try_services self services prompt system_prompt messages call_params w
      = (result, invoked, w') ->
    exists calls,
      @try_services _ recording_backends self services prompt system_prompt
        messages call_params (w, log)
      = (result, invoked, (w', log ++ calls))
      /\ Forall well_formed_call calls
      /\ List.map fst calls = List.map fst invoked.
Proof.
  induction services as [|service_name rest IH]; intros w log result invoked
    w' Hrun; simpl in Hrun |- *.
  - simplify_eq. exists []. rewrite app_nil_r. done.
  - destruct (prepare_params self service_name call_params)
      as [prepared|e] eqn:Hprep.
    2:{ simplify_eq. exists []. rewrite app_nil_r. done. }
    destruct (try_service self service_name _ _ _ _ w)
      as [[outcome first] w1] eqn:Hfirst.
    destruct (try_service_recorded _ _ _ _ _ _ _ _ log _ _ _ Hprep Hfirst)
      as (calls1 & -> & Hwf1 & Hnames1).
    assert (forall result2 invoked2 w2,
              try_services self rest prompt system_prompt messages
                call_params w1 = (result2, invoked2, w2) ->
              (result2, first ++ invoked2, w2) = (result, invoked, w') ->
              exists calls,
                (let '(result, log', w) :=
                   @try_services _ recording_backends self rest prompt
                     system_prompt messages call_params
                     (w1, log ++ calls1) in
                 (result, first ++ log', w))
                = (result, invoked, (w', log ++ calls))
                /\ Forall well_formed_call calls
                /\ List.map fst calls = List.map fst invoked) as Hnext.
    { intros result2 invoked2 w2 Hrest Heq. simplify_eq.
      destruct (IH _ (log ++ calls1) _ _ _ Hrest)
        as (calls2 & -> & Hwf2 & Hnames2).
      exists (calls1 ++ calls2). rewrite app_assoc. split; [done|].
      split; [by apply Forall_app|].
      by rewrite !map_app, Hnames1, Hnames2. }
    destruct outcome as [[text|]|e].
    + simplify_eq. exists calls1. done.
    + destruct (try_services self rest _ _ _ _ w1) as [[result2 invoked2] w2]
        eqn:Hrest. by eapply Hnext.
    + destruct (try_services self rest _ _ _ _ w1) as [[result2 invoked2] w2]
        eqn:Hrest. by eapply Hnext.
Qed.

(** Whatever the caller's parameters and the settings are, every call
    [generate_text] makes of a backend is well formed: no [inline_media]
    and no [model] among the keyword parameters, a token limit under the
    name the backend knows, and for Azure a deployment name.  (The calls
    are those a run on recording backends notes down; such a run has the
    result, the log and the effect on the world of the run itself.) *)
Theorem every_backend_call_is_well_formed
    self prompt service_preference system_prompt messages call_params
    (w : World) :
  let '(result, invoked, w') :=
    generate_text self prompt service_preference system_prompt messages
      call_params w in
  exists calls,
    @generate_text _ recording_backends self prompt service_preference
      system_prompt messages call_params (w, [])
    = (result, invoked, (w', calls))
    /\ Forall well_formed_call calls
    /\ List.map fst calls = List.map fst invoked.
Proof.
  unfold generate_text.
  destruct (try_services self _ prompt system_prompt messages call_params w)
    as [[result invoked] w'] eqn:Hrun.
  destruct (try_services_recorded _ _ _ _ _ _ _ [] _ _ _ Hrun)
    as (calls & Hrec & Hwf & Hnames).
  exists calls. done.
Qed.
End RecordingFacts.

(** ** The account's own posts *)

Lemma is_space_not_upper (c : char) :
  ((65 <=? c) && (c <=? 90))%N = true ->
  Str.is_space c = false /\ Str.is_space (c + 32) = false.
Proof.
  rewrite andb_true_iff, !N.leb_le. intros [Hlo Hhi].
  unfold Str.is_space.
  rewrite !orb_false_iff, !andb_false_iff, !N.leb_gt, !N.eqb_neq. lia.
Qed.

Lemma is_space_ascii_lower (c : char) :
  Str.is_space (Str.ascii_lower c) = Str.is_space c.
Proof.
  unfold Str.ascii_lower. destruct (_ && _)%N eqn:Hupper; [|done].
  destruct (is_space_not_upper c Hupper) as [-> ->]. done.
Qed.

Lemma lstrip_ascii_lower (s : str) :
  Str.lstrip (List.map Str.ascii_lower s)
  = List.map Str.ascii_lower (Str.lstrip s).
Proof.
  induction s as [|c r IH]; [done|]. simpl.
  rewrite is_space_ascii_lower. by destruct (Str.is_space c).
Qed.

Lemma rstrip_ascii_lower (s : str) :
  Str.rstrip (List.map Str.ascii_lower s)
  = List.map Str.ascii_lower (Str.rstrip s).
Proof.
  induction s as [|c r IH]; [done|]. simpl.
  rewrite IH, is_space_ascii_lower.
  destruct (Str.rstrip r); simpl; [by destruct (Str.is_space c)|done].
Qed.

Lemma lstrip_char_ascii_lower (s : str) :
  lstrip_char 64%N (List.map Str.ascii_lower s)
  = List.map Str.ascii_lower (lstrip_char 64%N s).
Proof.
  induction s as [|c r IH]; [done|]. simpl.
  assert ((Str.ascii_lower c =? 64)%N = (c =? 64)%N) as ->.
  { unfold Str.ascii_lower. destruct (_ && _)%N eqn:Hupper; [|done].
    apply andb_true_iff in Hupper as [Hlo Hhi].
    apply N.leb_le in Hlo. apply N.leb_le in Hhi.
    transitivity false; [|symmetry]; apply N.eqb_neq; lia. }
  by destruct (c =? 64)%N.
Qed.

Lemma ascii_lower_idempotent (c : char) :
  Str.ascii_lower (Str.ascii_lower c) = Str.ascii_lower c.
Proof.
  unfold Str.ascii_lower.
  destruct ((65 <=? c) && (c <=? 90))%N eqn:Hupper; [|by rewrite Hupper].
  apply andb_true_iff in Hupper as [Hlo Hhi].
  apply N.leb_le in Hlo. apply N.leb_le in Hhi.
  assert (((65 <=? c + 32) && (c + 32 <=? 90))%N = false) as ->; [|done].
  apply andb_false_iff. right. apply N.leb_gt. lia.
Qed.

Lemma ascii_lower_is_ascii (c : char) :
  Str.is_ascii c = true -> Str.is_ascii (Str.ascii_lower c) = true.
Proof.
  unfold Str.is_ascii, Str.ascii_lower. rewrite !N.ltb_lt.
  destruct (_ && _)%N eqn:Hupper; [|done].
  apply andb_true_iff in Hupper as [Hlo Hhi].
  apply N.leb_le in Hlo. apply N.leb_le in Hhi. lia.
Qed.

Lemma Forall_lstrip (P : char -> Prop) (s : str) :
  Forall P s -> Forall P (Str.lstrip s).
Proof.
  induction 1 as [|c r Hc Hr IH]; simpl; [done|].
  destruct (Str.is_space c); [done|by constructor].
Qed.

Lemma Forall_rstrip (P : char -> Prop) (s : str) :
  Forall P s -> Forall P (Str.rstrip s).
Proof.
  induction 1 as [|c r Hc Hr IH]; simpl; [done|].
  destruct (Str.rstrip r); [destruct (Str.is_space c)|];
    [constructor|by repeat constructor|by constructor].
Qed.

Lemma Forall_lstrip_char (P : char -> Prop) (x : char) (s : str) :
  Forall P s -> Forall P (lstrip_char x s).
Proof.
  induction 1 as [|c r Hc Hr IH]; simpl; [done|].
  destruct (c =? x)%N; [done|by constructor].
Qed.

Lemma lstrip_blanks (blanks s : str) :
  Forall (fun c => Str.is_space c = true) blanks ->
  Str.lstrip (blanks ++ s) = Str.lstrip s.
Proof. induction 1 as [|c r Hc _ IH]; simpl; [done|]. by rewrite Hc. Qed.

Lemma rstrip_cons_clean (c : char) (s : str) :
  Str.is_space c = false ->
  Str.rstrip (c :: s) = c :: Str.rstrip s.
Proof.
  intros Hc. simpl. destruct (Str.rstrip s); [by rewrite Hc|done].
Qed.

Section OwnTweets.
Context `{UnicodeData}.

Lemma bare_handle_blank (value : str) :
  Str.strip value = [] -> bare_handle value = [].
Proof. unfold bare_handle. by intros ->. Qed.

(** A handle counts as the account's own exactly if its bare form (without
    white space around it, without leading at-signs, in lower case) is not
    empty and is the bare form of one of the configured self handles, of
    the handle detected in the browser, or of the account id. *)
Theorem own_tweet_iff_bare_handle_matches
    (user_handle : option str) (account : AccountConfig)
    (logged_in_handle : option str) :
  _is_own_tweet user_handle account logged_in_handle = true
  <-> bare_handle (or_empty user_handle) <> []
      /\ exists own,
           (In own (self_handles account)
            \/ logged_in_handle = Some own
            \/ own = account_id account)
           /\ bare_handle own = bare_handle (or_empty user_handle).
Proof.
  unfold _is_own_tweet. cbv zeta.
  set (handle := bare_handle (or_empty user_handle)).
  rewrite andb_true_iff, bool_decide_eq_true, negb_true_iff.
  rewrite !elem_of_union, elem_of_list_to_set, list_elem_of_In, in_map_iff.
  split.
  - intros [Hin Hne].
    split; [by destruct handle|].
    destruct Hin as [[(own & Heq & Hown)|Hlogged]|Hid].
    + apply filter_In in Hown as [Hown _]. exists own. tauto.
    + destruct logged_in_handle as [[|c own]|];
        try by apply elem_of_empty in Hlogged.
      apply elem_of_singleton in Hlogged. exists (c :: own). auto.
    + destruct (is_empty (Str.strip (account_id account)));
        [by apply elem_of_empty in Hid|].
      apply elem_of_singleton in Hid. exists (account_id account). auto.
  - intros [Hne (own & Hown & Heq)].
    split; [|by destruct handle].
    assert (Str.strip own <> []) as Hstrip.
    { intros Hblank. apply bare_handle_blank in Hblank. congruence. }
    destruct Hown as [Hown|[->| ->]].
    + left. left. exists own. split; [done|].
      apply filter_In. split; [done|]. by destruct (Str.strip own).
    + left. right. destruct own as [|c own]; [done|].
      by apply elem_of_singleton.
    + right. destruct (Str.strip (account_id account)); [done|].
      by apply elem_of_singleton.
Qed.

Lemma bare_handle_ascii (value : str) :
  Forall (fun c => Str.is_ascii c = true) value ->
  bare_handle value
  = List.map Str.ascii_lower (lstrip_char 64%N (Str.strip value)).
Proof.
  intros Hascii. unfold bare_handle. apply lower_ascii.
  apply Forall_lstrip_char, Forall_rstrip, Forall_lstrip, Hascii.
Qed.

(** For a handle of ASCII characters that does not start with white space,
    the answer of [_is_own_tweet] does not depend on the case of its
    letters, on an at-sign before it or on white space before that. *)
Theorem own_tweet_ignores_case_at_sign_and_blanks
    (handle blanks : str) (account : AccountConfig)
    (logged_in_handle : option str) :
  Forall (fun c => Str.is_ascii c = true) handle ->
  starts_clean handle ->
  Forall (fun c => Str.is_space c = true) blanks ->
  _is_own_tweet (Some (blanks ++ 64%N :: List.map Str.ascii_lower handle))
    account logged_in_handle
  = _is_own_tweet (Some handle) account logged_in_handle.
Proof.
  intros Hascii Hclean Hblanks.
  assert (bare_handle (blanks ++ 64%N :: List.map Str.ascii_lower handle)
          = bare_handle handle) as Hbare.
  { rewrite (bare_handle_ascii handle Hascii).
    unfold bare_handle, Str.strip.
    rewrite (lstrip_blanks blanks _ Hblanks).
    change (Str.lstrip (64%N :: ?s)) with (64%N :: s).
    rewrite rstrip_cons_clean by done.
    change (lstrip_char 64 (64%N :: ?s)) with (lstrip_char 64 s).
    rewrite rstrip_ascii_lower, lstrip_char_ascii_lower.
    rewrite (lstrip_clean handle Hclean).
    rewrite lower_ascii.
    - rewrite map_map. apply map_ext. intros c.
      apply ascii_lower_idempotent.
    - apply Forall_map. apply Forall_lstrip_char, Forall_rstrip.
      eapply Forall_impl; [exact Hascii|]. apply ascii_lower_is_ascii. }
  unfold _is_own_tweet. cbv zeta. cbn [or_empty]. by rewrite Hbare.
Qed.
End OwnTweets.

Lemma own_tweet_ignores_case_at_sign_and_blanks_witness :
  @_is_own_tweet ascii_runtime (Some (py "  @acct")) deciding_account None
  = @_is_own_tweet ascii_runtime (Some (py "ACCT")) deciding_account None.
Proof.
  apply (@own_tweet_ignores_case_at_sign_and_blanks ascii_runtime
           (py "ACCT") (py "  ")).
  - vm_compute. repeat constructor.
  - reflexivity.
  - vm_compute. repeat constructor.
Defined.

(** ** Legacy keys of an account's configuration *)

Lemma adopt_override_other {V} (d : gmap str V) (pair : str * str)
    (key : str) :
  key <> fst pair -> adopt_override d pair !! key = d !! key.
Proof.
  destruct pair as [k l]. simpl. intros Hne. unfold adopt_override.
  destruct (d !! k); [done|]. destruct (d !! l); [|done].
  by rewrite lookup_insert_ne.
Qed.

Lemma adopt_override_key {V} (d : gmap str V) (key legacy : str) :
  adopt_override d (key, legacy) !! key
  = match d !! key with Some value => Some value | None => d !! legacy end.
Proof.
  unfold adopt_override. destruct (d !! key) eqn:Hkey; [done|].
  destruct (d !! legacy); [by rewrite lookup_insert_eq|done].
Qed.

Lemma fold_adopt_other {V} (pairs : list (str * str)) (key : str) :
  ~ In key (List.map fst pairs) ->
  forall d : gmap str V,
    List.fold_left adopt_override pairs d !! key = d !! key.
Proof.
  induction pairs as [|pair pairs IH]; intros Hkey d; simpl; [done|].
  rewrite IH by (simpl in Hkey; tauto).
  apply adopt_override_other. simpl in Hkey. intros ->. tauto.
Qed.

Lemma fold_adopt_key {V} (pairs : list (str * str)) (key legacy : str) :
  NoDup (List.map fst pairs ++ List.map snd pairs) ->
  In (key, legacy) pairs ->
  forall d : gmap str V,
    List.fold_left adopt_override pairs d !! key
    = match d !! key with Some value => Some value | None => d !! legacy end.
Proof.
  induction pairs as [|[k l] pairs IH]; intros Hnd Hin d; [done|].
  simpl in Hnd. apply NoDup_cons in Hnd as [Hk Hnd].
  rewrite list_elem_of_In, in_app_iff in Hk.
  assert (NoDup (List.map fst pairs ++ List.map snd pairs)) as Hrest.
  { apply NoDup_app in Hnd as (Hfst & Hdisjoint & Hsnd).
    apply NoDup_cons in Hsnd as [_ Hsnd].
    apply NoDup_app. split; [done|]. split; [|done].
    intros x Hx Hx'. apply (Hdisjoint x Hx). by right. }
  simpl. destruct Hin as [Heq|Hin].
  - simplify_eq. rewrite fold_adopt_other by tauto.
    apply adopt_override_key.
  - rewrite (IH Hrest Hin).
    assert (key <> k) as Hkey.
    { intros ->. apply Hk. left. apply in_map_iff. by exists (k, legacy). }
    assert (legacy <> k) as Hlegacy.
    { intros ->. apply Hk. right. right. apply in_map_iff.
      by exists (key, k). }
    by rewrite !(adopt_override_other d (k, l)) by done.
Qed.

(** [_normalize_account_config] gives each of the five current keys that
    is missing the value of its legacy key, if that one is there, and
    changes nothing else: a current key that is there keeps its value, the
    legacy keys stay, every other key is as before.  Normalising twice is
    normalising once. *)
Theorem normalize_account_config_fills_missing_keys {V} (d : gmap str V) :
  (forall key legacy,
     In (key, legacy) legacy_overrides ->
     _normalize_account_config d !! key
     = match d !! key with Some value => Some value | None => d !! legacy end)
  /\ (forall key,
        ~ In key (List.map fst legacy_overrides) ->
        _normalize_account_config d !! key = d !! key)
  /\ _normalize_account_config (_normalize_account_config d)
     = _normalize_account_config d.
Proof.
  assert (NoDup (List.map fst legacy_overrides
                 ++ List.map snd legacy_overrides)) as Hnd.
  { apply (bool_decide_unpack _). vm_compute. exact I. }
  assert (forall (m : gmap str V) key legacy,
            In (key, legacy) legacy_overrides ->
            _normalize_account_config m !! key
            = match m !! key with
              | Some value => Some value
              | None => m !! legacy
              end) as Hkey.
  { intros m key legacy Hin. by apply fold_adopt_key. }
  assert (forall (m : gmap str V) key,
            ~ In key (List.map fst legacy_overrides) ->
            _normalize_account_config m !! key = m !! key) as Hother.
  { intros m key Hin. by apply fold_adopt_other. }
  split; [apply Hkey|]. split; [apply Hother|].
  apply map_eq. intros key.
  destruct (decide (key ∈ List.map fst legacy_overrides)) as [Hin|Hout];
    rewrite list_elem_of_In in *.
  - apply in_map_iff in Hin as ([k legacy] & <- & Hin). simpl.
    rewrite (Hkey _ k legacy Hin), (Hkey d k legacy Hin).
    destruct (d !! k); [done|].
    rewrite Hother; [by destruct (d !! legacy)|].
    intros Hlegacy.
    apply NoDup_app in Hnd as (_ & Hdisjoint & _).
    apply (Hdisjoint legacy); [by apply list_elem_of_In|].
    apply list_elem_of_In, in_map_iff. by exists (k, legacy).
  - by rewrite !Hother.
Qed.

(** ** More on the action decision *)

Section DecisionFacts.
Context `{UnicodeData} {World : Type} `{!TweetAnalyzer World}.

Lemma threshold_action_known rel quote_min retweet_min repost_min sentiment :
  In (threshold_action rel quote_min retweet_min repost_min sentiment)
    known_actions.
Proof.
  unfold threshold_action, known_actions.
  repeat case_match; simpl; tauto.
Qed.

(** With the decision logic enabled, [_decide_competitor_action] answers
    one of the four actions [quote_tweet], [retweet], [repost], [like],
    whatever the analyzer says: a recommendation it does not know is not
    passed on. *)
Theorem enabled_decision_is_a_known_action
    cfg tweet account (w w' : World) action :
  decision_enabled cfg account = true ->
  _decide_competitor_action cfg tweet account w = (Returns action, w') ->
  In action known_actions.
Proof.
  intros Henabled. unfold _decide_competitor_action. cbv zeta.
  rewrite Henabled. cbn [negb].
  destruct (analyze_tweet_structured _ _ w) as [[structured|e] w1]; [|done].
  assert (forall rel_w,
            match rel_w with
            | (Raised e, w2) => (Raised e, w2)
            | (Returns rel, w2) =>
                let '(sentiment, w3) :=
                  fallback_sentiment (use_sentiment cfg account) tweet w2 in
                (Returns
                   (threshold_action rel
                      (threshold account decision_quote_min
                         (cfg_quote_min cfg) 0.75)
                      (threshold account decision_retweet_min
                         (cfg_retweet_min cfg) 0.5)
                      (threshold account decision_repost_min
                         (cfg_repost_min cfg) 0.35) sentiment), w3)
            end = (Returns action, w') ->
            In action known_actions) as Hfallback.
  { intros [[rel|e] w2]; [|done].
    destruct (fallback_sentiment _ tweet w2) as [sentiment w3].
    intros Heq. simplify_eq. apply threshold_action_known. }
  destruct structured as [sa|]; [|apply Hfallback].
  destruct (PrimFloat.ltb _ _).
  - intros Heq. simplify_eq. unfold known_actions. simpl. tauto.
  - destruct (bool_decide _) eqn:Hknown; [|apply Hfallback].
    intros Heq. simplify_eq.
    apply bool_decide_eq_true in Hknown. by apply list_elem_of_In.
Qed.

(** A structured recommendation is guarded by the repost threshold: with a
    relevance below it the answer is [like], whatever was recommended;
    otherwise a recommendation that is one of the four actions (in any
    case of its letters) is followed.  In both cases the analyzer is not
    asked again. *)
Theorem structured_recommendation_is_guarded
    cfg tweet account (w w1 : World) sa :
  decision_enabled cfg account = true ->
  analyze_tweet_structured tweet (target_keywords account) w
    = (Returns (Some sa), w1) ->
  let repost_min :=
    threshold account decision_repost_min (cfg_repost_min cfg) 0.35%float in
  (PrimFloat.ltb (sa_relevance sa) repost_min = true ->
   _decide_competitor_action cfg tweet account w = (Returns like, w1))
  /\ (PrimFloat.ltb (sa_relevance sa) repost_min = false ->
      In (lower (sa_recommended_action sa)) known_actions ->
      _decide_competitor_action cfg tweet account w
      = (Returns (lower (sa_recommended_action sa)), w1)).
Proof.
  intros Henabled Hstructured repost_min.
  unfold _decide_competitor_action. cbv zeta.
  rewrite Henabled, Hstructured. cbn [negb]. fold repost_min.
  split; intros Hrel; rewrite Hrel; [done|].
  intros Hknown. apply list_elem_of_In in Hknown.
  by rewrite (bool_decide_eq_true_2 _ Hknown).
Qed.
End DecisionFacts.

Lemma enabled_decision_is_a_known_action_witness :
  exists action,
    @_decide_competitor_action ascii_runtime unit negative_analyzer
      deciding_cfg (mk_tweet "1" "Robotics demo" "alice") deciding_account tt
    = (Returns action, tt)
    /\ In action known_actions.
Proof.
  destruct (@_decide_competitor_action ascii_runtime unit negative_analyzer
              deciding_cfg (mk_tweet "1" "Robotics demo" "alice")
              deciding_account tt) as [[action|e] []] eqn:Hrun;
    [|vm_compute in Hrun; discriminate].
  exists action. split; [reflexivity|].
  exact (@enabled_decision_is_a_known_action ascii_runtime unit
           negative_analyzer deciding_cfg
           (mk_tweet "1" "Robotics demo" "alice") deciding_account tt tt
           action eq_refl Hrun).
Defined.

Lemma structured_recommendation_is_guarded_witness :
  @_decide_competitor_action ascii_runtime unit recommending_analyzer
    deciding_cfg (mk_tweet "1" "Robotics demo" "alice") deciding_account tt
  = (Returns (@lower ascii_runtime (py "Retweet")), tt).
Proof.
  apply (proj2
           (@structured_recommendation_is_guarded ascii_runtime unit
              recommending_analyzer deciding_cfg
              (mk_tweet "1" "Robotics demo" "alice") deciding_account tt tt
              _ eq_refl eq_refl)).
  - vm_compute. reflexivity.
  - vm_compute. tauto.
Defined.

(** ** The pacing of a session *)

Lemma spacing_max_window (d : Q) (max_delay : Z) :
  (d + 1 <= spacing_max d max_delay)%Q.
Proof.
  unfold spacing_max. cbv zeta.
  pose proof (Q.le_max_l 5 (d * 0.05)) as H5.
  match goal with
  | |- context [qlt (?s - d) 1] =>
      destruct (qlt (s - d) 1) eqn:Hnarrow; [lra|];
      destruct (Qlt_le_dec (s - d) 1) as [Hlt|Hle]; [|lra];
      apply qlt_spec in Hlt; congruence
  end.
Qed.

(** Whatever the configuration says, the plan of a session has at least
    one reply per hour and one hour, a cap that is their product, at least
    ten seconds between two replies and enough for [replies_per_hour] of
    them to fill an hour, and a window of at least one second to draw the
    delay from. *)
Theorem pacing_interval_of_the_plan
    (account : AccountConfig) (action_config : ActionConfig)
    (logged_in_handle : option str) (session_start : Q)
    (style_context : StyleContext) :
  let plan :=
    plan_session account action_config logged_in_handle session_start
      style_context in
  1 <= replies_per_hour plan
  /\ 1 <= max_hours plan
  /\ total_cap plan = replies_per_hour plan * max_hours plan
  /\ (10 <= spacing_min_seconds plan)%Q
  /\ (3600 <= inject_Z (replies_per_hour plan) * spacing_min_seconds plan)%Q
  /\ (spacing_min_seconds plan + 1 <= spacing_max_seconds plan)%Q.
Proof.
  cbv zeta. unfold plan_session. cbv zeta.
  cbn [replies_per_hour max_hours total_cap spacing_min_seconds
       spacing_max_seconds].
  split; [lia|]. split; [lia|]. split; [done|].
  split; [|split; [apply spacing_min_fills_hour; lia
                  |apply spacing_max_window]].
  unfold spacing_min. cbv zeta.
  eapply Qle_trans; [|apply Q.le_max_l].
  change 10%Q with (inject_Z 10). rewrite <- Zle_Qle. lia.
Qed.

(** ** The replies a session posts *)

Lemma rstrip_of_stripped (text : str) :
  Str.strip text = text -> Str.rstrip text = text.
Proof.
  intros Hstripped. rewrite <- Hstripped. unfold Str.strip.
  apply rstrip_idempotent.
Qed.

Section PostedFacts.
Context `{UnicodeData} {World : Type} `{!Platform World, !LLMService World}.
Context (posted : World -> list (ScrapedTweet * str)).
Hypothesis keeps : KeepsRecord posted.

Lemma guarded_loop_posted tweet ctx style persona banned remaining :
  forall attempt last_error calls (w : World) res calls' w',
    guarded_loop tweet ctx style persona banned remaining attempt
      last_error calls w = (res, calls', w') ->
    posted w' = posted w.
Proof.
  induction remaining as [|n IH]; intros attempt last_error calls w res
    calls' w' Hrun; simpl in Hrun; [by simplify_eq|].
  match type of Hrun with
  | context [generate_structured ?i w] =>
      pose proof (model_posted posted keeps i w) as Hcall;
      destruct (generate_structured i w) as [response w1]
  end.
  simpl in Hcall.
  destruct response as [[data err]|e]; [|by simplify_eq].
  destruct (guard_response ctx attempt data err) as [[text md|why]|e];
    [by simplify_eq| |by simplify_eq].
  apply IH in Hrun. congruence.
Qed.

Lemma generate_guarded_reply_posted tweet style persona banned retry_limit
    (w : World) res calls w' :
  generate_guarded_reply tweet style persona banned retry_limit w
    = (res, calls, w') ->
  posted w' = posted w.
Proof. unfold generate_guarded_reply. apply guarded_loop_posted. Qed.

(** The text [generate_guarded_reply] accepts is posted as it is: the
    session's own cut and strip leave it alone. *)
Lemma accepted_text_unchanged tweet style persona banned retry_limit
    (w : World) text md calls w' :
  generate_guarded_reply tweet style persona banned retry_limit w
    = (Returns (Some text, md), calls, w') ->
  Str.rstrip (take 270 text) = text
  /\ text <> [] /\ (length text <= 270)%nat.
Proof.
  intros Hrun.
  pose proof Hrun as Hspec.
  apply generate_guarded_reply_spec in Hspec as (_ & _ & _ & Hlen).
  unfold generate_guarded_reply in Hrun.
  pose proof Hrun as Hloop.
  apply guarded_loop_spec in Hloop as (new0 & _ & _ & _ & _ & _ & Hne).
  apply guarded_loop_trace in Hrun
    as (new & reasons & _ & _ & _ & _ & Hstrip & _); [|lia].
  unfold MAX_REPLY_CHARS in Hlen.
  rewrite take_ge by lia. split; [|done].
  by apply rstrip_of_stripped.
Qed.

Lemma empty_handle_not_own (user_handle : option str) account logged :
  or_empty user_handle = [] ->
  _is_own_tweet user_handle account logged = false.
Proof.
  intros Hempty. unfold _is_own_tweet. cbv zeta. rewrite Hempty.
  apply andb_false_iff. right. reflexivity.
Qed.

Lemma posts_logged_refl account logged events replies :
  posts_logged account logged (events, replies) (events, replies).
Proof. exists [], []. simpl. by rewrite app_nil_r. Qed.

Lemma posts_logged_trans account logged a b c :
  posts_logged account logged a b -> posts_logged account logged b c ->
  posts_logged account logged a c.
Proof.
  intros (r1 & n1 & Hr1 & Hn1 & Hok1 & Hk1) (r2 & n2 & Hr2 & Hn2 & Hok2 & Hk2).
  exists (r1 ++ r2), (n2 ++ n1).
  rewrite Hr2, Hr1, Hn2, Hn1, !app_assoc.
  split; [done|]. split; [done|]. split; [by apply Forall_app|].
  by rewrite !map_app, rev_app_distr, Hk1, Hk2.
Qed.

Lemma scan_batch_posted plan account logged_in_handle candidates :
  forall s (w : World) res s' w',
    scan_batch plan account logged_in_handle candidates s w = (res, s', w') ->
    posts_logged account logged_in_handle
      (events s, posted w) (events s', posted w').
Proof.
  induction candidates as [|candidate rest IH]; intros s w res s' w' Hrun;
    simpl in Hrun.
  { simplify_eq. apply posts_logged_refl. }
  destruct (_ || _).
  { simplify_eq. apply posts_logged_refl. }
  destruct (tweet_id candidate) as [[|c id]|] eqn:Hid;
    [by eapply IH| |by eapply IH].
  destruct (_ && _) eqn:Hown; [by eapply IH|].
  assert (_is_own_tweet (user_handle candidate) account logged_in_handle
          = false) as Hnot_own.
  { apply andb_false_iff in Hown as [Hempty|Hown]; [|done].
    apply negb_false_iff in Hempty. apply empty_handle_not_own.
    by destruct (or_empty (user_handle candidate)). }
  destruct (decide (_ ∈ _)) as [|Hfresh]; [by eapply IH|].
  destruct (generate_guarded_reply _ _ _ _ _ w) as [[generated calls] w1]
    eqn:Hgen.
  pose proof (generate_guarded_reply_posted _ _ _ _ _ _ _ _ _ Hgen) as Hw1.
  rewrite <- Hw1.
  destruct generated as [[[[|c0 text]|] md]|]; try by eapply IH.
  destruct (accepted_text_unchanged _ _ _ _ _ _ _ _ _ _ Hgen)
    as (Hsame & Hne & Hlen).
  rewrite Hsame in Hrun. cbn [is_empty] in Hrun.
  unfold now in Hrun. cbv zeta in Hrun.
  match type of Hrun with
  | context [reply_to_tweet candidate (c0 :: text) ?w2] =>
      assert (posted w2 = posted w1) as Hw2
        by (destruct (qlt _ _); [destruct (qlt _ _)|];
            by rewrite ?(sleep_posted posted keeps),
                 ?(tick_posted posted keeps));
      pose proof (reply_posted posted keeps candidate (c0 :: text) w2)
        as Hreply;
      destruct (reply_to_tweet candidate (c0 :: text) w2)
        as [[success|e] w3]
  end; simpl in Hreply; rewrite Hw2 in Hreply.
  - assert (guarded_reply_to account logged_in_handle
              (candidate, c0 :: text)) as Hok.
    { unfold guarded_reply_to. rewrite Hid. split; [done|].
      split; [done|]. split; [done|]. split; [done|]. eauto 10. }
    match type of Hrun with
    | context [uniform ?a ?b ?w4] =>
        pose proof (uniform_posted posted keeps a b w4) as Huniform;
        destruct (uniform a b w4) as [delay w5]
    end.
    simpl in Huniform. rewrite (tick_posted posted keeps) in Huniform.
    destruct success.
    + simplify_eq. rewrite (tick_posted posted keeps), Huniform, Hreply.
      eexists [(candidate, c0 :: text)], [_]. simpl.
      split; [done|]. split; [done|]. split; [by constructor|].
      unfold posted_key. simpl. by rewrite Hid.
    + apply IH in Hrun. simpl in Hrun. rewrite Huniform, Hreply in Hrun.
      eapply posts_logged_trans; [|exact Hrun].
      eexists [(candidate, c0 :: text)], [_]. simpl.
      split; [done|]. split; [done|]. split; [by constructor|].
      unfold posted_key. simpl. by rewrite Hid.
  - simplify_eq. rewrite Hreply.
    eexists [(candidate, c0 :: text)], [_]. simpl.
    split; [done|]. split; [done|]. split; [|].
    + constructor; [|done]. unfold guarded_reply_to. rewrite Hid.
      split; [done|]. split; [done|]. split; [done|]. split; [done|].
      eauto 10.
    + unfold posted_key. simpl. by rewrite Hid.
Qed.

Lemma session_loop_posted plan account logged_in_handle fuel :
  forall s (w : World) res s' w',
    session_loop plan account logged_in_handle fuel s w = Some (res, s', w') ->
    posts_logged account logged_in_handle
      (events s, posted w) (events s', posted w').
Proof.
  induction fuel as [|fuel IH]; intros s w res s' w' Hrun; simpl in Hrun.
  { destruct (_ <=? _); [|done]. simplify_eq. apply posts_logged_refl. }
  destruct (total_cap plan <=? _).
  { simplify_eq. apply posts_logged_refl. }
  unfold now in Hrun. cbv zeta in Hrun.
  destruct (qle (session_end plan) _).
  { simplify_eq. rewrite (tick_posted posted keeps).
    apply posts_logged_refl. }
  set (p := if qle 3600 _ then _ else pace s) in Hrun.
  destruct (replies_per_hour plan <=? replies_this_hour p).
  - destruct (qle (_ - _) 0).
    { simplify_eq. rewrite (tick_posted posted keeps).
      apply posts_logged_refl. }
    destruct (qle _ 0); apply IH in Hrun; simpl in Hrun;
      repeat (rewrite (tick_posted posted keeps) in Hrun
              || rewrite (sleep_posted posted keeps) in Hrun);
      exact Hrun.
  - match type of Hrun with
    | context [scrape_home_timeline ?n ?w0] =>
        pose proof (scrape_posted posted keeps n w0) as Hscrape;
        destruct (scrape_home_timeline n w0) as [[[|tweet tweets]|e] w1]
    end; simpl in Hscrape; rewrite (tick_posted posted keeps) in Hscrape.
    + simplify_eq. rewrite Hscrape. apply posts_logged_refl.
    + destruct (keyed_by_score _) as [keyed|e];
        [|simplify_eq; rewrite Hscrape; apply posts_logged_refl].
      destruct (scan_batch _ _ _ _ _ w1) as [[[made|e] s1] w2] eqn:Hscan;
        apply scan_batch_posted in Hscan; simpl in Hscan;
        rewrite Hscrape in Hscan.
      * destruct made; [|by simplify_eq].
        apply IH in Hrun. by eapply posts_logged_trans.
      * by simplify_eq.
    + simplify_eq. rewrite Hscrape. apply posts_logged_refl.
Qed.

(** Every reply a session hands to the publisher is a text that
    [generate_guarded_reply] accepted for the post it answers, not empty and
    of at most 270 characters, and the post has an id and is not one of the
    account's own.  The session logs one event for each, under the action
    key of the post. *)
Theorem session_posts_only_guarded_replies
    account action_config logged_in_handle self (w : World) res s w' :
  _run_home_timeline_replies account action_config logged_in_handle self w
    = Some (res, s, w') ->
  exists replies,
    posted w' = posted w ++ replies
    /\ Forall (guarded_reply_to account logged_in_handle) replies
    /\ List.map (posted_key account) replies
       = rev (List.map event_key (events s)).
Proof.
  unfold _run_home_timeline_replies, now. cbv zeta.
  pose proof (style_posted posted keeps (tick w)) as Hstyle.
  destruct (build_style_context _) as [style_context w1]. simpl in Hstyle.
  intros Hrun. apply session_loop_posted in Hrun.
  destruct Hrun as (replies & new & Hposted & Hevents & Hok & Hkeys).
  simpl in Hposted, Hevents.
  rewrite (tick_posted posted keeps), Hstyle, (tick_posted posted keeps)
    in Hposted.
  exists replies. rewrite app_nil_r in Hevents. subst new. done.
Qed.
End PostedFacts.

(** The recording platform keeps the record, whatever platform and model
    service it records. *)
Lemma recording_keeps_record {World : Type}
    `{!Platform World, !LLMService World} :
  @KeepsRecord (World * list (ScrapedTweet * str)) recording_platform
    recording_llm snd.
Proof.
  split; intros; simpl; try done.
  - by destruct (uniform _ _ _).
  - by destruct (build_style_context _).
  - by destruct (scrape_home_timeline _ _).
  - unfold generate_structured, recording_llm.
    by destruct (generate_structured _ _).
  - by destruct (reply_to_tweet _ _ _).
Qed.

(** The demo session, run on the recording platform. *)
Lemma session_posts_only_guarded_replies_witness :
  exists res s w' replies,
    @_run_home_timeline_replies ascii_runtime _
      (@recording_platform Q demo_platform) (@recording_llm Q demo_llm)
      deciding_account demo_action_config None (orchestrator_init [])
      (0%Q, [])
    = Some (res, s, w')
    /\ snd w' = replies
    /\ Forall (@guarded_reply_to ascii_runtime _
                 (@recording_llm Q demo_llm) deciding_account None) replies.
Proof.
  destruct (@_run_home_timeline_replies ascii_runtime _
              (@recording_platform Q demo_platform)
              (@recording_llm Q demo_llm)
              deciding_account demo_action_config None (orchestrator_init [])
              (0%Q, []))
    as [[[res s] w']|] eqn:Hrun; [|vm_compute in Hrun; discriminate].
  destruct (@session_posts_only_guarded_replies ascii_runtime _
              (@recording_platform Q demo_platform)
              (@recording_llm Q demo_llm) snd recording_keeps_record
              _ _ _ _ _ _ _ _ Hrun) as (replies & Hposted & Hok & _).
  exists res, s, w', replies.
  split; [reflexivity|]. split; [exact Hposted|exact Hok].
Defined.

(** ** Liking tweets *)

Lemma liked_keys_snoc account calls tweet success :
  liked_keys account (calls ++ [(tweet, success)])
  = liked_keys account calls
    ++ (if success then [like_key account tweet] else []).
Proof.
  unfold liked_keys. rewrite List.filter_app, map_app. simpl.
  by destruct success.
Qed.

Lemma liked_keys_cons account calls tweet success :
  liked_keys account ((tweet, success) :: calls)
  = (if success then [like_key account tweet] else [])
    ++ liked_keys account calls.
Proof. unfold liked_keys. simpl. by destruct success. Qed.

Section LikingFacts.
Context `{UnicodeData} {World : Type}
  `{!Platform World, !TweetAnalyzer World, !Engagement World}.

Lemma fresh_calls_snoc account logged avoid_own calls tweet success :
  forall seen,
    fresh_calls account logged avoid_own seen calls ->
    like_key account tweet ∉ seen ∪ list_to_set (liked_keys account calls) ->
    (avoid_own = true ->
     _is_own_tweet (user_handle tweet) account logged = false) ->
    fresh_calls account logged avoid_own seen (calls ++ [(tweet, success)]).
Proof.
  induction calls as [|[first ok] calls IH]; intros seen Hfresh Hkey Hown.
  - simpl. split; [|done].
    intros Hin. apply Hkey. apply elem_of_union. by left.
  - simpl in Hfresh. destruct Hfresh as (Hfirst & Hfirst_own & Hrest).
    simpl. split; [done|]. split; [done|]. apply IH; [done| |done].
    rewrite liked_keys_cons in Hkey.
    generalize dependent (like_key account tweet).
    generalize (like_key account first) (liked_keys account calls).
    intros k1 keys k Hkey. clear -Hkey.
    destruct ok; simpl in Hkey; set_solver.
Qed.
Lemma fresh_calls_liked account logged avoid_own calls :
  forall seen,
    fresh_calls account logged avoid_own seen calls ->
    NoDup (liked_keys account calls)
    /\ forall key, In key (liked_keys account calls) -> key ∉ seen.
Proof.
  induction calls as [|[tweet success] calls IH]; intros seen Hfresh.
  - split; [constructor|done].
  - simpl in Hfresh. destruct Hfresh as (Hkey & _ & Hrest).
    rewrite liked_keys_cons.
    destruct (IH _ Hrest) as [Hnd Hout]. destruct success; simpl.
    + split.
      * apply NoDup_cons. split; [|done].
        rewrite list_elem_of_In. intros Hin. apply (Hout _ Hin).
        apply elem_of_union. left. by apply elem_of_singleton.
      * intros key [<-|Hin]; [done|]. intros Hseen.
        apply (Hout _ Hin). apply elem_of_union. by right.
    + split; [done|]. exact Hout.
Qed.

Lemma liking_invariant_call cfg account logged self st tweet
    (success : bool) timestamp :
  liking_invariant cfg account logged self st ->
  likes_done_this_run st < max_likes_per_run cfg ->
  like_key account tweet ∉ processed_action_keys (like_orchestrator st) ->
  (avoid_replying_to_own_tweets cfg = true ->
   _is_own_tweet (user_handle tweet) account logged = false) ->
  liking_invariant cfg account logged self
    (if success then
       {| like_orchestrator :=
            {| processed_action_keys :=
                 {[ like_key account tweet ]}
                 ∪ processed_action_keys (like_orchestrator st);
               dedup_file :=
                 save_processed_action_key (like_key account tweet) timestamp
                   (dedup_file (like_orchestrator st)) |};
          likes_done_this_run := likes_done_this_run st + 1;
          like_calls := like_calls st ++ [(tweet, true)] |}
     else
       {| like_orchestrator := like_orchestrator st;
          likes_done_this_run := likes_done_this_run st;
          like_calls := like_calls st ++ [(tweet, false)] |}).
Proof.
  intros (Hdone & Hcap & Hkeys & (more & Hfile & Hmore) & Hfresh) Hroom Hkey
    Hown.
  assert (like_key account tweet
          ∉ processed_action_keys self
            ∪ list_to_set (liked_keys account (like_calls st))) as Hkey'
    by (by rewrite <- Hkeys).
  unfold liking_invariant.
  destruct success; cbn [like_orchestrator likes_done_this_run like_calls
    processed_action_keys dedup_file]; rewrite liked_keys_snoc.
  - rewrite length_app. simpl.
    split; [lia|]. split; [lia|]. split; [|split].
    + rewrite Hkeys, list_to_set_app_L. simpl.
      generalize (like_key account tweet)
        (liked_keys account (like_calls st)) (processed_action_keys self).
      intros k keys P. set_solver.
    + exists (more ++ [(like_key account tweet, timestamp)]).
      unfold save_processed_action_key.
      rewrite Hfile, app_assoc, map_app, Hmore. done.
    + by apply fresh_calls_snoc.
  - rewrite app_nil_r.
    split; [done|]. split; [done|]. split; [done|].
    split; [by exists more|]. by apply fresh_calls_snoc.
Qed.

Lemma like_tweets_of_keyword_invariant cfg account logged self tweets :
  forall st (w : World) res st' w',
    like_tweets_of_keyword cfg account logged tweets st w = (res, st', w') ->
    liking_invariant cfg account logged self st ->
    liking_invariant cfg account logged self st'.
Proof.
  induction tweets as [|tweet rest IH]; intros st w res st' w' Hrun Hinv;
    simpl in Hrun; [by simplify_eq|].
  destruct (max_likes_per_run cfg <=? _) eqn:Hroom; [by simplify_eq|].
  apply Z.leb_gt in Hroom.
  destruct (decide (_ ∈ _)) as [|Hkey]; [by eapply IH|].
  destruct (_ && _) eqn:Hown; [by eapply IH|].
  assert (avoid_replying_to_own_tweets cfg = true ->
          _is_own_tweet (user_handle tweet) account logged = false)
    as Hnot_own.
  { intros Havoid. rewrite Havoid in Hown. cbn [andb] in Hown.
    apply andb_false_iff in Hown as [Hempty|Hown]; [|done].
    apply negb_false_iff in Hempty. apply empty_handle_not_own.
    by destruct (or_empty (user_handle tweet)). }
  destruct (skipped_as_irrelevant cfg account tweet w) as [skip w1].
  destruct skip; [by eapply IH|].
  destruct (like_tweet tweet w1) as [[success|e] w2]; [|by simplify_eq].
  pose proof (fun timestamp : Q =>
                liking_invariant_call cfg account logged self st tweet
                  success timestamp Hinv Hroom Hkey Hnot_own) as Hnext.
  destruct success.
  - unfold now in Hrun. cbv zeta in Hrun.
    destruct (uniform _ _ _) as [delay w4].
    eapply IH; [exact Hrun|]. apply Hnext.
  - eapply IH; [exact Hrun|]. apply (Hnext 0%Q).
Qed.

Lemma like_by_keywords_invariant cfg account logged self keywords :
  forall st (w : World) res st' w',
    like_by_keywords cfg account logged keywords st w = (res, st', w') ->
    liking_invariant cfg account logged self st ->
    liking_invariant cfg account logged self st'.
Proof.
  induction keywords as [|keyword rest IH]; intros st w res st' w' Hrun Hinv;
    simpl in Hrun; [by simplify_eq|].
  destruct (max_likes_per_run cfg <=? _); [by simplify_eq|].
  destruct (scrape_tweets_by_keyword _ _ w) as [[tweets|e] w1];
    [|by simplify_eq].
  destruct (like_tweets_of_keyword _ _ _ tweets st w1) as [[res1 st1] w2]
    eqn:Hinner.
  eapply like_tweets_of_keyword_invariant in Hinner; [|exact Hinv].
  destruct res1; [by eapply IH|by simplify_eq].
Qed.

(** A run of the liking block likes at most [max_likes_per_run] posts; it
    calls [like_tweet] only for posts whose key was not processed before
    the run and was not liked earlier in the run (so no post is liked twice)
    and, with [avoid_replying_to_own_tweets], never for a post of the
    account's own; and the keys it adds to the set of processed keys and
    appends to the dedup file are exactly those of the calls that
    succeeded. *)
Theorem likes_respect_cap_and_dedup
    cfg account logged_in_handle self (w : World) res st w' :
  like_tweets cfg account logged_in_handle self w = (res, st, w') ->
  let liked := liked_keys account (like_calls st) in
  Z.of_nat (length liked) <= Z.max 0 (max_likes_per_run cfg)
  /\ fresh_calls account logged_in_handle
       (avoid_replying_to_own_tweets cfg) (processed_action_keys self)
       (like_calls st)
  /\ NoDup liked
  /\ processed_action_keys (like_orchestrator st)
     = processed_action_keys self ∪ list_to_set liked
  /\ exists more,
       dedup_file (like_orchestrator st) = dedup_file self ++ more
       /\ List.map fst more = liked.
Proof.
  intros Hrun liked.
  assert (liking_invariant cfg account logged_in_handle self st) as Hinv.
  { assert (liking_invariant cfg account logged_in_handle self
              {| like_orchestrator := self; likes_done_this_run := 0;
                 like_calls := [] |}) as Hstart.
    { unfold liking_invariant. simpl. split; [done|]. split; [lia|].
      split; [set_solver|]. split; [|done]. exists []. by rewrite app_nil_r. }
    unfold like_tweets in Hrun. destruct (enable_liking_tweets cfg).
    - by eapply like_by_keywords_invariant.
    - by simplify_eq. }
  destruct Hinv as (Hdone & Hcap & Hkeys & Hfile & Hfresh).
  fold liked in Hdone, Hkeys, Hfile.
  split; [lia|]. split; [done|]. split; [|done].
  by destruct (fresh_calls_liked _ _ _ _ _ Hfresh).
Qed.
End LikingFacts.

(** Two keywords that both find the two posts of [demo_feed]: each post is
    liked once. *)
Lemma likes_respect_cap_and_dedup_witness :
  exists res st w',
    @like_tweets ascii_runtime Q demo_platform demo_analyzer demo_engagement
      demo_liking_config deciding_account None (orchestrator_init []) 0%Q
    = (res, st, w')
    /\ length (like_calls st) = 2%nat
    /\ Z.of_nat (length (liked_keys deciding_account (like_calls st))) <= 3
    /\ NoDup (liked_keys deciding_account (like_calls st)).
Proof.
  destruct (@like_tweets ascii_runtime Q demo_platform demo_analyzer
              demo_engagement demo_liking_config deciding_account None
              (orchestrator_init []) 0%Q) as [[res st] w'] eqn:Hrun.
  destruct (@likes_respect_cap_and_dedup ascii_runtime Q demo_platform
              demo_analyzer demo_engagement _ _ _ _ _ _ _ _ Hrun)
    as (Hcap & _ & Hnd & _).
  exists res, st, w'. split; [reflexivity|].
  split; [|split; [exact Hcap|exact Hnd]].
  vm_compute in Hrun. by simplify_eq.
Defined.

(** ** The style context *)

Section StyleContextFacts.
Context `{UnicodeData} `{Calendar} {World : Type} `{!ProfileScraper World}.

Lemma normalize_handle_nonempty (raw_value : option str) (handle : str) :
  BuildStyleContext._normalize_handle raw_value = Some handle ->
  handle <> [].
Proof.
  unfold BuildStyleContext._normalize_handle.
  destruct raw_value as [[|c raw]|]; try done.
  destruct (is_empty _); [done|]. cbv zeta.
  destruct (lower _); [done|]. intros Heq. by simplify_eq.
Qed.

Lemma normalize_unique_spec (candidates : list str) :
  forall seen,
    NoDup (BuildStyleContext.normalize_unique seen candidates)
    /\ forall handle,
         In handle (BuildStyleContext.normalize_unique seen candidates)
         <-> (handle ∉ seen)
             /\ exists raw,
                  In raw candidates
                  /\ BuildStyleContext._normalize_handle (Some raw)
                     = Some handle.
Proof.
  induction candidates as [|raw rest IH]; intros seen;
    cbn [BuildStyleContext.normalize_unique In].
  - split; [constructor|]. intros handle. split; [done|].
    by intros (_ & raw & [] & _).
  - destruct (BuildStyleContext._normalize_handle (Some raw))
      as [normalized|] eqn:Hraw.
    + destruct (decide (normalized ∈ seen)) as [Hseen|Hnew].
      * destruct (IH seen) as [Hnd Hin]. split; [done|].
        intros handle. rewrite Hin. split.
        -- intros (Hout & r & Hr & Heq). split; [done|]. exists r. tauto.
        -- intros (Hout & r & [<-|Hr] & Heq).
           ++ rewrite Hraw in Heq. simplify_eq. done.
           ++ split; [done|]. by exists r.
      * destruct (IH ({[normalized]} ∪ seen)) as [Hnd Hin]. split.
        -- apply NoDup_cons. split; [|done].
           rewrite list_elem_of_In, Hin. intros (Hout & _).
           apply Hout. apply elem_of_union. left. by apply elem_of_singleton.
        -- intros handle. cbn [In]. rewrite Hin. split.
           ++ intros [<-|(Hout & r & Hr & Heq)].
              ** split; [done|]. exists raw. tauto.
              ** split; [|exists r; tauto].
                 intros Hs. apply Hout. apply elem_of_union. by right.
           ++ intros (Hout & r & [<-|Hr] & Heq).
              ** rewrite Hraw in Heq. simplify_eq. by left.
              ** destruct (decide (handle = normalized)) as [->|Hne];
                   [by left|right].
                 split; [|by exists r]. intros Hs.
                 apply elem_of_union in Hs as [Hs|Hs]; [|done].
                 by apply elem_of_singleton in Hs.
    + destruct (IH seen) as [Hnd Hin]. split; [done|].
      intros handle. rewrite Hin. split.
      * intros (Hout & r & Hr & Heq). split; [done|]. exists r. tauto.
      * intros (Hout & r & [<-|Hr] & Heq); [congruence|].
        split; [done|]. by exists r.
Qed.

Lemma first_profile_with_posts_spec (handles : list str) (max_items : Z) :
  forall (w : World) found visits w',
    first_profile_with_posts handles max_items w = (found, visits, w') ->
    List.map (fun visit => fst (fst visit)) visits
      `prefix_of` List.map profile_url_of handles
    /\ Forall (fun visit => snd (fst visit) = Z.max (max_items * 2) 20) visits
    /\ match found with
       | None =>
           length visits = length handles
           /\ Forall (fun visit => posts_with_text (snd visit) = []) visits
       | Some (valid, profile_used) =>
           exists barren outcome,
             visits
             = barren ++ [(profile_used, Z.max (max_items * 2) 20, outcome)]
             /\ Forall (fun visit => posts_with_text (snd visit) = []) barren
             /\ valid = posts_with_text outcome /\ valid <> []
       end.
Proof.
  induction handles as [|handle rest IH]; intros w found visits w' Hrun;
    simpl in Hrun.
  - simplify_eq. simpl. split; [done|]. split; [done|]. done.
  - destruct (scrape_tweets_from_profile _ _ w) as [outcome w1].
    destruct (posts_with_text outcome) as [|post posts] eqn:Hposts.
    + destruct (first_profile_with_posts rest max_items w1)
        as [[found1 visits1] w2] eqn:Hrest.
      simplify_eq. apply IH in Hrest as (Hprefix & Hmax & Hfound).
      simpl. split; [by apply prefix_cons|].
      split; [by constructor|].
      destruct found as [[valid profile_used]|].
      * destruct Hfound as (barren & last & -> & Hbarren & Hvalid & Hne).
        exists ((profile_url_of handle, Z.max (max_items * 2) 20, outcome)
                :: barren), last.
        split; [done|]. split; [by constructor|done].
      * destruct Hfound as [Hlen Hall]. split; [by rewrite Hlen|].
        by constructor.
    + simplify_eq. simpl. split; [apply prefix_cons, prefix_nil|].
      split; [by repeat constructor|].
      exists [], outcome. rewrite Hposts. done.
Qed.

(** [_build_style_context] visits the profiles of the account's handles in
    the order: handle seen in the browser, configured self handles, account
    id, each normalised handle once and none of them empty.  It asks every
    profile for [max(2 * max_items, 20)] posts and stops at the first that
    yields a post with text; a visit that raises counts as one that yields
    nothing.  Without such a profile the context is empty; a style memory
    that is returned was drawn from the profile visited last. *)
Theorem style_context_visits_profiles_in_order
    (account : AccountConfig) (logged_in_handle : option str)
    (max_items : Z) (w : World) text memory visits w' :
  _build_style_context account logged_in_handle max_items w
    = (text, memory, visits, w') ->
  let handles := normalized_handles account logged_in_handle in
  NoDup handles
  /\ Forall (fun handle => handle <> []) handles
  /\ List.map (fun visit => fst (fst visit)) visits
       `prefix_of` List.map profile_url_of handles
  /\ Forall (fun visit => snd (fst visit) = Z.max (max_items * 2) 20) visits
  /\ Forall (fun visit => posts_with_text (snd visit) = [])
       (removelast visits)
  /\ match memory with
     | Some (_, profile_used) =>
         exists outcome,
           last visits
           = Some (profile_used, Z.max (max_items * 2) 20, outcome)
           /\ posts_with_text outcome <> []
     | None =>
         text = []
         /\ (Forall (fun visit => posts_with_text (snd visit) = []) visits ->
             length visits = length handles)
     end.
Proof.
  intros Hrun handles.
  destruct (normalize_unique_spec
              (handle_candidates account logged_in_handle) ∅)
    as [Hnd Hin].
  split; [exact Hnd|]. split.
  { apply List.Forall_forall. intros handle Hhandle.
    apply Hin in Hhandle as (_ & raw & _ & Hraw).
    by eapply normalize_handle_nonempty. }
  unfold _build_style_context in Hrun. cbv zeta in Hrun.
  fold handles in Hrun.
  destruct (first_profile_with_posts handles max_items w)
    as [[found visits0] w1] eqn:Hvisits.
  apply first_profile_with_posts_spec in Hvisits as (Hprefix & Hmax & Hfound).
  assert (visits = visits0) as ->.
  { destruct found as [[valid used]|]; [|by simplify_eq].
    destruct (dedupe_by_id ∅ valid); [by simplify_eq|].
    destruct (build_style_snapshot _ _ _) as [block [m|]]; by simplify_eq. }
  split; [done|]. split; [done|].
  destruct found as [[valid used]|].
  - destruct Hfound as (barren & outcome & -> & Hbarren & -> & Hne).
    rewrite removelast_last. split; [done|].
    assert (last (barren ++ [(used, Z.max (max_items * 2) 20, outcome)])
            = Some (used, Z.max (max_items * 2) 20, outcome)) as Hlast
      by apply last_snoc.
    assert (Forall (fun visit => posts_with_text (snd visit) = [])
              (barren ++ [(used, Z.max (max_items * 2) 20, outcome)]) ->
            False) as Hsome.
    { intros Hall. apply Forall_app in Hall as [_ Hall].
      apply Forall_inv in Hall. simpl in Hall. congruence. }
    destruct (dedupe_by_id ∅ _); [simplify_eq; by split|].
    destruct (build_style_snapshot _ _ _) as [block [m|]]; simplify_eq.
    + exists outcome. by split.
    + by split.
  - destruct Hfound as [Hlen Hall]. simplify_eq.
    split; [|by split].
    apply List.Forall_forall. intros visit Hvisit.
    apply (proj1 (List.Forall_forall _ _) Hall).
    clear -Hvisit. induction visits0 as [|v [|v' vs] IH]; simpl in *; [done..|].
    destruct Hvisit as [<-|Hvisit]; [by left|right; by apply IH].
Qed.
End StyleContextFacts.

(** The profile of the handle seen in the browser fails, that of the
    account id yields the posts. *)
Lemma style_context_visits_profiles_in_order_witness :
  exists text memory visits w',
    @_build_style_context ascii_runtime blank_calendar unit demo_profiles
      deciding_account (Some (py "@Me")) 10 tt
    = (text, memory, visits, w')
    /\ length visits = 2%nat
    /\ NoDup (@normalized_handles ascii_runtime deciding_account
                (Some (py "@Me"))).
Proof.
  destruct (@_build_style_context ascii_runtime blank_calendar unit
              demo_profiles deciding_account (Some (py "@Me")) 10 tt)
    as [[[text memory] visits] w'] eqn:Hrun.
  destruct (@style_context_visits_profiles_in_order ascii_runtime
              blank_calendar unit demo_profiles _ _ _ _ _ _ _ _ Hrun)
    as (Hnd & _).
  exists text, memory, visits, w'. split; [reflexivity|].
  split; [|exact Hnd]. vm_compute in Hrun. by simplify_eq.
Defined.

(** ** The three handle normalisers *)

Lemma rstrip_blanks (blanks : str) :
  Forall (fun c => Str.is_space c = true) blanks -> Str.rstrip blanks = [].
Proof. induction 1 as [|c r Hc _ IH]; simpl; [done|]. by rewrite IH, Hc. Qed.

Lemma rstrip_trailing_blanks (word blanks : str) :
  Forall (fun c => Str.is_space c = false) word ->
  Forall (fun c => Str.is_space c = true) blanks ->
  Str.rstrip (word ++ blanks) = word.
Proof.
  intros Hword Hblanks.
  induction Hword as [|c word Hc Hword IH]; simpl.
  - by apply rstrip_blanks.
  - rewrite IH. destruct word; [by rewrite Hc|done].
Qed.

Lemma strip_word (before word after : str) :
  Forall (fun c => Str.is_space c = true) before ->
  Forall (fun c => Str.is_space c = false) word ->
  Forall (fun c => Str.is_space c = true) after ->
  Str.strip (before ++ word ++ after) = word.
Proof.
  intros Hbefore Hword Hafter. unfold Str.strip.
  rewrite lstrip_blanks by done.
  destruct Hword as [|c word Hc Hword].
  - simpl. rewrite rstrip_blanks; [done|].
    clear -Hafter. induction Hafter as [|c r Hc _ IH]; simpl; [done|].
    by rewrite Hc.
  - rewrite lstrip_clean by done.
    by apply (rstrip_trailing_blanks (c :: word)); [constructor|].
Qed.

Lemma before_first_absent (x : char) (s : str) :
  Forall (fun c => c <> x) s -> before_first [x] s = s.
Proof.
  induction 1 as [|c s Hc _ IH]; [done|].
  cbn [before_first Str.startswith].
  assert ((x =? c)%N = false) as -> by (apply N.eqb_neq; congruence).
  simpl. by rewrite IH.
Qed.

Lemma lstrip_char_absent (x : char) (s : str) :
  Forall (fun c => c <> x) s -> lstrip_char x s = s.
Proof.
  destruct 1 as [|c s Hc _]; [done|]. simpl.
  by apply N.eqb_neq in Hc as ->.
Qed.

Lemma rstrip_char_absent (x : char) (s : str) :
  Forall (fun c => c <> x) s -> rstrip_char x s = s.
Proof.
  induction 1 as [|c s Hc _ IH]; [done|]. simpl. rewrite IH.
  destruct s; [|done]. by apply N.eqb_neq in Hc as ->.
Qed.

Lemma strip_char_absent (x : char) (s : str) :
  Forall (fun c => c <> x) s -> strip_char x s = s.
Proof.
  intros Hs. unfold strip_char. rewrite lstrip_char_absent by done.
  by apply rstrip_char_absent.
Qed.

Lemma plain_handle_char_spec (c : char) :
  plain_handle_char c = true ->
  Str.is_ascii c = true /\ Str.is_space c = false
  /\ c <> 64%N /\ c <> 63%N /\ c <> 47%N /\ Str.ascii_lower c <> 47%N.
Proof.
  unfold plain_handle_char.
  rewrite !andb_true_iff, !negb_true_iff, !orb_false_iff, !N.eqb_neq.
  intros [[Hascii Hspace] [[Hat Hq] Hslash]].
  repeat split; try done.
  unfold Str.ascii_lower. destruct (_ && _)%N eqn:Hupper; [|done].
  apply andb_true_iff in Hupper as [Hlo _]. apply N.leb_le in Hlo. lia.
Qed.

Section NormaliserFacts.
Context `{UnicodeData}.

Lemma plain_lower_not_url (word : str) :
  Forall (fun c => Str.is_ascii c = true /\ Str.ascii_lower c <> 47%N) word ->
  Str.startswith (py "https://") (lower word) = false.
Proof.
  intros Hword.
  rewrite lower_ascii
    by (eapply Forall_impl; [exact Hword|]; by intros c [? _]).
  destruct (Str.startswith _ _) eqn:Hstart; [|done].
  apply startswith_spec in Hstart as [post Heq].
  assert (In 47%N (List.map Str.ascii_lower word)) as Hin.
  { rewrite Heq. apply in_or_app. left. do 6 right. by left. }
  apply in_map_iff in Hin as (c & Hc & Hin).
  apply (proj1 (List.Forall_forall _ _) Hword) in Hin as [_ Hne]. done.
Qed.

(** The three helpers named [_normalize_handle] (of [style_utils.py], of
    [reply_handler.py] and of [_build_style_context] in [main.py]) agree on
    a plain handle, written with or without an at-sign before it and with
    white space around it: each answers the handle in lower case. *)
Theorem handle_normalisers_agree_on_plain_handles
    (handle before after : str) (at_sign : bool) :
  handle <> [] ->
  Forall (fun c => plain_handle_char c = true) handle ->
  Forall (fun c => Str.is_space c = true) before ->
  Forall (fun c => Str.is_space c = true) after ->
  let written :=
    before ++ ((if at_sign then [64%N] else []) ++ handle) ++ after in
  let lowered := List.map Str.ascii_lower handle in
  _normalize_handle (Some written) = Some lowered
  /\ ReplyHandler._normalize_handle (Some written) = Some lowered
  /\ BuildStyleContext._normalize_handle (Some written) = Some lowered.
Proof.
  intros Hne Hplain Hbefore Hafter written lowered.
  set (word := (if at_sign then [64%N] else []) ++ handle) in *.
  assert (Forall (fun c => Str.is_ascii c = true /\ Str.is_space c = false
                           /\ c <> 63%N /\ c <> 47%N
                           /\ Str.ascii_lower c <> 47%N) word) as Hword.
  { subst word. apply Forall_app. split.
    - destruct at_sign; repeat constructor; try done.
    - eapply Forall_impl; [exact Hplain|]. intros c Hc.
      apply plain_handle_char_spec in Hc. tauto. }
  assert (Str.strip written = word) as Hstrip.
  { apply strip_word; [done| |done].
    eapply Forall_impl; [exact Hword|]. cbv beta. tauto. }
  assert (written <> []) as Hwritten.
  { intros Hnil. rewrite Hnil in Hstrip. subst word.
    destruct at_sign, handle; done. }
  assert (lstrip_char 64%N word = handle) as Hat.
  { subst word. destruct at_sign; simpl.
    - destruct handle as [|c handle]; [done|].
      apply Forall_inv in Hplain. apply plain_handle_char_spec in Hplain.
      simpl. destruct Hplain as (_ & _ & Hc & _).
      by apply N.eqb_neq in Hc as ->.
    - destruct handle as [|c handle]; [done|].
      apply Forall_inv in Hplain. apply plain_handle_char_spec in Hplain.
      simpl. destruct Hplain as (_ & _ & Hc & _).
      by apply N.eqb_neq in Hc as ->. }
  assert (forall s : str,
            Forall (fun c => Str.is_ascii c = true /\ Str.is_space c = false
                             /\ c <> 63%N /\ c <> 47%N
                             /\ Str.ascii_lower c <> 47%N) s ->
            strip_char 47%N (before_first (py "?") s) = s) as Hclean.
  { intros s Hs.
    change (py "?") with [63%N].
    rewrite before_first_absent
      by (eapply Forall_impl; [exact Hs|]; cbv beta; tauto).
    apply strip_char_absent. eapply Forall_impl; [exact Hs|]. cbv beta. tauto. }
  assert (Forall (fun c => Str.is_ascii c = true /\ Str.is_space c = false
                           /\ c <> 63%N /\ c <> 47%N
                           /\ Str.ascii_lower c <> 47%N) handle) as Hhandle.
  { eapply Forall_impl; [exact Hplain|]. intros c Hc.
    apply plain_handle_char_spec in Hc. tauto. }
  assert (lower handle = lowered) as Hlower.
  { apply lower_ascii. eapply Forall_impl; [exact Hhandle|]. cbv beta. tauto. }
  assert (forall s : str,
            Forall (fun c => Str.is_ascii c = true /\ Str.is_space c = false
                             /\ c <> 63%N /\ c <> 47%N
                             /\ Str.ascii_lower c <> 47%N) s ->
            Str.startswith (py "https://") (lower s) = false) as Hurl.
  { intros s Hs. apply plain_lower_not_url.
    eapply Forall_impl; [exact Hs|]. cbv beta. tauto. }
  assert (match lowered with [] => None | l => Some l end = Some lowered)
    as Hsome.
  { subst lowered. destruct handle; done. }
  assert (is_empty word = false) as Hword_ne.
  { subst word. destruct at_sign, handle; done. }
  assert (is_empty handle = false) as Hhandle_ne by (by destruct handle).
  clearbody written word lowered.
  destruct written as [|c0 written0]; [done|].
  split; [|split].
  - unfold _normalize_handle. rewrite Hstrip, Hat, Hhandle_ne. cbv zeta.
    rewrite (Hclean handle Hhandle), (Hurl handle Hhandle), Hlower.
    by destruct lowered.
  - unfold ReplyHandler._normalize_handle.
    rewrite Hstrip, Hat, Hword_ne.
    rewrite (Hclean handle Hhandle), Hlower. by destruct lowered.
  - unfold BuildStyleContext._normalize_handle.
    rewrite Hstrip, Hword_ne.
    cbv zeta. rewrite (Hurl word Hword), (Hclean word Hword), Hat, Hlower.
    by destruct lowered.
Qed.
End NormaliserFacts.

Lemma handle_normalisers_agree_on_plain_handles_witness :
  @_normalize_handle ascii_runtime (Some (py " @TechMaker "))
  = Some (py "techmaker")
  /\ @ReplyHandler._normalize_handle ascii_runtime (Some (py " @TechMaker "))
     = Some (py "techmaker")
  /\ @BuildStyleContext._normalize_handle ascii_runtime
       (Some (py " @TechMaker "))
     = Some (py "techmaker").
Proof.
  apply (@handle_normalisers_agree_on_plain_handles ascii_runtime
           (py "TechMaker") (py " ") (py " ") true).
  - done.
  - vm_compute. repeat constructor.
  - vm_compute. repeat constructor.
  - vm_compute. repeat constructor.
Defined.
